(** * dyorm: a typed layer over the DynamoDB client

    A shallow embedding of the Go package [dynamodb] of sghaida/dyorm
    (paginator.go, aws_expression.go, query.go, command.go and the type
    declarations next to them), with the properties of its bulk-read
    pipeline, its partitioner, its expression wrapper and its bulk-write
    handlers.

    Go values are modelled as follows.
    - [int] is a 64-bit two's complement integer: a [Z] with the wrap-around
      of every arithmetic operation written out ([GoInt]).
    - A pointer that may be nil is an [option]; a Go map is a [gmap], except
      where the code distinguishes a nil map from an allocated one or shares
      one map between two struct values, where the map lives in a store and
      the struct holds a reference to it.
    - A function returning [(T, error)] returns a pair whose second
      component is an [option] of the error; a run-time panic is a separate
      outcome.
    - A goroutine is a task of a step relation; an unbuffered channel is a
      rendezvous between a task that is ready to send and the receiver. *)

From Stdlib Require Import ZArith Lia Ascii String.
From stdpp Require Import gmap strings list fin_maps pretty.

Open Scope Z_scope.

(** ** Go's [int] *)

Module GoInt.

Definition min_int : Z := - 2 ^ 63.
Definition max_int : Z := 2 ^ 63 - 1.

(** Reduction of a mathematical integer into the range of [int]. *)
Definition wrap (x : Z) : Z := (x + 2 ^ 63) `mod` 2 ^ 64 - 2 ^ 63.

Definition add (x y : Z) : Z := wrap (x + y).
Definition mul (x y : Z) : Z := wrap (x * y).
(** [/] and [%] truncate toward zero; [min_int / -1] wraps. *)
Definition quo (x y : Z) : Z := wrap (Z.quot x y).
Definition rem (x y : Z) : Z := Z.rem x y.

Definition in_range (x : Z) : Prop := min_int <= x <= max_int.

End GoInt.

(** ** paginator.go *)

(** IdxRange defines lower an upper bound of slice *)
Record IdxRange := mkIdxRange { Low : Z; High : Z }.

(** The [for ; i < numFullPartitions; i++] loop of [Partition]: the ranges it
    sends, in order, and the value of [i] when it exits.  [fuel] bounds the
    number of iterations. *)
Fixpoint Partition_loop (fuel : nat) (i numFullPartitions partitionSize : Z)
  : list IdxRange * Z :=
  match fuel with
  | O => ([], i)
  | S fuel' =>
      if i <? numFullPartitions then
        let '(rest, i') :=
          Partition_loop fuel' (GoInt.add i 1) numFullPartitions partitionSize in
        (mkIdxRange (GoInt.mul i partitionSize)
                    (GoInt.mul (GoInt.add i 1) partitionSize) :: rest, i')
      else ([], i)
  end.

(** Partition slices a slice and returns lower an upper bound of each sub
    slice.  The Go function returns an unbuffered channel fed by a goroutine
    and closed after the last range; the model is the sequence of values a
    reader receives from that channel before it is closed.  The loop runs
    [numFullPartitions] times when that number is positive and not at all
    otherwise, which is the fuel given to it. *)
Definition Partition (collectionLen partitionSize : Z) : list IdxRange :=
  if partitionSize <=? 0 then []
  else
    let numFullPartitions := GoInt.quo collectionLen partitionSize in
    let '(full, i) :=
      Partition_loop (Z.to_nat numFullPartitions) 0 numFullPartitions partitionSize in
    if negb (GoInt.rem collectionLen partitionSize =? 0)
    then full ++ [mkIdxRange (GoInt.mul i partitionSize) collectionLen]
    else full.

(** The indices a range stands for: [Low], [Low+1], ..., [High-1]. *)
Definition indices (r : IdxRange) : list Z := seqZ (Low r) (High r - Low r).

(** [tiles lo hi rs]: the ranges [rs] are non-empty, each starts where the
    previous one ends, the first starts at [lo] and the last ends at [hi]. *)
Inductive tiles : Z -> Z -> list IdxRange -> Prop :=
| tiles_nil lo : tiles lo lo []
| tiles_cons lo hi r rs :
    Low r = lo -> lo < High r -> tiles (High r) hi rs -> tiles lo hi (r :: rs).

(** [ceil (n / p)] for [0 <= n] and [0 < p]. *)
Definition ceil_div (n p : Z) : Z := (n + p - 1) `div` p.

(** ** Errors and results *)

(** Go's [error] values: the ones made by [errors.New] and the two error
    types of the SDK's expression package. *)
Inductive error :=
| errorString (msg : string)
| UnsetParameterError (functionName parameterType : string)
| InvalidParameterError (functionName parameterType : string).

#[global] Instance error_eq_dec : EqDecision error.
Proof. solve_decision. Defined.

(** A call whose value is only looked at when no error came back. *)
Inductive result (A : Type) :=
| Ok (a : A)
| Err (e : error).
Arguments Ok {A} a.
Arguments Err {A} e.

#[global] Instance result_ret : MRet result := fun A a => Ok a.
#[global] Instance result_bind : MBind result := fun A B f m =>
  match m with
  | Ok a => f a
  | Err e => Err e
  end.

(** ** Types of the AWS SDK (service/dynamodb) *)

(** [dynamodb.AttributeValue], with the members this package reads or
    writes. *)
#[warnings="-register-all"]
Inductive AttributeValue :=
| AttrS (s : string)
| AttrN (n : string)
| AttrBOOL (b : bool)
| AttrNULL
| AttrM (members : list (string * AttributeValue)).

(** DBMap define the dynamo db object type:
    [map[string]*dynamodb.AttributeValue]; a nil pointer is [None]. *)
Abbreviation DBMap := (gmap string (option AttributeValue)).

Record KeysAndAttributes := mkKeysAndAttributes { Keys : list DBMap }.

Record BatchGetItemInput := mkBatchGetItemInput {
  BatchGet_RequestItems : gmap string KeysAndAttributes
}.

Record BatchGetItemOutput := mkBatchGetItemOutput {
  Responses : gmap string (list DBMap);
  UnprocessedKeys : gmap string KeysAndAttributes
}.

Record PutRequest := mkPutRequest { Item : DBMap }.
Record DeleteRequest := mkDeleteRequest { Key : DBMap }.

(** [dynamodb.WriteRequest]: each member is a pointer. *)
Record WriteRequest := mkWriteRequest {
  WR_PutRequest : option PutRequest;
  WR_DeleteRequest : option DeleteRequest
}.

Record BatchWriteItemInput := mkBatchWriteItemInput {
  BatchWrite_RequestItems : gmap string (list WriteRequest)
}.

Record BatchWriteItemOutput := mkBatchWriteItemOutput {
  UnprocessedItems : gmap string (list WriteRequest)
}.

(** ** Go values passed as [interface{}] *)

(** FromToDate which to be used in constructing the between operations for
    date *)
Record FromToDate := mkFromToDate { FromDate : N; ToDate : N }.

(** The dynamic values a caller hands to the wrapper.  [GoOther] stands for
    a value of any other type, given by what [dynamodbattribute.Marshal]
    makes of it ([None]: it returns an error). *)
Inductive GoValue :=
| GoString (s : string)
| GoInt (i : Z)
| GoUint64 (n : N)
| GoBool (b : bool)
| GoFromToDate (d : FromToDate)
| GoOther (marshalled : option AttributeValue).

(** [dynamodbattribute.Marshal]: a number becomes [N] with its decimal
    digits, an empty string becomes [NULL] (the encoder's default), a struct
    becomes [M]. *)
Definition dynamodbattribute_Marshal (v : GoValue) : result AttributeValue :=
  match v with
  | GoString s => if decide (s = "") then Ok AttrNULL else Ok (AttrS s)
  | GoInt i => Ok (AttrN (pretty i))
  | GoUint64 n => Ok (AttrN (pretty n))
  | GoBool b => Ok (AttrBOOL b)
  | GoFromToDate d =>
      Ok (AttrM [("FromDate", AttrN (pretty (FromDate d)));
                 ("ToDate", AttrN (pretty (ToDate d)))])
  | GoOther (Some av) => Ok av
  | GoOther None => Err (errorString "marshal error")
  end.

(** [dynamodbattribute.Unmarshal(av, &s)] for a string variable [s] that
    holds [""]: the text of an [S] member and the digits of an [N] member
    are stored; for every other value the variable keeps [""] (the error is
    discarded by the caller). *)
Definition dynamodbattribute_Unmarshal_string (av : option AttributeValue) : string :=
  match av with
  | Some (AttrS s) => s
  | Some (AttrN n) => n
  | _ => ""
  end.

(** ** The SDK's expression package

    [github.com/aws/aws-sdk-go/service/dynamodb/expression] is a dependency
    of the repository, not part of it.  The wrapper's behaviour rests on how
    this package stores and compiles what it is given, so the part the
    wrapper calls is modelled here, function by function, after the package's
    source: operand, condition, key-condition and update builders, the tree
    they build and the substitution of aliases for names and values. *)

Module expression.

Inductive OperandBuilder :=
| NameBuilder (name : string)
| ValueBuilder (value : GoValue)
| KeyBuilder (key : string).

Definition Name (name : string) : OperandBuilder := NameBuilder name.
Definition Value (value : GoValue) : OperandBuilder := ValueBuilder value.
Definition Key (key : string) : OperandBuilder := KeyBuilder key.

(** [exprNode]: the names and values to alias, the child nodes, and a
    template in which [$n], [$v] and [$c] stand for the next name, value
    and child. *)
#[warnings="-register-all"]
Inductive exprNode :=
| ExprNode (names : list string) (values : list AttributeValue)
           (children : list exprNode) (fmtExpr : string).

Definition leafNode (names : list string) (values : list AttributeValue)
  (fmtExpr : string) : exprNode := ExprNode names values [] fmtExpr.

(** [aliasList]: the names and values met so far; the alias of an entry is
    [#] or [:] followed by its position. *)
Record aliasList := mkAliasList {
  namesList : list string;
  valuesList : list AttributeValue
}.

Fixpoint index_of (nm : string) (l : list string) (ind : nat) : option nat :=
  match l with
  | [] => None
  | name :: l' => if decide (nm = name) then Some ind else index_of nm l' (S ind)
  end.

(** [aliasPath]: a name already in the list keeps its alias. *)
Definition aliasPath (al : aliasList) (nm : string) : string * aliasList :=
  match index_of nm (namesList al) 0 with
  | Some ind => ("#" +:+ pretty ind, al)
  | None =>
      ("#" +:+ pretty (length (namesList al)),
       mkAliasList (namesList al ++ [nm]) (valuesList al))
  end.

(** [aliasValue]: every value gets a new alias. *)
Definition aliasValue (al : aliasList) (dav : AttributeValue) : string * aliasList :=
  (":" +:+ pretty (length (valuesList al)),
   mkAliasList (namesList al) (valuesList al ++ [dav])).

(** A child node that has been given its formatter. *)
Definition formatter : Type := aliasList -> result (string * aliasList).

(** The loop of [buildExpressionString] over the template: every escape is
    replaced by the alias of the next name or value, or by the formatted
    next child; the scan resumes after the replacement.  The three indices
    of the Go loop only ever grow by one, so the lists of what is left to
    substitute stand for them. *)
Fixpoint substitute (fmtExpr : string) (names : list string)
  (values : list AttributeValue) (children : list formatter) (al : aliasList)
  : result (string * aliasList) :=
  match fmtExpr with
  | EmptyString => Ok (EmptyString, al)
  | String "$"%char EmptyString =>
      Err (errorString "buildexprNode error: invalid escape character")
  | String "$"%char (String c rest) =>
      if Ascii.eqb c "n"%char then
        match names with
        | [] => Err (errorString "substitutePath error: exprNode []names out of range")
        | nm :: names' =>
            let '(alias, al1) := aliasPath al nm in
            '(out, al2) ← substitute rest names' values children al1;
            Ok (alias +:+ out, al2)
        end
      else if Ascii.eqb c "v"%char then
        match values with
        | [] => Err (errorString "substituteValue error: exprNode []values out of range")
        | dav :: values' =>
            let '(alias, al1) := aliasValue al dav in
            '(out, al2) ← substitute rest names values' children al1;
            Ok (alias +:+ out, al2)
        end
      else if Ascii.eqb c "c"%char then
        match children with
        | [] => Err (errorString "substituteChild error: exprNode []children out of range")
        | child :: children' =>
            '(alias, al1) ← child al;
            '(out, al2) ← substitute rest names values children' al1;
            Ok (alias +:+ out, al2)
        end
      else Err (errorString "buildexprNode error: invalid escape rune")
  | String ch rest =>
      '(out, al1) ← substitute rest names values children al;
      Ok (String ch out, al1)
  end.

Fixpoint buildExpressionString (en : exprNode) : formatter :=
  match en with
  | ExprNode names values children fmtExpr =>
      substitute fmtExpr names values
        ((fix formatters (l : list exprNode) : list formatter :=
            match l with
            | [] => []
            | child :: l' => buildExpressionString child :: formatters l'
            end) children)
  end.

(** *** Operands *)

(** [strings.Split(s, ".")] *)
Fixpoint split_dot (s : string) : list string :=
  match s with
  | EmptyString => [EmptyString]
  | String c s' =>
      if Ascii.eqb c "."%char then EmptyString :: split_dot s'
      else match split_dot s' with
           | w :: ws => String c w :: ws
           | [] => [String c EmptyString]
           end
  end.

(** [strings.Join(l, ".")] *)
Fixpoint join_dot (l : list string) : string :=
  match l with
  | [] => EmptyString
  | [w] => w
  | w :: l' => w +:+ "." +:+ join_dot l'
  end.

Fixpoint last_byte (s : string) : option ascii :=
  match s with
  | EmptyString => None
  | String c EmptyString => Some c
  | String _ s' => last_byte s'
  end.

(** [word[:j]] and [word[j:]] at the first ['['], or [word] and [""]. *)
Fixpoint cut_at_bracket (word : string) : string * string :=
  match word with
  | EmptyString => (EmptyString, EmptyString)
  | String c word' =>
      if Ascii.eqb c "["%char then (EmptyString, word)
      else let '(w, substr) := cut_at_bracket word' in (String c w, substr)
  end.

(** The loop of [NameBuilder.BuildOperand] over the dot-separated words
    of a path: the words to alias and the template pieces. *)
Fixpoint name_words (nameSplit : list string) : result (list string * list string) :=
  match nameSplit with
  | [] => Ok ([], [])
  | word :: rest =>
      if decide (word = "") then
        Err (InvalidParameterError "BuildOperand" "NameBuilder")
      else
        let '(word', substr) :=
          if decide (last_byte word = Some "]"%char) then cut_at_bracket word
          else (word, EmptyString) in
        if decide (word' = "") then
          Err (InvalidParameterError "BuildOperand" "NameBuilder")
        else
          '(names, fmtNames) ← name_words rest;
          Ok (word' :: names, ("$n" +:+ substr) :: fmtNames)
  end.

Definition BuildOperand (ob : OperandBuilder) : result exprNode :=
  match ob with
  | NameBuilder name =>
      if decide (name = "") then
        Err (UnsetParameterError "BuildOperand" "NameBuilder")
      else
        '(names, fmtNames) ← name_words (split_dot name);
        Ok (leafNode names [] (join_dot fmtNames))
  | ValueBuilder value =>
      match dynamodbattribute_Marshal value with
      | Err _ => Err (InvalidParameterError "BuildOperand" "ValueBuilder")
      | Ok expr => Ok (leafNode [] [expr] "$v")
      end
  | KeyBuilder key =>
      if decide (key = "") then
        Err (UnsetParameterError "BuildOperand" "KeyBuilder")
      else Ok (leafNode [key] [] "$n")
  end.

Fixpoint buildOperands (operandList : list OperandBuilder) : result (list exprNode) :=
  match operandList with
  | [] => Ok []
  | ope :: rest =>
      operand ← BuildOperand ope;
      nodes ← buildOperands rest;
      Ok (operand :: nodes)
  end.

(** [strings.Repeat(s, count)]; a negative count panics in Go and does not
    arise here. *)
Fixpoint strings_Repeat (s : string) (count : nat) : string :=
  match count with
  | O => EmptyString
  | S count' => s +:+ strings_Repeat s count'
  end.

(** *** Conditions *)

Inductive conditionMode :=
| unsetCond
| equalCond
| lessThanCond
| lessThanEqualCond
| greaterThanCond
| greaterThanEqualCond
| andCond
| orCond
| betweenCond.

(** [ConditionBuilder]: operands of a comparison, or the conditions joined
    by AND or OR.  The zero value has no operand, no condition and the mode
    [unsetCond]. *)
#[warnings="-register-all"]
Inductive ConditionBuilder :=
| mkConditionBuilder (operandList : list OperandBuilder)
                     (conditionList : list ConditionBuilder)
                     (mode : conditionMode).

Definition ConditionBuilder_zero : ConditionBuilder := mkConditionBuilder [] [] unsetCond.

Definition Equal (left right : OperandBuilder) : ConditionBuilder :=
  mkConditionBuilder [left; right] [] equalCond.
Definition LessThan (left right : OperandBuilder) : ConditionBuilder :=
  mkConditionBuilder [left; right] [] lessThanCond.
Definition LessThanEqual (left right : OperandBuilder) : ConditionBuilder :=
  mkConditionBuilder [left; right] [] lessThanEqualCond.
Definition GreaterThan (left right : OperandBuilder) : ConditionBuilder :=
  mkConditionBuilder [left; right] [] greaterThanCond.
Definition GreaterThanEqual (left right : OperandBuilder) : ConditionBuilder :=
  mkConditionBuilder [left; right] [] greaterThanEqualCond.
Definition Between (op lower upper : OperandBuilder) : ConditionBuilder :=
  mkConditionBuilder [op; lower; upper] [] betweenCond.
Definition And (left right : ConditionBuilder) : ConditionBuilder :=
  mkConditionBuilder [] [left; right] andCond.
Definition Or (left right : ConditionBuilder) : ConditionBuilder :=
  mkConditionBuilder [] [left; right] orCond.

(** The template of a condition, by its mode; the children are the nodes of
    its conditions followed by those of its operands. *)
Definition condition_fmtExpr (mode : conditionMode) (conditions : nat)
  : result string :=
  match mode with
  | equalCond => Ok "$c = $c"
  | lessThanCond => Ok "$c < $c"
  | lessThanEqualCond => Ok "$c <= $c"
  | greaterThanCond => Ok "$c > $c"
  | greaterThanEqualCond => Ok "$c >= $c"
  | andCond => Ok ("($c)" +:+ strings_Repeat " AND ($c)" (conditions - 1))
  | orCond => Ok ("($c)" +:+ strings_Repeat " OR ($c)" (conditions - 1))
  | betweenCond => Ok "$c BETWEEN $c AND $c"
  | unsetCond => Err (UnsetParameterError "buildTree" "ConditionBuilder")
  end.

Fixpoint ConditionBuilder_buildTree (cb : ConditionBuilder) : result exprNode :=
  match cb with
  | mkConditionBuilder operandList conditionList mode =>
      conditions ←
        (fix buildConditions (l : list ConditionBuilder) : result (list exprNode) :=
           match l with
           | [] => Ok []
           | condition :: l' =>
               node ← ConditionBuilder_buildTree condition;
               nodes ← buildConditions l';
               Ok (node :: nodes)
           end) conditionList;
      operands ← buildOperands operandList;
      fmtExpr ← condition_fmtExpr mode (length conditionList);
      Ok (ExprNode [] [] (conditions ++ operands) fmtExpr)
  end.

(** *** Key conditions *)

Inductive keyConditionMode :=
| unsetKeyCond
| invalidKeyCond
| equalKeyCond
| lessThanEqualKeyCond
| lessThanKeyCond
| greaterThanEqualKeyCond
| greaterThanKeyCond
| andKeyCond.

#[global] Instance keyConditionMode_eq_dec : EqDecision keyConditionMode.
Proof. solve_decision. Defined.

#[warnings="-register-all"]
Inductive KeyConditionBuilder :=
| mkKeyConditionBuilder (operandList : list OperandBuilder)
                        (keyConditionList : list KeyConditionBuilder)
                        (mode : keyConditionMode).

Definition KeyConditionBuilder_zero : KeyConditionBuilder :=
  mkKeyConditionBuilder [] [] unsetKeyCond.

Definition KeyConditionBuilder_mode (kcb : KeyConditionBuilder) : keyConditionMode :=
  match kcb with mkKeyConditionBuilder _ _ mode => mode end.

Definition KeyEqual (key right : OperandBuilder) : KeyConditionBuilder :=
  mkKeyConditionBuilder [key; right] [] equalKeyCond.
Definition KeyLessThan (key right : OperandBuilder) : KeyConditionBuilder :=
  mkKeyConditionBuilder [key; right] [] lessThanKeyCond.
Definition KeyLessThanEqual (key right : OperandBuilder) : KeyConditionBuilder :=
  mkKeyConditionBuilder [key; right] [] lessThanEqualKeyCond.
Definition KeyGreaterThan (key right : OperandBuilder) : KeyConditionBuilder :=
  mkKeyConditionBuilder [key; right] [] greaterThanKeyCond.
Definition KeyGreaterThanEqual (key right : OperandBuilder) : KeyConditionBuilder :=
  mkKeyConditionBuilder [key; right] [] greaterThanEqualKeyCond.

(** [KeyAnd]: the left side must be an equality and the right side must not
    itself be a conjunction, else the result is marked invalid. *)
Definition KeyAnd (left right : KeyConditionBuilder) : KeyConditionBuilder :=
  if negb (bool_decide (KeyConditionBuilder_mode left = equalKeyCond)) then
    mkKeyConditionBuilder [] [] invalidKeyCond
  else if bool_decide (KeyConditionBuilder_mode right = andKeyCond) then
    mkKeyConditionBuilder [] [] invalidKeyCond
  else mkKeyConditionBuilder [] [left; right] andKeyCond.

Definition keyCondition_fmtExpr (mode : keyConditionMode) (conditions : nat)
  : result string :=
  match mode with
  | equalKeyCond => Ok "$c = $c"
  | lessThanKeyCond => Ok "$c < $c"
  | lessThanEqualKeyCond => Ok "$c <= $c"
  | greaterThanKeyCond => Ok "$c > $c"
  | greaterThanEqualKeyCond => Ok "$c >= $c"
  | andKeyCond =>
      if decide (conditions = 0%nat) then
        Err (InvalidParameterError "andBuildKeyCondition" "KeyConditionBuilder")
      else Ok "($c) AND ($c)"
  | unsetKeyCond => Err (UnsetParameterError "buildTree" "KeyConditionBuilder")
  | invalidKeyCond =>
      Err (errorString "buildKeyCondition error: invalid key condition constructed")
  end.

Fixpoint KeyConditionBuilder_buildTree (kcb : KeyConditionBuilder) : result exprNode :=
  match kcb with
  | mkKeyConditionBuilder operandList keyConditionList mode =>
      conditions ←
        (fix buildConditions (l : list KeyConditionBuilder) : result (list exprNode) :=
           match l with
           | [] => Ok []
           | keyCondition :: l' =>
               node ← KeyConditionBuilder_buildTree keyCondition;
               nodes ← buildConditions l';
               Ok (node :: nodes)
           end) keyConditionList;
      operands ← buildOperands operandList;
      fmtExpr ← keyCondition_fmtExpr mode (length keyConditionList);
      Ok (ExprNode [] [] (conditions ++ operands) fmtExpr)
  end.

(** *** Updates *)

(** [operationBuilder]: one action of an update; [mode] is the operation
    keyword ([operationMode] is a string type). *)
Record operationBuilder := mkOperationBuilder {
  op_name : string;
  op_value : OperandBuilder;
  op_mode : string
}.

Definition setOperation : string := "SET".
Definition removeOperation : string := "REMOVE".
Definition addOperation : string := "ADD".
Definition deleteOperation : string := "DELETE".

(** The maps [map[operationMode][]operationBuilder] that have been
    allocated.  A Go map is a reference: copying an [UpdateBuilder] copies
    the reference, and a write through one copy is seen through the other. *)
Abbreviation store := (list (gmap string (list operationBuilder))).

(** [UpdateBuilder]: its one member is a map, nil in the zero value. *)
Record UpdateBuilder := mkUpdateBuilder { operationList : option nat }.

Definition UpdateBuilder_zero : UpdateBuilder := mkUpdateBuilder None.

(** The method [Set] (value receiver): allocates the map when it is nil,
    appends the action to the map's SET entry and returns the receiver's
    copy. *)
Definition UpdateBuilder_Set (ub : UpdateBuilder) (name : string)
  (operandBuilder : OperandBuilder) (st : store) : UpdateBuilder * store :=
  let '(ref, st1) :=
    match operationList ub with
    | None => (length st, st ++ [∅])
    | Some ref => (ref, st)
    end in
  let m := default ∅ (st1 !! ref) in
  let m' := <[setOperation :=
               default [] (m !! setOperation)
                 ++ [mkOperationBuilder name operandBuilder setOperation]]> m in
  (mkUpdateBuilder (Some ref), <[ref := m']> st1).

(** The function [Set]: the method on an empty builder. *)
Definition Set_ (name : string) (operandBuilder : OperandBuilder) (st : store)
  : UpdateBuilder * store :=
  UpdateBuilder_Set UpdateBuilder_zero name operandBuilder st.

Definition buildOperation (ob : operationBuilder) : result exprNode :=
  pathChild ← BuildOperand (NameBuilder (op_name ob));
  if decide (op_mode ob = removeOperation) then
    Ok (ExprNode [] [] [pathChild] "$c")
  else
    valueChild ← BuildOperand (op_value ob);
    if decide (op_mode ob = setOperation) then
      Ok (ExprNode [] [] [pathChild; valueChild] "$c = $c")
    else if decide (op_mode ob = addOperation \/ op_mode ob = deleteOperation) then
      Ok (ExprNode [] [] [pathChild; valueChild] "$c $c")
    else Err (errorString "build update error: build operation error: unsupported mode").

Fixpoint buildOperations (l : list operationBuilder) : result (list exprNode) :=
  match l with
  | [] => Ok []
  | val :: l' =>
      valNode ← buildOperation val;
      nodes ← buildOperations l';
      Ok (valNode :: nodes)
  end.

(** [buildChildNodes] of update.go: the actions of one operation mode. *)
Definition buildChildNodes (operationBuilderList : list operationBuilder)
  : result exprNode :=
  if decide (length operationBuilderList = 0%nat) then
    Err (errorString "buildChildNodes error: operationBuilder list is empty")
  else
    nodes ← buildOperations operationBuilderList;
    Ok (ExprNode [] [] nodes
          ("$c" +:+ strings_Repeat ", $c" (length operationBuilderList - 1))).

(** The operation modes in the order [sort.Sort] gives them. *)
Definition sorted_modes : list string :=
  [addOperation; deleteOperation; removeOperation; setOperation].

(** The loop of [UpdateBuilder.buildTree] over the modes present in the
    map, in sorted order. *)
Fixpoint buildModes (modes : list string) (m : gmap string (list operationBuilder))
  (ret : string * list exprNode) : result (string * list exprNode) :=
  match modes with
  | [] => Ok ret
  | key :: modes' =>
      match m !! key with
      | None => buildModes modes' m ret
      | Some operationBuilderList =>
          childNode ← buildChildNodes operationBuilderList;
          buildModes modes' m (ret.1 +:+ key +:+ " $c" +:+ String "010"%char "",
                               ret.2 ++ [childNode])
      end
  end.

Definition UpdateBuilder_buildTree (ub : UpdateBuilder) (st : store) : result exprNode :=
  match operationList ub with
  | None => Err (UnsetParameterError "buildTree" "UpdateBuilder")
  | Some ref =>
      '(fmtExpr, children) ← buildModes sorted_modes (default ∅ (st !! ref)) ("", []);
      Ok (ExprNode [] [] children fmtExpr)
  end.

(** *** Builder and Expression *)

(** What a [Builder] can hold for an expression type. *)
Inductive treeBuilder :=
| ConditionTree (cb : ConditionBuilder)
| KeyConditionTree (kcb : KeyConditionBuilder)
| UpdateTree (ub : UpdateBuilder).

Definition buildTree (tb : treeBuilder) (st : store) : result exprNode :=
  match tb with
  | ConditionTree cb => ConditionBuilder_buildTree cb
  | KeyConditionTree kcb => KeyConditionBuilder_buildTree kcb
  | UpdateTree ub => UpdateBuilder_buildTree ub st
  end.

(** The expression types ([expressionType] is a string type). *)
Definition condition : string := "condition".
Definition filter : string := "filter".
Definition keyCondition : string := "keyCondition".
Definition update : string := "update".

(** The expression types in the order [sort.Sort] gives them. *)
Definition sorted_types : list string := [condition; filter; keyCondition; update].

(** [Builder]: [expressionMap map[expressionType]treeBuilder].  Every
    [With...] method allocates the map when it is nil, so a map is nil
    exactly when it has no entry. *)
Record Builder := mkBuilder { expressionMap : gmap string treeBuilder }.

Definition NewBuilder : Builder := mkBuilder ∅.

Definition WithCondition (b : Builder) (conditionBuilder : ConditionBuilder) : Builder :=
  mkBuilder (<[condition := ConditionTree conditionBuilder]> (expressionMap b)).
Definition WithFilter (b : Builder) (filterBuilder : ConditionBuilder) : Builder :=
  mkBuilder (<[filter := ConditionTree filterBuilder]> (expressionMap b)).
Definition WithKeyCondition (b : Builder) (keyConditionBuilder : KeyConditionBuilder)
  : Builder :=
  mkBuilder (<[keyCondition := KeyConditionTree keyConditionBuilder]> (expressionMap b)).
Definition WithUpdate (b : Builder) (updateBuilder : UpdateBuilder) : Builder :=
  mkBuilder (<[update := UpdateTree updateBuilder]> (expressionMap b)).

(** [Expression]: the formatted expressions by type and the two alias
    maps; all three are nil in the zero value. *)
Record Expression := mkExpression {
  formatted : option (gmap string string);
  namesMap : option (gmap string string);
  valuesMap : option (gmap string AttributeValue)
}.

Definition Expression_zero : Expression := mkExpression None None None.

(** The loop of [buildChildTrees] over the expression types present in the
    builder, in sorted order. *)
Fixpoint buildChildTrees (keys : list string) (m : gmap string treeBuilder)
  (st : store) (aList : aliasList) (formattedExpressions : gmap string string)
  : result (aliasList * gmap string string) :=
  match keys with
  | [] => Ok (aList, formattedExpressions)
  | key :: keys' =>
      match m !! key with
      | None => buildChildTrees keys' m st aList formattedExpressions
      | Some tb =>
          node ← buildTree tb st;
          '(formattedExpression, aList') ← buildExpressionString node aList;
          buildChildTrees keys' m st aList'
            (<[key := formattedExpression]> formattedExpressions)
      end
  end.

(** The alias maps of [Build]: entry [ind] of the list under [#ind] (or
    [:ind]). *)
Fixpoint alias_map {A : Type} (prefix : string) (l : list A) (ind : nat)
  : gmap string A :=
  match l with
  | [] => ∅
  | val :: l' => <[prefix +:+ pretty ind := val]> (alias_map prefix l' (S ind))
  end.

(** [Build]: on an error the zero [Expression] comes back with it. *)
Definition Build (b : Builder) (st : store) : Expression * option error :=
  if decide (expressionMap b = ∅) then
    (Expression_zero, Some (UnsetParameterError "Build" "Builder"))
  else
    match buildChildTrees sorted_types (expressionMap b) st (mkAliasList [] []) ∅ with
    | Err err => (Expression_zero, Some err)
    | Ok (aList, formattedExpressions) =>
        (mkExpression
           (Some formattedExpressions)
           (if decide (length (namesList aList) = 0%nat) then None
            else Some (alias_map "#" (namesList aList) 0))
           (if decide (length (valuesList aList) = 0%nat) then None
            else Some (alias_map ":" (valuesList aList) 0)),
         None)
    end.

Definition returnExpression (e : Expression) (expressionType : string) : option string :=
  match formatted e with
  | None => None
  | Some m => m !! expressionType
  end.

Definition Filter (e : Expression) : option string := returnExpression e filter.
Definition KeyCondition (e : Expression) : option string := returnExpression e keyCondition.
Definition Update (e : Expression) : option string := returnExpression e update.
Definition Names (e : Expression) : option (gmap string string) := namesMap e.
Definition Values (e : Expression) : option (gmap string AttributeValue) := valuesMap e.

End expression.

(** ** aws_expression.go *)

(** Operator DynamoDB operators for string and numbers: an [int] type whose
    named values are 1 to 6. *)
Definition Operator : Type := Z.
Definition EQUAL : Operator := 1.
Definition LT : Operator := 2.
Definition LE : Operator := 3.
Definition GT : Operator := 4.
Definition GE : Operator := 5.
Definition BETWEEN : Operator := 6.

(** AwsExpressionWrapper ... *)
Record AwsExpressionWrapper := mkAwsExpressionWrapper {
  updateExpression : expression.UpdateBuilder;
  conditionExpression : expression.ConditionBuilder;
  keyCondition : expression.KeyConditionBuilder;
  partitionKeyValue : option AttributeValue;
  sortKeyValue : option AttributeValue;
  exclusiveStartKey : DBMap;
  scanIndexForward : option bool;
  partitionKeyName : string;
  sortKeyName : string;
  dynamoDBTable : string;
  dynamoDBIndex : string;
  limit : option Z
}.

(** The requests the wrapper compiles to, with the members it sets. *)
Record UpdateItemInput := mkUpdateItemInput {
  Update_ExpressionAttributeNames : option (gmap string string);
  Update_ExpressionAttributeValues : option (gmap string AttributeValue);
  UpdateExpression : option string;
  Update_Key : DBMap;
  Update_TableName : option string
}.

Record ScanInput := mkScanInput {
  Scan_ExpressionAttributeNames : option (gmap string string);
  Scan_ExpressionAttributeValues : option (gmap string AttributeValue);
  FilterExpression : option string;
  Scan_TableName : option string;
  Scan_Limit : option Z;
  Scan_ExclusiveStartKey : DBMap
}.

(** [reflect.DeepEqual] against the zero value of the same type.  A map is
    deeply equal to a nil map only when it is nil; a builder made by the
    expression package never has the mode of the zero value. *)
Definition DeepEqual_UpdateBuilder_zero (ub : expression.UpdateBuilder) : bool :=
  match expression.operationList ub with
  | None => true
  | Some _ => false
  end.

Definition DeepEqual_ConditionBuilder_zero (cb : expression.ConditionBuilder) : bool :=
  match cb with
  | expression.mkConditionBuilder [] [] expression.unsetCond => true
  | _ => false
  end.

Definition DeepEqual_KeyConditionBuilder_zero (kcb : expression.KeyConditionBuilder) : bool :=
  match kcb with
  | expression.mkKeyConditionBuilder [] [] expression.unsetKeyCond => true
  | _ => false
  end.

(** [reflect.DeepEqual] of a [KeyConditionBuilder] and a [ConditionBuilder]:
    values of distinct types are never deeply equal. *)
Definition DeepEqual_KeyConditionBuilder_ConditionBuilder
  (kcb : expression.KeyConditionBuilder) (cb : expression.ConditionBuilder) : bool :=
  false.

(** NewExpressionWrapper creates new expression wrapper *)
Definition NewExpressionWrapper (tableName : string) : AwsExpressionWrapper :=
  {| updateExpression := expression.UpdateBuilder_zero;
     conditionExpression := expression.ConditionBuilder_zero;
     keyCondition := expression.KeyConditionBuilder_zero;
     partitionKeyValue := None;
     sortKeyValue := None;
     exclusiveStartKey := ∅;
     scanIndexForward := None;
     partitionKeyName := "";
     sortKeyName := "";
     dynamoDBTable := tableName;
     dynamoDBIndex := "";
     limit := None |}.

(** Assignments to one member of the wrapper. *)
Definition set_updateExpression (ub : expression.UpdateBuilder)
  (expr : AwsExpressionWrapper) : AwsExpressionWrapper :=
  mkAwsExpressionWrapper ub (conditionExpression expr) (keyCondition expr)
    (partitionKeyValue expr) (sortKeyValue expr) (exclusiveStartKey expr)
    (scanIndexForward expr) (partitionKeyName expr) (sortKeyName expr)
    (dynamoDBTable expr) (dynamoDBIndex expr) (limit expr).

Definition set_conditionExpression (cb : expression.ConditionBuilder)
  (expr : AwsExpressionWrapper) : AwsExpressionWrapper :=
  mkAwsExpressionWrapper (updateExpression expr) cb (keyCondition expr)
    (partitionKeyValue expr) (sortKeyValue expr) (exclusiveStartKey expr)
    (scanIndexForward expr) (partitionKeyName expr) (sortKeyName expr)
    (dynamoDBTable expr) (dynamoDBIndex expr) (limit expr).

Definition set_keyCondition (kcb : expression.KeyConditionBuilder)
  (expr : AwsExpressionWrapper) : AwsExpressionWrapper :=
  mkAwsExpressionWrapper (updateExpression expr) (conditionExpression expr) kcb
    (partitionKeyValue expr) (sortKeyValue expr) (exclusiveStartKey expr)
    (scanIndexForward expr) (partitionKeyName expr) (sortKeyName expr)
    (dynamoDBTable expr) (dynamoDBIndex expr) (limit expr).

Definition set_partitionKey (name : string) (value : option AttributeValue)
  (expr : AwsExpressionWrapper) : AwsExpressionWrapper :=
  mkAwsExpressionWrapper (updateExpression expr) (conditionExpression expr)
    (keyCondition expr) value (sortKeyValue expr) (exclusiveStartKey expr)
    (scanIndexForward expr) name (sortKeyName expr)
    (dynamoDBTable expr) (dynamoDBIndex expr) (limit expr).

Definition set_sortKey (name : string) (value : option AttributeValue)
  (expr : AwsExpressionWrapper) : AwsExpressionWrapper :=
  mkAwsExpressionWrapper (updateExpression expr) (conditionExpression expr)
    (keyCondition expr) (partitionKeyValue expr) value (exclusiveStartKey expr)
    (scanIndexForward expr) (partitionKeyName expr) name
    (dynamoDBTable expr) (dynamoDBIndex expr) (limit expr).

Definition set_limit (l : option Z) (expr : AwsExpressionWrapper)
  : AwsExpressionWrapper :=
  mkAwsExpressionWrapper (updateExpression expr) (conditionExpression expr)
    (keyCondition expr) (partitionKeyValue expr) (sortKeyValue expr)
    (exclusiveStartKey expr) (scanIndexForward expr) (partitionKeyName expr)
    (sortKeyName expr) (dynamoDBTable expr) (dynamoDBIndex expr) l.

Definition set_exclusiveStartKey (key : DBMap) (expr : AwsExpressionWrapper)
  : AwsExpressionWrapper :=
  mkAwsExpressionWrapper (updateExpression expr) (conditionExpression expr)
    (keyCondition expr) (partitionKeyValue expr) (sortKeyValue expr)
    key (scanIndexForward expr) (partitionKeyName expr)
    (sortKeyName expr) (dynamoDBTable expr) (dynamoDBIndex expr) (limit expr).

(** WithUpdateField sets update expression value for a specific field name.
    In the second branch the builder returned by [Set] is dropped: the
    wrapper keeps its own copy, which refers to the same map. *)
Definition WithUpdateField (name : string) (value : GoValue)
  (expr : AwsExpressionWrapper) (st : expression.store)
  : AwsExpressionWrapper * expression.store :=
  if DeepEqual_UpdateBuilder_zero (updateExpression expr) then
    let '(ub, st') := expression.Set_ name (expression.Value value) st in
    (set_updateExpression ub expr, st')
  else
    let '(_, st') :=
      expression.UpdateBuilder_Set (updateExpression expr) name
        (expression.Value value) st in
    (expr, st').

(** WithLimit sets the maximum number of items to evaluate *)
Definition WithLimit (limit : Z) (expr : AwsExpressionWrapper) : AwsExpressionWrapper :=
  set_limit (Some limit) expr.

(** createCondition creates the condition builder *)
Definition createCondition (name : string) (value : GoValue) (operator : Operator)
  : expression.ConditionBuilder :=
  match value with
  | GoFromToDate obj =>
      if decide (operator = BETWEEN) then
        expression.Between (expression.Name name)
          (expression.Value (GoUint64 (FromDate obj)))
          (expression.Value (GoUint64 (ToDate obj)))
      else
        expression.GreaterThanEqual (expression.Name name)
          (expression.Value (GoUint64 (FromDate obj)))
  | _ =>
      if decide (operator = EQUAL) then
        expression.Equal (expression.Name name) (expression.Value value)
      else if decide (operator = LT) then
        expression.LessThan (expression.Name name) (expression.Value value)
      else if decide (operator = LE) then
        expression.LessThanEqual (expression.Name name) (expression.Value value)
      else if decide (operator = GT) then
        expression.GreaterThan (expression.Name name) (expression.Value value)
      else if decide (operator = GE) then
        expression.GreaterThanEqual (expression.Name name) (expression.Value value)
      else expression.Equal (expression.Name name) (expression.Value value)
  end.

(** createKeyCondition creates the condition builder *)
Definition createKeyCondition (name : string) (value : GoValue) (operator : Operator)
  : expression.KeyConditionBuilder :=
  if decide (operator = EQUAL) then
    expression.KeyEqual (expression.Key name) (expression.Value value)
  else if decide (operator = LT) then
    expression.KeyLessThan (expression.Key name) (expression.Value value)
  else if decide (operator = LE) then
    expression.KeyLessThanEqual (expression.Key name) (expression.Value value)
  else if decide (operator = GT) then
    expression.KeyGreaterThan (expression.Key name) (expression.Value value)
  else if decide (operator = GE) then
    expression.KeyGreaterThanEqual (expression.Key name) (expression.Value value)
  else expression.KeyEqual (expression.Key name) (expression.Value value).

(** WithCondition sets the initial condition *)
Definition WithCondition (name : string) (value : GoValue) (operator : Operator)
  (expr : AwsExpressionWrapper) : AwsExpressionWrapper :=
  set_conditionExpression (createCondition name value operator) expr.

(** AndCondition adds to the initial condition an AND condition if exists or
    create new condition *)
Definition AndCondition (name : string) (value : GoValue) (operator : Operator)
  (expr : AwsExpressionWrapper) : AwsExpressionWrapper :=
  if DeepEqual_ConditionBuilder_zero (conditionExpression expr) then
    WithCondition name value operator expr
  else
    let condition := createCondition name value operator in
    let newConditionExpr := expression.And (conditionExpression expr) condition in
    set_conditionExpression newConditionExpr expr.

(** OrCondition adds to the initial condition an OR condition if exists or
    create new condition *)
Definition OrCondition (name : string) (value : GoValue) (operator : Operator)
  (expr : AwsExpressionWrapper) : AwsExpressionWrapper :=
  if DeepEqual_ConditionBuilder_zero (conditionExpression expr) then
    WithCondition name value operator expr
  else
    let condition := createCondition name value operator in
    let newConditionExpr := expression.Or (conditionExpression expr) condition in
    set_conditionExpression newConditionExpr expr.

(** WithKeyCondition sets the initial key condition *)
Definition WithKeyCondition (name : string) (value : GoValue) (operator : Operator)
  (expr : AwsExpressionWrapper) : AwsExpressionWrapper :=
  set_keyCondition (createKeyCondition name value operator) expr.

(** AndKeyCondition adds to the initial condition an AND condition if exists
    or create composite condition with and *)
Definition AndKeyCondition (name : string) (value : GoValue) (operator : Operator)
  (expr : AwsExpressionWrapper) : AwsExpressionWrapper :=
  if DeepEqual_KeyConditionBuilder_zero (keyCondition expr) then
    WithKeyCondition name value operator expr
  else
    let cond1 := keyCondition expr in
    let cond2 := createKeyCondition name value operator in
    set_keyCondition (expression.KeyAnd cond1 cond2) expr.

(** WithPartitionKey adds partition key *)
Definition WithPartitionKey (pKey pValue : string) (expr : AwsExpressionWrapper)
  : AwsExpressionWrapper :=
  set_partitionKey pKey
    (if decide (0 < String.length pValue)%nat then Some (AttrS pValue)
     else partitionKeyValue expr) expr.

(** WithSortingKey adds sorting key if available *)
Definition WithSortingKey (sKey sValue : string) (expr : AwsExpressionWrapper)
  : AwsExpressionWrapper :=
  set_sortKey sKey
    (if decide (0 < String.length sValue)%nat then Some (AttrS sValue)
     else sortKeyValue expr) expr.

(** WithExlusiveStartingKey to return Starting key of next page, key will be
    in form of structure *)
Definition WithExlusiveStartingKey (lastEvaluatedKey : DBMap)
  (expr : AwsExpressionWrapper) : AwsExpressionWrapper :=
  set_exclusiveStartKey lastEvaluatedKey expr.

(** CreateQueryKeys creates a query keys *)
Definition CreateQueryKeys (expr : AwsExpressionWrapper) : DBMap * option error :=
  if decide ((String.length (partitionKeyName expr) < 1)%nat \/ partitionKeyValue expr = None)
  then (∅, Some (errorString "missing partition key"))
  else
    let attributeValues : DBMap :=
      {[ partitionKeyName expr := partitionKeyValue expr ]} in
    let attributeValues :=
      if decide (0 < String.length (sortKeyName expr))%nat
      then <[sortKeyName expr := sortKeyValue expr]> attributeValues
      else attributeValues in
    (attributeValues, None).

(** BuildUpdateInput build the update input out of the update expression *)
Definition BuildUpdateInput (expr : AwsExpressionWrapper) (st : expression.store)
  : option UpdateItemInput * option error :=
  if DeepEqual_UpdateBuilder_zero (updateExpression expr) then
    (None, Some (errorString
       "their is nothing set to be updated, please use WithUpdateField"))
  else
    match CreateQueryKeys expr with
    | (_, Some keyErr) => (None, Some keyErr)
    | (keys, None) =>
        let builder := expression.WithUpdate expression.NewBuilder (updateExpression expr) in
        let '(awsExpressionBuilder, err) := expression.Build builder st in
        (Some {| Update_ExpressionAttributeNames := expression.Names awsExpressionBuilder;
                 Update_ExpressionAttributeValues := expression.Values awsExpressionBuilder;
                 UpdateExpression := expression.Update awsExpressionBuilder;
                 Update_Key := keys;
                 Update_TableName := Some (dynamoDBTable expr) |}, err)
    end.

(** The two members [BuildScanInput] sets after the expressions. *)
Definition scan_pagination (expr : AwsExpressionWrapper) (input : ScanInput) : ScanInput :=
  let input :=
    match limit expr with
    | Some l =>
        if decide (l >= 1) then
          mkScanInput (Scan_ExpressionAttributeNames input)
            (Scan_ExpressionAttributeValues input) (FilterExpression input)
            (Scan_TableName input) (limit expr) (Scan_ExclusiveStartKey input)
        else input
    | None => input
    end in
  if decide (0 < size (exclusiveStartKey expr))%nat then
    mkScanInput (Scan_ExpressionAttributeNames input)
      (Scan_ExpressionAttributeValues input) (FilterExpression input)
      (Scan_TableName input) (Scan_Limit input) (exclusiveStartKey expr)
  else input.

(** BuildScanInput create scan query expression.  Both calls of [Build]
    drop the error.  The second test compares the key condition with the
    zero value of another type. *)
Definition BuildScanInput (expr : AwsExpressionWrapper) (st : expression.store)
  : option ScanInput * option error :=
  if decide (String.length (dynamoDBTable expr) = 0%nat) then
    (None, Some (errorString "missing table-name"))
  else
    let input := mkScanInput None None None (Some (dynamoDBTable expr)) None ∅ in
    let builder := expression.NewBuilder in
    let '(builder, input) :=
      if negb (DeepEqual_ConditionBuilder_zero (conditionExpression expr)) then
        let builder := expression.WithFilter builder (conditionExpression expr) in
        let '(awsExpressionBuilder, _) := expression.Build builder st in
        (builder,
         mkScanInput (expression.Names awsExpressionBuilder)
           (expression.Values awsExpressionBuilder)
           (expression.Filter awsExpressionBuilder)
           (Some (dynamoDBTable expr)) None ∅)
      else (builder, input) in
    let '(builder, input) :=
      if negb (DeepEqual_KeyConditionBuilder_ConditionBuilder
                 (keyCondition expr) expression.ConditionBuilder_zero) then
        let builder := expression.WithKeyCondition builder (keyCondition expr) in
        let '(awsExpressionBuilder, _) := expression.Build builder st in
        (builder,
         mkScanInput (expression.Names awsExpressionBuilder)
           (expression.Values awsExpressionBuilder)
           (expression.KeyCondition awsExpressionBuilder)
           (Some (dynamoDBTable expr)) None ∅)
      else (builder, input) in
    (Some (scan_pagination expr input), None).

(** ** Configuration, keys and the record contract *)

(** DBPSKeyNames hold the attribute name(s) for a table or a table index' s
    partition and sort keys *)
Record DBPSKeyNames := mkDBPSKeyNames {
  PartitionKey : string;
  SortKey : option string
}.

(** DBTableInfo holds the TableName, Partition key and sorting key if
    available *)
Record DBTableInfo := mkDBTableInfo {
  TableName : string;
  TableKeys : DBPSKeyNames
}.

(** DBConfig define the database config type *)
Record DBConfig := mkDBConfig {
  TableInfo : DBTableInfo;
  Indexes : gmap string DBPSKeyNames
}.

(** DBPSKeyValues holds the partition and the sort keys *)
Record dbPSKeyValues := mkDbPSKeyValues {
  partitionKey : string;
  sortKey : option string
}.

Definition NewDbPSKeyValues (partitionKey : string) (sortKey : option string)
  : dbPSKeyValues := mkDbPSKeyValues partitionKey sortKey.
Definition GetPartitionKey (d : dbPSKeyValues) : string := partitionKey d.
Definition GetSortKey (d : dbPSKeyValues) : option string := sortKey d.

(** BaseModel define the operations for serialising and deserializing from
    and to dynamodb type.  [M] is the type of the records; a successful
    [Marshal] returns an allocated map. *)
Class BaseModel (M : Type) := {
  GetModelType : M -> string;
  Marshal : M -> result DBMap;
  Unmarshal : M -> DBMap -> result M;
  GetPartSortKey : M -> option string -> dbPSKeyValues
}.

(** baseModelsWithErr .. *)
Record baseModelsWithErr (M : Type) := mkBaseModelsWithErr {
  Records : list M;
  MsgErr : option error
}.
Arguments mkBaseModelsWithErr {M} Records MsgErr.
Arguments Records {M} b.
Arguments MsgErr {M} b.

(** [handlerImp]: the configuration and the embedded client, of which the
    two batch calls are used here.  A call returns the output pointer and
    the error. *)
Record handlerImp := mkHandlerImp {
  config : DBConfig;
  BatchGetItemWithContext :
    BatchGetItemInput -> option BatchGetItemOutput * option error;
  BatchWriteItemWithContext :
    BatchWriteItemInput -> option BatchWriteItemOutput * option error
}.

(** ** Effects *)

(** What a run leaves behind: the batch calls issued, in order, and the
    number of identifiers drawn from [uuid.New], whose successive values are
    [uuid_New 0], [uuid_New 1], ... *)
Record world := mkWorld {
  batch_gets : list BatchGetItemInput;
  batch_writes : list BatchWriteItemInput;
  uuid_New : nat -> string;
  uuids_drawn : nat
}.

Definition log_batch_gets (reqs : list BatchGetItemInput) (w : world) : world :=
  mkWorld (batch_gets w ++ reqs) (batch_writes w) (uuid_New w) (uuids_drawn w).
Definition log_batch_write (req : BatchWriteItemInput) (w : world) : world :=
  mkWorld (batch_gets w) (batch_writes w ++ [req]) (uuid_New w) (uuids_drawn w).
Definition draw_uuid (w : world) : string * world :=
  (uuid_New w (uuids_drawn w),
   mkWorld (batch_gets w) (batch_writes w) (uuid_New w) (S (uuids_drawn w))).

(** A call either returns or panics. *)
Inductive outcome (A : Type) :=
| Returns (a : A)
| Panics (msg : string).
Arguments Returns {A} a.
Arguments Panics {A} msg.

(** [m[k]] on a map of pointers: nil when the key is absent. *)
Definition map_index (m : DBMap) (k : string) : option AttributeValue :=
  default None (m !! k).

(** [s[low:high]]: panics unless [0 <= low <= high <= len(s)] (the slices
    sliced here have no spare capacity). *)
Definition go_slice {A : Type} (s : list A) (low high : Z) : option (list A) :=
  if decide (0 <= low /\ low <= high /\ high <= Z.of_nat (length s))
  then Some (take (Z.to_nat (high - low)) (drop (Z.to_nat low) s))
  else None.

(** ** query.go *)

Section Query.

Context {M : Type} `{BaseModel M}.

(** The loop of [buildGetRequests] over the ids. *)
Fixpoint buildGetRequests_loop (h : handlerImp) (ids : list dbPSKeyValues)
  (attributes : list DBMap) : list DBMap :=
  match ids with
  | [] => attributes
  | id :: ids' =>
      let dbKeys := TableKeys (TableInfo (config h)) in
      let expr :=
        WithPartitionKey (PartitionKey dbKeys) (GetPartitionKey id)
          (NewExpressionWrapper (TableName (TableInfo (config h)))) in
      let expr :=
        match SortKey dbKeys, GetSortKey id with
        | Some sKey, Some sValue => WithSortingKey sKey sValue expr
        | _, _ => expr
        end in
      match CreateQueryKeys expr with
      | (_, Some _) =>
          (* ignore wrong Ids *)
          buildGetRequests_loop h ids' attributes
      | (attribute, None) => buildGetRequests_loop h ids' (attributes ++ [attribute])
      end
  end.

(** buildGetRequests takes a list of ids and prepare list of
    BatchGetItemInput.  The result is a pointer to a fresh struct: it is
    never nil. *)
Definition buildGetRequests (h : handlerImp) (ids : list dbPSKeyValues)
  : BatchGetItemInput :=
  let tabInfo := TableInfo (config h) in
  let attributes := buildGetRequests_loop h ids [] in
  mkBatchGetItemInput {[ TableName tabInfo := mkKeysAndAttributes attributes ]}.

(** The closure [acc] of [loadPage]: deserialize received output into
    [records]. *)
Fixpoint acc (model : M) (items : list DBMap) (records : list M)
  : list M * option error :=
  match items with
  | [] => (records, None)
  | item :: items' =>
      match Unmarshal model item with
      | Err err => (records, Some err)
      | Ok mdl => acc model items' (records ++ [mdl])
      end
  end.

(** The closure [load] of [loadPage], which calls itself on the
    unprocessed keys.  [fuel] bounds the depth of these calls; [None] means
    it did not suffice.  The result is the value of [records] and the error
    returned, with the batch-get calls issued, in order. *)
Fixpoint load (fuel : nat) (h : handlerImp) (model : M)
  (req : option BatchGetItemInput) (records : list M)
  : option (outcome (list M * option error) * list BatchGetItemInput) :=
  match fuel with
  | O => None
  | S fuel' =>
      let '(res, err, calls) :=
        match req with
        | Some r =>
            let '(res, err) := BatchGetItemWithContext h r in
            (res, err, [r])
        | None => (None, None, [])
        end in
      match err with
      | Some e => Some (Returns (records, Some e), calls)
      | None =>
          let '(records, accErr) :=
            match res with
            | Some r =>
                if decide (0 < size (Responses r))%nat then
                  acc model
                    (default [] (Responses r !! TableName (TableInfo (config h))))
                    records
                else (records, None)
            | None => (records, None)
            end in
          match accErr with
          | Some e => Some (Returns (records, Some e), calls)
          | None =>
              match res with
              | None => Some (Panics "nil pointer dereference", calls)
              | Some r =>
                  if decide (0 < size (UnprocessedKeys r))%nat then
                    match load fuel' h model
                            (Some (mkBatchGetItemInput (UnprocessedKeys r))) records with
                    | None => None
                    | Some (o, calls') => Some (o, calls ++ calls')
                    end
                  else Some (Returns (records, None), calls)
              end
          end
      end
  end.

(** [loadPage] up to its last statement: the message it is about to send
    on [ch], and the batch-get calls it issued. *)
Definition loadPage (fuel : nat) (h : handlerImp) (model : M)
  (req : option BatchGetItemInput)
  : option (outcome (baseModelsWithErr M) * list BatchGetItemInput) :=
  match load fuel h model req [] with
  | None => None
  | Some (Panics msg, calls) => Some (Panics msg, calls)
  | Some (Returns (records, err), calls) =>
      Some (Returns (mkBaseModelsWithErr records err), calls)
  end.

(** The body of the goroutine [GetByIDs] starts for a page, up to its
    send. *)
Definition page_task (fuel : nat) (h : handlerImp) (input : M)
  (dbKeys : list dbPSKeyValues) (page : IdxRange)
  : option (outcome (baseModelsWithErr M) * list BatchGetItemInput) :=
  match go_slice dbKeys (Low page) (High page) with
  | None => Some (Panics "slice bounds out of range", [])
  | Some ids => loadPage fuel h input (Some (buildGetRequests h ids))
  end.

(** A goroutine of [GetByIDs]: started for a page, blocked on its send, or
    finished. *)
Inductive goroutine :=
| Dispatched (page : IdxRange)
| Sending (msg : baseModelsWithErr M)
| Exited.

(** The caller of [GetByIDs]: in its receive loop with the records gathered
    so far, or returned. *)
Inductive caller :=
| Receiving (records : list M)
| Returned (records : option (list M)) (err : option error).

Record state := mkState {
  goroutines : list goroutine;
  main : caller;
  env : world;
  crashed : bool
}.

(** One turn of the receive loop, for a received value [res] and the
    second result [done] of the receive, which Go sets to [true] when the
    value was sent on the channel and to [false] when the channel is closed
    and empty. *)
Definition receive (records : list M) (res : baseModelsWithErr M) (done : bool)
  : caller :=
  match MsgErr res with
  | Some err => Returned None (Some err)
  | None =>
      let records := records ++ Records res in
      if done then Returned (Some records) None
      else Receiving records
  end.

(** [GetByIDs] after its first loop: one goroutine per page of
    [Partition(len(dbKeys), 25)], none of them run yet, and the caller about
    to receive.  The channel [ch] is made with capacity [len(pages)], the
    number of values buffered in the unbuffered channel [pages], which is
    0: [ch] is unbuffered, and nothing closes it. *)
Definition GetByIDs_start (dbKeys : list dbPSKeyValues) (w : world) : state :=
  mkState (map Dispatched (Partition (Z.of_nat (length dbKeys)) 25))
          (Receiving []) w false.

(** The steps of a run of [GetByIDs h input dbKeys].
    - A started goroutine runs up to its send (its batch calls are added to
      the log), or panics, which ends the program.
    - The caller receives from a goroutine blocked on its send: on an
      unbuffered channel the two meet, and the receive reports [true].
    Goroutines keep running after the caller has returned. *)
Inductive step (h : handlerImp) (input : M) (dbKeys : list dbPSKeyValues)
  : state -> state -> Prop :=
| step_run gs i page fuel msg calls w c :
    gs !! i = Some (Dispatched page) ->
    page_task fuel h input dbKeys page = Some (Returns msg, calls) ->
    step h input dbKeys (mkState gs c w false)
                        (mkState (<[i := Sending msg]> gs) c (log_batch_gets calls w) false)
| step_panic gs i page fuel reason calls w c :
    gs !! i = Some (Dispatched page) ->
    page_task fuel h input dbKeys page = Some (Panics reason, calls) ->
    step h input dbKeys (mkState gs c w false)
                        (mkState gs c (log_batch_gets calls w) true)
| step_receive gs i msg records w :
    gs !! i = Some (Sending msg) ->
    step h input dbKeys (mkState gs (Receiving records) w false)
                        (mkState (<[i := Exited]> gs) (receive records msg true) w false).

(** [GetByIDs h input dbKeys] can reach the state [s]. *)
Definition GetByIDs_reaches (h : handlerImp) (input : M)
  (dbKeys : list dbPSKeyValues) (w : world) (s : state) : Prop :=
  rtc (step h input dbKeys) (GetByIDs_start dbKeys w) s.

(** [GetByIDs h input dbKeys] can return [(records, err)], the batch-get
    calls issued up to that moment being [calls]: a reachable state in which
    the caller is still receiving has a step after which it has returned. *)
Definition GetByIDs_returns (h : handlerImp) (input : M)
  (dbKeys : list dbPSKeyValues) (w : world)
  (records : option (list M)) (err : option error)
  (calls : list BatchGetItemInput) : Prop :=
  exists s s' gathered,
    GetByIDs_reaches h input dbKeys w s /\
    main s = Receiving gathered /\
    step h input dbKeys s s' /\
    main s' = Returned records err /\
    batch_gets (env s') = calls.

End Query.

(** ** command.go *)

Section Command.

Context {M : Type} `{BaseModel M}.

(** [createPutItem]: the item to put and the keys it carries, or the
    error. *)
Definition createPutItem (h : handlerImp) (rec : M)
  (createPartKey createSortKey : bool) (w : world)
  : result (DBMap * dbPSKeyValues) * world :=
  (* marshaling the input *)
  match Marshal rec with
  | Err err => (Err err, w)
  | Ok item =>
      let tabInfo := TableInfo (config h) in
      let partitionKey := GetPartitionKey (GetPartSortKey rec None) in
      let sortKey := GetSortKey (GetPartSortKey rec None) in
      if bool_decide (partitionKey = "") && negb createPartKey then
        (Err (errorString "missing required partition key"), w)
      else
        let '(partitionKey, w) :=
          if decide (partitionKey = "") then draw_uuid w else (partitionKey, w) in
        (* defining the partition and sort keys *)
        let item : DBMap :=
          <[PartitionKey (TableKeys tabInfo) := Some (AttrS partitionKey)]> item in
        match SortKey (TableKeys tabInfo) with
        | None => (Ok (item, mkDbPSKeyValues partitionKey sortKey), w)
        | Some sortKeyName =>
            match sortKey with
            | None =>
                if negb createSortKey then
                  (Err (errorString "missing required sorting key"), w)
                else
                  let '(key, w) := draw_uuid w in
                  (Ok (<[sortKeyName := Some (AttrS key)]> item,
                       mkDbPSKeyValues partitionKey (Some key)), w)
            | Some key =>
                (Ok (<[sortKeyName := Some (AttrS key)]> item,
                     mkDbPSKeyValues partitionKey (Some key)), w)
            end
        end
  end.

(** The first loop of [batchWrite], over [records[:max]]. *)
Fixpoint batchWrite_requests (h : handlerImp) (recs : list M)
  (createPartKey createSortKey : bool) (requests : list WriteRequest) (w : world)
  : result (list WriteRequest) * world :=
  match recs with
  | [] => (Ok requests, w)
  | rec :: recs' =>
      match createPutItem h rec createPartKey createSortKey w with
      | (Err err, w') => (Err err, w')
      | (Ok (item, _), w') =>
          batchWrite_requests h recs' createPartKey createSortKey
            (requests ++ [mkWriteRequest (Some (mkPutRequest item)) None]) w'
      end
  end.

(** The second loop of [batchWrite], over the unprocessed items of the
    response: [Returns (Err _)] stands for the early return with the
    error. *)
Fixpoint batchWrite_unprocessed (baseModel : M) (items : list WriteRequest)
  (unprocessedItems : list M) : outcome (result (list M)) :=
  match items with
  | [] => Returns (Ok unprocessedItems)
  | item :: items' =>
      match WR_PutRequest item with
      | None => Panics "nil pointer dereference"
      | Some put =>
          match Unmarshal baseModel (Item put) with
          | Err err => Returns (Err err)
          | Ok rec => batchWrite_unprocessed baseModel items' (unprocessedItems ++ [rec])
          end
      end
  end.

(** [batchWrite].  [int(math.Min(25, float64(len(records))))] is the
    smaller of 25 and the length: the conversion to [float64] is exact for
    every length up to 2^53, and a longer list has a minimum of 25 either
    way. *)
Definition batchWrite (h : handlerImp) (baseModel : M) (records : list M)
  (createPartKey createSortKey : bool) (w : world)
  : outcome (list M * option error) * world :=
  let max := Z.to_nat (Z.min 25 (Z.of_nat (length records))) in
  match batchWrite_requests h (take max records) createPartKey createSortKey [] w with
  | (Err err, w) => (Returns (records, Some err), w)
  | (Ok requests, w) =>
      let bInput :=
        mkBatchWriteItemInput {[ TableName (TableInfo (config h)) := requests ]} in
      let unprocessedItems := drop max records in
      let '(res, err) := BatchWriteItemWithContext h bInput in
      let w := log_batch_write bInput w in
      match err with
      | Some err => (Returns (records, Some err), w)
      | None =>
          match res with
          | None => (Panics "nil pointer dereference", w)
          | Some res =>
              match batchWrite_unprocessed baseModel
                      (default [] (UnprocessedItems res !! TableName (TableInfo (config h))))
                      unprocessedItems with
              | Panics msg => (Panics msg, w)
              | Returns (Err err) => (Returns (records, Some err), w)
              | Returns (Ok unprocessedItems) => (Returns (unprocessedItems, None), w)
              end
          end
      end
  end.

Definition BulkAddRecords (h : handlerImp) (baseModel : M) (createSortKey : bool)
  (records : list M) (w : world) : outcome (list M * option error) * world :=
  batchWrite h baseModel records true createSortKey w.

(** BulkUpdateRecords updates multiple DynamoDB records *)
Definition BulkUpdateRecords (h : handlerImp) (baseModel : M)
  (records : list M) (w : world) : outcome (list M * option error) * world :=
  batchWrite h baseModel records false false w.

End Command.

(** The first loop of [BulkDeleteRecords], over the keys: the delete
    requests, or the error of the early return. *)
Fixpoint BulkDeleteRecords_requests (h : handlerImp) (dbKeys : list dbPSKeyValues)
  (items : list WriteRequest) : result (list WriteRequest) :=
  match dbKeys with
  | [] => Ok items
  | key :: dbKeys' =>
      let tableKeys := TableKeys (TableInfo (config h)) in
      let expr :=
        WithPartitionKey (PartitionKey tableKeys) (GetPartitionKey key)
          (NewExpressionWrapper (TableName (TableInfo (config h)))) in
      match SortKey tableKeys, GetSortKey key with
      | Some _, None => Err (errorString "missing required sort key")
      | sKey, sValue =>
          let expr :=
            match sKey, sValue with
            | Some sKey, Some sValue => WithSortingKey sKey sValue expr
            | _, _ => expr
            end in
          match CreateQueryKeys expr with
          | (_, Some err) => Err err
          | (attribute, None) =>
              BulkDeleteRecords_requests h dbKeys'
                (items ++ [mkWriteRequest None (Some (mkDeleteRequest attribute))])
          end
      end
  end.

(** The second loop of [BulkDeleteRecords], over the unprocessed items of
    the response.  Each turn reads [item.DeleteRequest.Key] and
    dereferences [tabInfo.SortKey]. *)
Fixpoint BulkDeleteRecords_unprocessed (tabInfo : DBTableInfo)
  (items : list WriteRequest) (unprocessedItems : list dbPSKeyValues)
  : outcome (list dbPSKeyValues) :=
  match items with
  | [] => Returns unprocessedItems
  | item :: items' =>
      match WR_DeleteRequest item with
      | None => Panics "nil pointer dereference"
      | Some del =>
          let partKey :=
            dynamodbattribute_Unmarshal_string
              (map_index (Key del) (PartitionKey (TableKeys tabInfo))) in
          match SortKey (TableKeys tabInfo) with
          | None => Panics "nil pointer dereference"
          | Some sortKeyName =>
              let sortKey :=
                dynamodbattribute_Unmarshal_string (map_index (Key del) sortKeyName) in
              let dbKey :=
                mkDbPSKeyValues partKey
                  (if decide (sortKey = "") then None else Some sortKey) in
              BulkDeleteRecords_unprocessed tabInfo items' (unprocessedItems ++ [dbKey])
          end
      end
  end.

(** BulkDeleteRecords delete a bulk of dynamo records *)
Definition BulkDeleteRecords (h : handlerImp) (dbKeys : list dbPSKeyValues) (w : world)
  : outcome (list dbPSKeyValues * option error) * world :=
  let tabInfo := TableInfo (config h) in
  match BulkDeleteRecords_requests h dbKeys [] with
  | Err err => (Returns (dbKeys, Some err), w)
  | Ok items =>
      let input := mkBatchWriteItemInput {[ TableName tabInfo := items ]} in
      let '(out, err) := BatchWriteItemWithContext h input in
      let w := log_batch_write input w in
      match err with
      | Some err => (Returns (dbKeys, Some err), w)
      | None =>
          match out with
          | None => (Panics "nil pointer dereference", w)
          | Some out =>
              match BulkDeleteRecords_unprocessed tabInfo
                      (default [] (UnprocessedItems out !! TableName tabInfo)) [] with
              | Panics msg => (Panics msg, w)
              | Returns unprocessedItems => (Returns (unprocessedItems, None), w)
              end
          end
      end
  end.

(** ** Fixtures

    The configuration and the client doubles of the test suite, a record
    type in the manner of its [TestBaseModel], and a provider that holds an
    item for every key.  They are the concrete inputs of the examples
    below. *)

(** [cfg] of the tests: a table with both keys. *)
Definition cfg : DBConfig :=
  mkDBConfig (mkDBTableInfo "table" (mkDBPSKeyNames "partKey" (Some "sortKey"))) ∅.

(** The configuration of a table with a partition key only. *)
Definition cfg_partition_only : DBConfig :=
  mkDBConfig (mkDBTableInfo "table" (mkDBPSKeyNames "partKey" None)) ∅.

(** A record with a name, which is its partition key, and an optional sort
    key. *)
Record TestRecord := mkTestRecord {
  Name : string;
  SKey : string
}.

#[global] Instance TestRecord_eq_dec : EqDecision TestRecord.
Proof. solve_decision. Defined.

Definition string_attribute (s : string) : option AttributeValue :=
  if decide (s = "") then Some AttrNULL else Some (AttrS s).

#[global] Instance TestRecord_BaseModel : BaseModel TestRecord := {|
  GetModelType := fun _ => "TestRecord";
  Marshal := fun mdl =>
    Ok ({[ "Name" := string_attribute (Name mdl);
           "SKey" := string_attribute (SKey mdl) ]} : DBMap);
  Unmarshal := fun _ data =>
    let mdl :=
      mkTestRecord (dynamodbattribute_Unmarshal_string (map_index data "Name"))
                   (dynamodbattribute_Unmarshal_string (map_index data "SKey")) in
    if decide (mdl = mkTestRecord "" "") then Err (errorString "error marshaling")
    else Ok mdl;
  GetPartSortKey := fun mdl _ =>
    mkDbPSKeyValues (Name mdl) (if decide (SKey mdl = "") then None else Some (SKey mdl))
|}.

(** [MockedBatchWrite] of the tests. *)
Definition MockedBatchWrite (Resp : BatchWriteItemOutput) (Err : option error)
  : BatchWriteItemInput -> option BatchWriteItemOutput * option error :=
  fun _ =>
    match Err with
    | Some err => (None, Some err)
    | None => (Some Resp, None)
    end.

(** A provider that holds, for every key, the item of the record with that
    name and sort key: a batch-get returns one item per requested key and
    leaves no key unprocessed. *)
Definition item_of_key (tabInfo : DBTableInfo) (key : DBMap) : DBMap :=
  {[ "Name" := map_index key (PartitionKey (TableKeys tabInfo));
     "SKey" := match SortKey (TableKeys tabInfo) with
               | Some sKey => map_index key sKey
               | None => None
               end ]}.

Definition full_provider (tabInfo : DBTableInfo)
  : BatchGetItemInput -> option BatchGetItemOutput * option error :=
  fun req =>
    (Some (mkBatchGetItemOutput
             ((fun ka => item_of_key tabInfo <$> Keys ka) <$> BatchGet_RequestItems req)
             ∅), None).

(** The same provider, failing every batch-get of exactly [n] keys of the
    table. *)
Definition failing_provider (tabInfo : DBTableInfo) (n : nat)
  : BatchGetItemInput -> option BatchGetItemOutput * option error :=
  fun req =>
    match BatchGet_RequestItems req !! TableName tabInfo with
    | Some ka =>
        if decide (length (Keys ka) = n)
        then (None, Some (errorString "fake error"))
        else full_provider tabInfo req
    | None => full_provider tabInfo req
    end.

Definition unused_batch_get
  : BatchGetItemInput -> option BatchGetItemOutput * option error :=
  fun _ => (None, Some (errorString "not mocked")).

Definition unused_batch_write
  : BatchWriteItemInput -> option BatchWriteItemOutput * option error :=
  fun _ => (None, Some (errorString "not mocked")).

(** A world in which nothing has happened yet. *)
Definition fresh_world : world :=
  mkWorld [] [] (fun n => "uuid-" +:+ pretty n) 0.

(** [n] keys with distinct partition key values and a sort key each. *)
Definition test_keys (n : nat) : list dbPSKeyValues :=
  (fun i => mkDbPSKeyValues ("pKey" +:+ pretty i) (Some "sKey")) <$> seq 0 n.

(** [n] records with distinct names and no sort key. *)
Definition test_records (n : nat) : list TestRecord :=
  (fun i => mkTestRecord ("name" +:+ pretty i) "") <$> seq 0 n.

(** ** Notions used by the statements *)

(** [req] is the put request that [createPutItem] builds for [rec] (with
    [createPartKey] set, as [BulkAddRecords] does) in some world. *)
Definition put_request_of {M : Type} `{BaseModel M} (h : handlerImp)
  (createSortKey : bool) (rec : M) (req : WriteRequest) : Prop :=
  exists item keys w1 w2,
    createPutItem h rec true createSortKey w1 = (Ok (item, keys), w2) /\
    req = mkWriteRequest (Some (mkPutRequest item)) None.

(** [rec] is the record that [baseModel] decodes from the put request
    [item]. *)
Definition decoded_from {M : Type} `{BaseModel M} (baseModel : M)
  (item : WriteRequest) (rec : M) : Prop :=
  exists put, WR_PutRequest item = Some put /\ Unmarshal baseModel (Item put) = Ok rec.

(** What a goroutine of [GetByIDs h input dbKeys] in position [i] can be: it
    was started for the [i]-th page, or it is about to send the message
    that the task of that page computes. *)
Definition goroutine_of_page {M : Type} `{BaseModel M} (h : handlerImp) (input : M)
  (dbKeys : list dbPSKeyValues) (i : nat) (g : goroutine) : Prop :=
  match g with
  | Dispatched page => Partition (Z.of_nat (length dbKeys)) 25 !! i = Some page
  | Sending msg =>
      exists page fuel calls,
        Partition (Z.of_nat (length dbKeys)) 25 !! i = Some page /\
        page_task fuel h input dbKeys page = Some (Returns msg, calls)
  | Exited => True
  end.

(** What [GetByIDs] returns when the one message it receives is [msg]. *)
Definition result_of_message {M : Type} (msg : baseModelsWithErr M)
  : option (list M) * option error :=
  match MsgErr msg with
  | Some err => (None, Some err)
  | None => (Some (Records msg), None)
  end.

(** The handler of the tests' table on the provider that holds every
    item, and the one whose provider fails the batch-get of 4 keys. *)
Definition full_handler : handlerImp :=
  mkHandlerImp cfg (full_provider (TableInfo cfg)) unused_batch_write.

Definition failing_handler : handlerImp :=
  mkHandlerImp cfg (failing_provider (TableInfo cfg) 4) unused_batch_write.

(** The records of the keys [test_keys n]. *)
Definition test_key_records (n : nat) : list TestRecord :=
  (fun i => mkTestRecord ("pKey" +:+ pretty i) "sKey") <$> seq 0 n.

(** The key [id] fails key compilation: [CreateQueryKeys] returns an error
    for the expression that [buildGetRequests] makes of it. *)
Definition key_fails (h : handlerImp) (id : dbPSKeyValues) : Prop :=
  let dbKeys := TableKeys (TableInfo (config h)) in
  let expr :=
    WithPartitionKey (PartitionKey dbKeys) (GetPartitionKey id)
      (NewExpressionWrapper (TableName (TableInfo (config h)))) in
  let expr :=
    match SortKey dbKeys, GetSortKey id with
    | Some sKey, Some sValue => WithSortingKey sKey sValue expr
    | _, _ => expr
    end in
  is_Some (CreateQueryKeys expr).2.

(** A chain of [WithUpdateField] calls, one per field, in order. *)
Definition WithUpdateFields (fields : list (string * GoValue))
  (expr : AwsExpressionWrapper) (st : expression.store)
  : AwsExpressionWrapper * expression.store :=
  foldl (fun '(expr, st) '(name, value) => WithUpdateField name value expr st)
        (expr, st) fields.

(** The SET action that assigns [value] to the field [name]. *)
Definition set_operation (field : string * GoValue) : expression.operationBuilder :=
  expression.mkOperationBuilder field.1 (expression.Value field.2)
    expression.setOperation.

(** The SET actions a wrapper's update expression holds, in the order they
    were added. *)
Definition set_operations (expr : AwsExpressionWrapper) (st : expression.store)
  : list expression.operationBuilder :=
  match expression.operationList (updateExpression expr) with
  | None => []
  | Some ref => default [] (default ∅ (st !! ref) !! expression.setOperation)
  end.

(** The tree of an update clause made of the assignment nodes [nodes]:
    [SET] followed by the assignments, separated by commas. *)
Definition set_clause (nodes : list expression.exprNode) : expression.exprNode :=
  expression.ExprNode [] []
    [expression.ExprNode [] [] nodes
       ("$c" +:+ expression.strings_Repeat ", $c" (length nodes - 1))]
    ("SET $c" +:+ String "010"%char "").

(** The filter of the package documentation's [getAll]: a key condition, a
    filter condition and a limit. *)
Definition documented_scan_filter : AwsExpressionWrapper :=
  WithLimit 10
    (AndCondition "last_name" (GoString "abu") EQUAL
       (WithKeyCondition "first_name" (GoString "saddam") EQUAL
          (NewExpressionWrapper "user"))).

(** The update of the test "expression with no condition". *)
Definition tested_update_fields : list (string * GoValue) :=
  [("UpdatedAt", GoInt 1586190435); ("CreatedAt", GoInt 1586190435)].

Definition tested_update_wrapper : AwsExpressionWrapper :=
  WithSortingKey "UserID" "abcd"
    (WithPartitionKey "partitionID" "1234" (NewExpressionWrapper "request-test")).

(** The wrapper's update expression refers to a map of the store that holds
    exactly the SET actions [ops]. *)
Definition update_holds (expr : AwsExpressionWrapper) (st : expression.store)
  (ops : list expression.operationBuilder) : Prop :=
  exists ref,
    expression.operationList (updateExpression expr) = Some ref /\
    st !! ref = Some ({[ expression.setOperation := ops ]}
                      : gmap string (list expression.operationBuilder)).

(** The string holds no ['$']. *)
Fixpoint dollar_free (s : string) : bool :=
  match s with
  | EmptyString => true
  | String c s' => negb (Ascii.eqb c "$"%char) && dollar_free s'
  end.

(** The field can be compiled: its name is a path that [Name] accepts and
    that holds no ['$'] (the index part of a path goes into the template as
    it is, where a ['$'] would be read as an escape), and its value
    marshals. *)
Definition field_builds (field : string * GoValue) : bool :=
  match expression.BuildOperand (expression.Name field.1),
        dynamodbattribute_Marshal field.2 with
  | Ok _, Ok _ => dollar_free field.1
  | _, _ => false
  end.

(** The words of a path that are given an alias: the words between the
    dots, each without its index part; none when [Name] does not accept the
    path. *)
Definition path_words (name : string) : list string :=
  match expression.name_words (expression.split_dot name) with
  | Ok (names, _) => names
  | Err _ => []
  end.

(** The formatter succeeds whatever the aliases met so far; it adds the
    values [values], in this order, to the values met so far, keeps the
    names met so far, and leaves the names [names] among them. *)
Definition appends (f : expression.formatter) (names : list string)
  (values : list AttributeValue) : Prop :=
  forall al, exists s al',
    f al = Ok (s, al') /\
    expression.valuesList al' = expression.valuesList al ++ values /\
    expression.namesList al ⊆ expression.namesList al' /\
    names ⊆ expression.namesList al'.

(** * The rest of the package

    The functions around the ones above: the configuration check, the
    single-item compile targets of the wrapper, and the single-item
    operations of the handler. *)

(** ** The configuration check *)

(** IsValid check if the configuration is valid.  The loop over the indexes
    returns [false] at the first index without a partition key name; the
    order in which a Go map is visited does not change that result. *)
Definition IsValid (c : DBConfig) : bool :=
  if decide ((String.length (TableName (TableInfo c)) < 1)%nat \/
             (String.length (PartitionKey (TableKeys (TableInfo c))) < 1)%nat)
  then false
  else
    forallb (fun '(_, dbIndex) =>
               negb (bool_decide (String.length (PartitionKey dbIndex) < 1)%nat))
            (map_to_list (Indexes c)).

(** ** aws_expression.go, continued *)

Record GetItemInput := mkGetItemInput {
  Get_TableName : option string;
  Get_Key : DBMap
}.


(** BuildGetInput build get input expression *)
Definition BuildGetInput (expr : AwsExpressionWrapper)
  : option GetItemInput * option error :=
  if decide (String.length (dynamoDBTable expr) < 1)%nat then
    (None, Some (errorString "missing table name"))
  else
    match CreateQueryKeys expr with
    | (_, Some err) => (None, Some err)
    | (keys, None) => (Some (mkGetItemInput (Some (dynamoDBTable expr)) keys), None)
    end.


(** WithLastEvaluatedKey defines the last evaluated key *)
Definition WithLastEvaluatedKey (pKeyName pKeyVal : string)
  (sKeyName sKeyVal : option string) (expr : AwsExpressionWrapper)
  : AwsExpressionWrapper :=
  let lastEvaluatedKey : DBMap := {[ pKeyName := Some (AttrS pKeyVal) ]} in
  let lastEvaluatedKey :=
    match sKeyName, sKeyVal with
    | Some sKeyName, Some sKeyVal =>
        <[sKeyName := Some (AttrS sKeyVal)]> lastEvaluatedKey
    | _, _ => lastEvaluatedKey
    end in
  set_exclusiveStartKey lastEvaluatedKey expr.

(** ** query.go, continued *)

Record GetItemOutput := mkGetItemOutput { Get_Item : DBMap }.

(** [prepareGetReq]: the keys of the index when the name is one of the
    configured indexes, those of the table otherwise. *)
Definition prepareGetReq (h : handlerImp) (name : string) (keys : dbPSKeyValues)
  : option GetItemInput * option error :=
  if decide (String.length (GetPartitionKey keys) < 1)%nat then
    (None, Some (errorString "invalid partition key"))
  else
    let dbKeys :=
      match Indexes (config h) !! name with
      | Some keys => keys
      | None => TableKeys (TableInfo (config h))
      end in
    let expr :=
      WithPartitionKey (PartitionKey dbKeys) (GetPartitionKey keys)
        (NewExpressionWrapper (TableName (TableInfo (config h)))) in
    let expr :=
      match SortKey dbKeys, GetSortKey keys with
      | Some sKey, Some sValue => WithSortingKey sKey sValue expr
      | _, _ => expr
      end in
    BuildGetInput expr.

Section QueryOne.

Context {M : Type} `{BaseModel M}.

(** [GetByID], given the client's [GetItemWithContext].  The result is what
    the call returns, ([Ok None] for [(nil, nil)]; on an error the model
    that comes with it is not looked at), and the get requests issued. *)
Definition GetByID (h : handlerImp)
  (GetItemWithContext : GetItemInput -> option GetItemOutput * option error)
  (input : M) (index : string) (dbKeys : dbPSKeyValues)
  : outcome (result (option M)) * list GetItemInput :=
  match prepareGetReq h index dbKeys with
  | (_, Some err) => (Returns (Err err), [])
  | (None, None) => (Panics "nil pointer dereference", [])
  | (Some req, None) =>
      match GetItemWithContext req with
      | (_, Some getErr) => (Returns (Err getErr), [req])
      | (None, None) => (Panics "nil pointer dereference", [req])
      | (Some res, None) =>
          if decide (size (Get_Item res) < 1)%nat then (Returns (Ok None), [req])
          else
            match Unmarshal input (Get_Item res) with
            | Ok mdl => (Returns (Ok (Some mdl)), [req])
            | Err mErr => (Returns (Err mErr), [req])
            end
      end
  end.

End QueryOne.

(** ** command.go: notions used by the statements *)

(** The delete request of a key on a table whose partition and sort keys
    are named [pKey] and [sKey]: the partition key value and, when the key
    has a sort key value that is not empty, that value; a nil attribute
    under [sKey] otherwise. *)
Definition delete_request_of (pKey sKey : string) (key : dbPSKeyValues) : WriteRequest :=
  let sortValue :=
    match GetSortKey key with
    | Some sValue => if decide (sValue = "") then None else Some (AttrS sValue)
    | None => None
    end in
  mkWriteRequest None
    (Some (mkDeleteRequest
             (<[sKey := sortValue]> {[ pKey := Some (AttrS (GetPartitionKey key)) ]}))).

(** A provider that processes nothing: every batch-write comes back with
    all its requests unprocessed. *)
Definition nothing_processed
  : BatchWriteItemInput -> option BatchWriteItemOutput * option error :=
  fun input => (Some (mkBatchWriteItemOutput (BatchWrite_RequestItems input)), None).

(** A provider that never gets done: every batch-get comes back without
    items and with the requested keys unprocessed. *)
Definition never_done
  : BatchGetItemInput -> option BatchGetItemOutput * option error :=
  fun req => (Some (mkBatchGetItemOutput ∅ (BatchGet_RequestItems req)), None).

(** * Properties *)

(** ** The partitioner *)

Section PartitionFacts.

Import GoInt.

Lemma wrap_id x : in_range x -> wrap x = x.
Proof.
  unfold in_range, wrap, min_int, max_int. intros H.
  rewrite Z.mod_small; lia.
Qed.

(** From index [i] the loop sends the ranges [i*p, (i+1)*p) for
    [i <= j < q] and leaves [i] at [q]. *)
Lemma Partition_loop_spec (p q : Z) (fuel : nat) (i : Z) :
  0 < p -> 0 <= i -> i <= q -> q * p <= max_int ->
  fuel = Z.to_nat (q - i) ->
  let '(rs, i') := Partition_loop fuel i q p in
  i' = q /\
  tiles (i * p) (q * p) rs /\
  Forall (fun r => High r - Low r = p) rs /\
  length rs = fuel.
Proof.
  intros Hp. revert i. induction fuel as [|fuel IH]; intros i Hi Hiq Hq Hf; simpl.
  - assert (i = q) by lia. subst i. repeat split; constructor.
  - assert (Hlt : i < q) by lia.
    apply Z.ltb_lt in Hlt as Hb. rewrite Hb.
    assert (Hr1 : in_range (i + 1)) by (unfold in_range, min_int, max_int in *; nia).
    assert (Hr2 : in_range (i * p)) by (unfold in_range, min_int, max_int in *; nia).
    assert (Hr3 : in_range ((i + 1) * p)) by (unfold in_range, min_int, max_int in *; nia).
    unfold add, mul. rewrite (wrap_id (i + 1)) by done.
    rewrite (wrap_id (i * p)), (wrap_id ((i + 1) * p)) by done.
    specialize (IH (i + 1) ltac:(lia) ltac:(lia) Hq ltac:(lia)).
    destruct (Partition_loop fuel (i + 1) q p) as [rs i'].
    destruct IH as (-> & Ht & Hw & Hl).
    repeat split.
    + constructor; simpl; [done | lia | done].
    + constructor; [simpl; lia | done].
    + simpl. by rewrite Hl.
Qed.

Lemma tiles_app lo mid hi rs1 rs2 :
  tiles lo mid rs1 -> tiles mid hi rs2 -> tiles lo hi (rs1 ++ rs2).
Proof. induction 1; simpl; [done|]. intros. constructor; auto. Qed.

Lemma tiles_le lo hi rs : tiles lo hi rs -> lo <= hi.
Proof. induction 1; lia. Qed.

(** Ranges that tile [lo, hi) list every index of it once, in order. *)
Lemma tiles_indices lo hi rs :
  tiles lo hi rs -> concat (map indices rs) = seqZ lo (hi - lo).
Proof.
  induction 1 as [lo | lo hi r rs Hlo Hlt Ht IH]; simpl.
  - by rewrite Z.sub_diag.
  - rewrite IH. unfold indices. rewrite Hlo.
    apply tiles_le in Ht.
    replace (hi - lo) with ((High r - lo) + (hi - High r)) by lia.
    rewrite seqZ_app by lia. do 2 f_equal; lia.
Qed.

End PartitionFacts.

(** What [Partition] yields for a positive partition size. *)
Lemma Partition_spec (n p : Z) :
  0 <= n <= GoInt.max_int -> 0 < p <= GoInt.max_int ->
  Z.of_nat (length (Partition n p)) = ceil_div n p /\
  tiles 0 n (Partition n p) /\
  Forall (fun r => 0 < High r - Low r <= p) (Partition n p).
Proof.
  intros Hn [Hpos Hp].
  unfold Partition. destruct (Z.leb_spec p 0) as [|_]; [lia|].
  pose proof (Z.quot_rem' n p) as Hqr.
  pose proof (Z.rem_bound_pos n p ltac:(lia) Hpos) as Hrem.
  pose proof (Z.quot_pos n p ltac:(lia) Hpos) as Hq0.
  assert (Hqp : Z.quot n p * p <= n) by lia.
  assert (Hqn : Z.quot n p <= n) by nia.
  unfold GoInt.quo. rewrite (wrap_id (Z.quot n p))
    by (unfold GoInt.in_range, GoInt.min_int, GoInt.max_int in *; lia).
  set (q := Z.quot n p) in *.
  pose proof (Partition_loop_spec p q (Z.to_nat q) 0 Hpos ltac:(lia) Hq0
                ltac:(lia) ltac:(f_equal; lia)) as Hloop.
  destruct (Partition_loop (Z.to_nat q) 0 q p) as [rs i].
  destruct Hloop as (-> & Ht & Hw & Hl).
  assert (Hceil_exact : Z.rem n p = 0 -> ceil_div n p = q).
  { intros H0. unfold ceil_div.
    replace (n + p - 1) with (q * p + (p - 1)) by lia.
    rewrite Z.div_add_l by lia. rewrite Z.div_small; lia. }
  assert (Hceil_more : Z.rem n p <> 0 -> ceil_div n p = q + 1).
  { intros H0. unfold ceil_div.
    replace (n + p - 1) with ((q + 1) * p + (Z.rem n p - 1)) by lia.
    rewrite Z.div_add_l by lia. rewrite Z.div_small; lia. }
  unfold GoInt.rem. destruct (Z.eqb_spec (Z.rem n p) 0) as [H0|H0]; simpl.
  - replace n with (q * p) at 2 by lia. repeat split.
    + rewrite Hl, Hceil_exact by done. lia.
    + done.
    + eapply Forall_impl; [exact Hw|]. simpl. intros; lia.
  - unfold GoInt.mul. rewrite (wrap_id (q * p))
      by (unfold GoInt.in_range, GoInt.min_int, GoInt.max_int in *; lia).
    repeat split.
    + rewrite length_app, Hl, Hceil_more by done. simpl. lia.
    + eapply tiles_app; [exact Ht|].
      constructor; simpl; [done | lia | constructor].
    + apply Forall_app. split.
      * eapply Forall_impl; [exact Hw|]. simpl. intros; lia.
      * constructor; [simpl; lia | constructor].
Qed.

(** Every range of a tiling lies inside the tiled interval. *)
Lemma tiles_bounds lo hi rs r :
  tiles lo hi rs -> r ∈ rs -> lo <= Low r /\ Low r < High r /\ High r <= hi.
Proof.
  induction 1 as [lo | lo hi r0 rs Hlo Hlt Ht IH]; intros Hin.
  - by apply elem_of_nil in Hin.
  - apply tiles_le in Ht as Hle.
    apply elem_of_cons in Hin as [->|Hin]; [lia|].
    specialize (IH Hin). lia.
Qed.

(** C6.  For a collection length [n >= 0] and a partition size [p] (both
    values of Go's [int]): when [p > 0], [Partition n p] yields exactly
    [ceil (n/p)] ranges, in order, each non-empty and of width at most [p],
    which tile [0, n) (every index of [0, n) lies in exactly one range, with
    no gap and no overlap); when [p <= 0] it yields no range at all. *)
Theorem Partition_covers (n p : Z) :
  0 <= n <= GoInt.max_int -> GoInt.in_range p ->
  (0 < p ->
     Z.of_nat (length (Partition n p)) = ceil_div n p /\
     tiles 0 n (Partition n p) /\
     Forall (fun r => 0 < High r - Low r <= p) (Partition n p) /\
     concat (map indices (Partition n p)) = seqZ 0 n) /\
  (p <= 0 -> Partition n p = []).
Proof.
  intros Hn Hp. split.
  - intros Hpos.
    destruct (Partition_spec n p Hn) as (Hlen & Ht & Hw).
    { unfold GoInt.in_range in Hp. lia. }
    repeat split; try done.
    rewrite (tiles_indices _ _ _ Ht). f_equal; lia.
  - intros Hle. unfold Partition.
    destruct (Z.leb_spec p 0); [done | lia].
Qed.

(** The theorem at [n = 29], [p = 25], the sizes of the bulk read. *)
Lemma Partition_covers_witness :
  Z.of_nat (length (Partition 29 25)) = ceil_div 29 25 /\
  tiles 0 29 (Partition 29 25) /\
  Forall (fun r => 0 < High r - Low r <= 25) (Partition 29 25) /\
  concat (map indices (Partition 29 25)) = seqZ 0 29.
Proof.
  apply (Partition_covers 29 25); [unfold GoInt.max_int; lia | | lia].
  unfold GoInt.in_range, GoInt.min_int, GoInt.max_int; lia.
Defined.

(** The two chunks of a bulk read of 29 keys. *)
Example Partition_29_25 :
  Partition 29 25 = [mkIdxRange 0 25; mkIdxRange 25 29].
Proof. reflexivity. Qed.

(** ** Bulk delete *)

Section BulkDeleteFacts.

Variable h : handlerImp.

(** A key without a sort key stops the first loop with an error when the
    table has a sort key, whatever came before it. *)
Lemma BulkDeleteRecords_requests_missing_sort_key dbKeys items :
  is_Some (SortKey (TableKeys (TableInfo (config h)))) ->
  Exists (fun key => GetSortKey key = None) dbKeys ->
  exists err, BulkDeleteRecords_requests h dbKeys items = Err err.
Proof.
  intros [sKey HsKey] Hex. revert items.
  induction dbKeys as [|key dbKeys IH]; intros items.
  - inversion Hex.
  - simpl. rewrite HsKey.
    destruct (GetSortKey key) as [sValue|] eqn:Hkey.
    + destruct (CreateQueryKeys _) as [attribute [err|]]; [by eexists|].
      apply IH. inversion Hex as [? ? Hhere|]; subst; [congruence | done].
    + by eexists.
Qed.

End BulkDeleteFacts.

(** C8.  When the table declares a sort key and at least one of the keys
    handed to [BulkDeleteRecords] has no sort key value, the call returns an
    error together with the input list as it was, and issues no batch-write
    call: the log of calls is the one it started with. *)
Theorem BulkDeleteRecords_missing_sort_key
  (h : handlerImp) (dbKeys : list dbPSKeyValues) (w : world) :
  is_Some (SortKey (TableKeys (TableInfo (config h)))) ->
  Exists (fun key => GetSortKey key = None) dbKeys ->
  exists err,
    BulkDeleteRecords h dbKeys w = (Returns (dbKeys, Some err), w) /\
    batch_writes (BulkDeleteRecords h dbKeys w).2 = batch_writes w.
Proof.
  intros Hsort Hex.
  destruct (BulkDeleteRecords_requests_missing_sort_key h dbKeys [] Hsort Hex)
    as [err Herr].
  exists err. unfold BulkDeleteRecords. rewrite Herr. done.
Qed.

(** C10.  When the table declares no sort key and the response to the
    batch-write call that [BulkDeleteRecords] issued reports at least one
    unprocessed item for the table, the call panics: decoding the first
    unprocessed item dereferences the nil sort-key name. *)
Theorem BulkDeleteRecords_nil_sort_key_panics
  (h : handlerImp) (dbKeys : list dbPSKeyValues) (w : world)
  (input : BatchWriteItemInput) (out : BatchWriteItemOutput)
  (item : WriteRequest) (items : list WriteRequest) :
  SortKey (TableKeys (TableInfo (config h))) = None ->
  batch_writes (BulkDeleteRecords h dbKeys w).2 = batch_writes w ++ [input] ->
  BatchWriteItemWithContext h input = (Some out, None) ->
  UnprocessedItems out !! TableName (TableInfo (config h)) = Some (item :: items) ->
  exists msg, (BulkDeleteRecords h dbKeys w).1 = Panics msg.
Proof.
  intros Hnil Hlog Hcall Hun. revert Hlog. unfold BulkDeleteRecords.
  destruct (BulkDeleteRecords_requests h dbKeys []) as [requests|err]; simpl.
  - set (input0 := mkBatchWriteItemInput _).
    destruct (BatchWriteItemWithContext h input0) as [out' err'] eqn:Hcall'.
    intros Hlog.
    assert (Hinput : input0 = input).
    { destruct err' as [e|]; [|destruct out' as [o|]]; simpl in Hlog.
      - apply app_inv_head in Hlog. by injection Hlog.
      - destruct (BulkDeleteRecords_unprocessed _ _ _); simpl in Hlog;
          apply app_inv_head in Hlog; by injection Hlog.
      - apply app_inv_head in Hlog. by injection Hlog. }
    rewrite Hinput, Hcall in Hcall'. injection Hcall' as <- <-.
    rewrite Hun. simpl.
    destruct (WR_DeleteRequest item); rewrite ?Hnil; by eexists.
  - intros Hlog. exfalso.
    apply (f_equal length) in Hlog. rewrite length_app in Hlog. simpl in Hlog. lia.
Qed.

(** C8 at the input of the test "with missing sort key". *)
Lemma BulkDeleteRecords_missing_sort_key_witness :
  exists err,
    BulkDeleteRecords
      (mkHandlerImp cfg unused_batch_get
         (MockedBatchWrite (mkBatchWriteItemOutput ∅) None))
      [mkDbPSKeyValues "part-key" None] fresh_world
    = (Returns ([mkDbPSKeyValues "part-key" None], Some err), fresh_world) /\
    batch_writes
      (BulkDeleteRecords
         (mkHandlerImp cfg unused_batch_get
            (MockedBatchWrite (mkBatchWriteItemOutput ∅) None))
         [mkDbPSKeyValues "part-key" None] fresh_world).2
    = batch_writes fresh_world.
Proof.
  apply BulkDeleteRecords_missing_sort_key.
  - simpl. by eexists.
  - constructor. reflexivity.
Defined.

(** C10 at a table without a sort key whose delete of one key comes back
    unprocessed. *)
Lemma BulkDeleteRecords_nil_sort_key_panics_witness :
  exists msg,
    (BulkDeleteRecords
       (mkHandlerImp cfg_partition_only unused_batch_get
          (MockedBatchWrite
             (mkBatchWriteItemOutput
                {[ "table" :=
                     [mkWriteRequest None
                        (Some (mkDeleteRequest {[ "partKey" := Some (AttrS "k1") ]}))] ]})
             None))
       [mkDbPSKeyValues "k1" None] fresh_world).1 = Panics msg.
Proof.
  eapply (BulkDeleteRecords_nil_sort_key_panics _ _ _
            (mkBatchWriteItemInput
               {[ "table" :=
                    [mkWriteRequest None
                       (Some (mkDeleteRequest {[ "partKey" := Some (AttrS "k1") ]}))] ]})).
  - reflexivity.
  - vm_compute. reflexivity.
  - reflexivity.
  - vm_compute. reflexivity.
Defined.

(** ** Bulk add *)

Section BulkAddFacts.

Context {M : Type} `{BaseModel M}.
Variable h : handlerImp.

(** A record that marshals, and has a sort key where one is needed and not
    made up, yields its put item. *)
Lemma createPutItem_ok rec createSortKey w :
  (exists item, Marshal rec = Ok item) ->
  (is_Some (SortKey (TableKeys (TableInfo (config h)))) -> createSortKey = false ->
   is_Some (GetSortKey (GetPartSortKey rec None))) ->
  exists item keys w', createPutItem h rec true createSortKey w = (Ok (item, keys), w').
Proof.
  intros [item Hitem] Hsort. unfold createPutItem. rewrite Hitem.
  rewrite andb_false_r.
  destruct (decide (GetPartitionKey (GetPartSortKey rec None) = "")); simpl.
  - destruct (SortKey (TableKeys (TableInfo (config h)))) as [sKey|]; [|by eauto].
    destruct (GetSortKey (GetPartSortKey rec None)) as [key|]; [by eauto|].
    destruct createSortKey; simpl; [by eauto|].
    destruct Hsort as [? ?]; by eauto.
  - destruct (SortKey (TableKeys (TableInfo (config h)))) as [sKey|]; [|by eauto].
    destruct (GetSortKey (GetPartSortKey rec None)) as [key|]; [by eauto|].
    destruct createSortKey; simpl; [by eauto|].
    destruct Hsort as [? ?]; by eauto.
Qed.

Lemma batchWrite_requests_ok recs createSortKey requests w :
  Forall (fun rec => exists item, Marshal rec = Ok item) recs ->
  (is_Some (SortKey (TableKeys (TableInfo (config h)))) -> createSortKey = false ->
   Forall (fun rec => is_Some (GetSortKey (GetPartSortKey rec None))) recs) ->
  exists puts w',
    batchWrite_requests h recs true createSortKey requests w = (Ok (requests ++ puts), w') /\
    Forall2 (put_request_of h createSortKey) recs puts.
Proof.
  revert requests w. induction recs as [|rec recs IH]; intros requests w Hm Hs.
  - exists [], w. simpl. rewrite app_nil_r. split; [done | constructor].
  - simpl. apply Forall_cons in Hm as [Hrec Hm].
    destruct (createPutItem_ok rec createSortKey w Hrec) as (item & keys & w' & Hput).
    { intros H1 H2. specialize (Hs H1 H2). by apply Forall_cons in Hs as [? _]. }
    rewrite Hput.
    destruct (IH (requests ++ [mkWriteRequest (Some (mkPutRequest item)) None]) w' Hm)
      as (puts & w'' & Hrest & Hall).
    { intros H1 H2. specialize (Hs H1 H2). by apply Forall_cons in Hs as [_ ?]. }
    exists (mkWriteRequest (Some (mkPutRequest item)) None :: puts), w''.
    split.
    + rewrite Hrest. by rewrite <- app_assoc.
    + constructor; [|done]. by exists item, keys, w, w'.
Qed.

Lemma batchWrite_unprocessed_ok (baseModel : M) items decoded unprocessedItems :
  Forall2 (decoded_from baseModel) items decoded ->
  batchWrite_unprocessed baseModel items unprocessedItems
  = Returns (Ok (unprocessedItems ++ decoded)).
Proof.
  intros Hall. revert unprocessedItems.
  induction Hall as [|item rec items decoded (put & Hput & Hrec) _ IH];
    intros unprocessedItems; simpl.
  - by rewrite app_nil_r.
  - rewrite Hput, Hrec, IH. by rewrite <- app_assoc.
Qed.

End BulkAddFacts.

(** C7, as the code has it.  For 29 records that all marshal and, where the
    table declares a sort key and [createSortKey] is off, whose first 25
    carry a sort key: [BulkAddRecords] issues exactly one batch-write call,
    made of the put requests of the first 25 records; when that call returns
    a response and no error, and the unprocessed items of the response
    decode, the result is the remaining 4 records followed by the decoded
    items, with no error. *)
Theorem BulkAddRecords_first_25 {M : Type} `{BaseModel M}
  (h : handlerImp) (baseModel : M) (createSortKey : bool)
  (records : list M) (w : world) :
  length records = 29%nat ->
  Forall (fun rec => exists item, Marshal rec = Ok item) records ->
  (is_Some (SortKey (TableKeys (TableInfo (config h)))) -> createSortKey = false ->
   Forall (fun rec => is_Some (GetSortKey (GetPartSortKey rec None))) (take 25 records)) ->
  exists requests,
    let input :=
      mkBatchWriteItemInput {[ TableName (TableInfo (config h)) := requests ]} in
    batch_writes (BulkAddRecords h baseModel createSortKey records w).2
      = batch_writes w ++ [input] /\
    Forall2 (put_request_of h createSortKey) (take 25 records) requests /\
    forall out decoded,
      BatchWriteItemWithContext h input = (Some out, None) ->
      Forall2 (decoded_from baseModel)
        (default [] (UnprocessedItems out !! TableName (TableInfo (config h)))) decoded ->
      (BulkAddRecords h baseModel createSortKey records w).1
        = Returns (drop 25 records ++ decoded, None).
Proof.
  intros Hlen Hmarshal Hsort.
  unfold BulkAddRecords, batchWrite. rewrite Hlen.
  change (Z.to_nat (Z.min 25 (Z.of_nat 29))) with 25%nat.
  destruct (batchWrite_requests_ok h (take 25 records) createSortKey [] w)
    as (puts & w' & Hreq & Hputs).
  { by apply Forall_take. }
  { done. }
  simpl in Hreq. rewrite Hreq. exists puts. simpl.
  set (input := mkBatchWriteItemInput _).
  destruct (BatchWriteItemWithContext h input) as [res err] eqn:Hcall.
  assert (Hlog : forall w0, batch_writes (log_batch_write input w0)
                            = batch_writes w0 ++ [input]) by done.
  assert (Hw' : forall recs requests w0 r w1,
             batchWrite_requests h recs true createSortKey requests w0 = (r, w1) ->
             batch_writes w1 = batch_writes w0).
  { induction recs as [|rec recs IH]; intros requests w0 r w1; simpl.
    - by intros [= _ <-].
    - unfold createPutItem.
      destruct (Marshal rec); [|by intros [= _ <-]].
      rewrite andb_false_r.
      destruct (decide _); simpl;
        destruct (SortKey _); try destruct (GetSortKey _);
        try destruct createSortKey; simpl;
        first [ by intros [= _ <-] | intros Hrec; by apply IH in Hrec ]. }
  apply Hw' in Hreq as Hwrites.
  split; [|split; [done|]].
  - destruct err as [e|]; [|destruct res as [res|]]; simpl.
    + by rewrite Hwrites.
    + destruct (batchWrite_unprocessed _ _ _) as [[?|?]|?]; simpl; by rewrite Hwrites.
    + by rewrite Hwrites.
  - intros out decoded [= -> ->] Hdecoded.
    by rewrite (batchWrite_unprocessed_ok baseModel _ decoded).
Qed.

(** C7 at 29 records without a sort key, on the table of the tests, with
    sort keys made up. *)
Lemma BulkAddRecords_first_25_witness :
  exists requests,
    let h := mkHandlerImp cfg unused_batch_get
               (MockedBatchWrite (mkBatchWriteItemOutput ∅) None) in
    let input := mkBatchWriteItemInput {[ "table" := requests ]} in
    batch_writes
      (BulkAddRecords h (mkTestRecord "" "") true (test_records 29) fresh_world).2
      = [input] /\
    Forall2 (put_request_of h true) (take 25 (test_records 29)) requests /\
    forall out decoded,
      BatchWriteItemWithContext h input = (Some out, None) ->
      Forall2 (decoded_from (mkTestRecord "" ""))
        (default [] (UnprocessedItems out !! "table")) decoded ->
      (BulkAddRecords h (mkTestRecord "" "") true (test_records 29) fresh_world).1
        = Returns (drop 25 (test_records 29) ++ decoded, None).
Proof.
  apply (BulkAddRecords_first_25
           (mkHandlerImp cfg unused_batch_get
              (MockedBatchWrite (mkBatchWriteItemOutput ∅) None))
           (mkTestRecord "" "") true (test_records 29) fresh_world).
  - reflexivity.
  - apply Forall_forall. intros rec _. eexists. reflexivity.
  - intros _ Hoff. discriminate Hoff.
Defined.

(** C7 fails as stated: 29 records that all marshal, none with a sort key,
    on a table that declares one and with [createSortKey] off.  The call
    returns all 29 records with an error and issues no batch-write call. *)
Lemma BulkAddRecords_29_missing_sort_key :
  let h := mkHandlerImp cfg unused_batch_get
             (MockedBatchWrite (mkBatchWriteItemOutput ∅) None) in
  length (test_records 29) = 29%nat /\
  Forall (fun rec => exists item, Marshal rec = Ok item) (test_records 29) /\
  BulkAddRecords h (mkTestRecord "" "") false (test_records 29) fresh_world
  = (Returns (test_records 29, Some (errorString "missing required sorting key")),
     fresh_world) /\
  batch_writes
    (BulkAddRecords h (mkTestRecord "" "") false (test_records 29) fresh_world).2 = [].
Proof.
  repeat split.
  apply Forall_forall. intros rec _. eexists. reflexivity.
Qed.

(** ** Bulk read *)

Section GetByIDsFacts.

Context {M : Type} `{BaseModel M}.
Variables (h : handlerImp) (input : M) (dbKeys : list dbPSKeyValues) (w0 : world).

(** [P] holds of every batch-get call a page task issues, and a task that
    reaches its send has issued at least one. *)
Variable P : BatchGetItemInput -> Prop.
Hypothesis page_task_calls : forall i page fuel o calls,
  Partition (Z.of_nat (length dbKeys)) 25 !! i = Some page ->
  page_task fuel h input dbKeys page = Some (o, calls) ->
  Forall P calls /\ (forall msg, o = Returns msg -> calls <> []).

(** What holds of every state a run reaches. *)
Lemma GetByIDs_invariant s :
  GetByIDs_reaches h input dbKeys w0 s ->
  (forall i g, goroutines s !! i = Some g -> goroutine_of_page h input dbKeys i g) /\
  (forall gathered, main s = Receiving gathered -> gathered = []) /\
  exists new, batch_gets (env s) = batch_gets w0 ++ new /\ Forall P new /\
              (forall i msg, goroutines s !! i = Some (Sending msg) -> new <> []).
Proof.
  unfold GetByIDs_reaches. intros Hreach.
  pattern s. eapply rtc_ind_r; [| |exact Hreach]; clear s Hreach.
  - unfold GetByIDs_start. simpl. split; [|split].
    + intros i g Hg. apply list_lookup_fmap_Some in Hg as (page & -> & Hpage). done.
    + by intros gathered [= <-].
    + exists []. rewrite app_nil_r. split; [done|]. split; [constructor|].
      intros i msg Hg. apply list_lookup_fmap_Some in Hg as (page & Hg & _). done.
  - intros s s' Hprev Hstep (Hgs & Hmain & new & Hlog & Hnew & Hsent).
    inversion Hstep as [gs i page fuel msg calls w c Hi Htask
                       |gs i page fuel reason calls w c Hi Htask
                       |gs i msg gathered w Hi]; subst; simpl in *.
    + pose proof (Hgs i _ Hi) as Hpage. simpl in Hpage.
      destruct (page_task_calls i page fuel _ calls Hpage Htask) as (Hnew' & Hne).
      split; [|split; [done|]].
      * intros j g Hj. destruct (decide (i = j)) as [<-|Hij].
        -- rewrite list_lookup_insert_eq in Hj by (by eapply lookup_lt_Some).
           injection Hj as <-. simpl. by exists page, fuel, calls.
        -- rewrite list_lookup_insert_ne in Hj by done. by apply Hgs.
      * exists (new ++ calls). rewrite Hlog, app_assoc.
        split; [done|]. split; [by apply Forall_app|].
        intros j msg' _ Happ. apply app_eq_nil in Happ as [_ ->].
        by eapply Hne.
    + pose proof (Hgs i _ Hi) as Hpage. simpl in Hpage.
      destruct (page_task_calls i page fuel _ calls Hpage Htask) as (Hnew' & _).
      split; [done|]. split; [done|].
      exists (new ++ calls). rewrite Hlog, app_assoc.
      split; [done|]. split; [by apply Forall_app|].
      intros j msg' Hj Happ. apply app_eq_nil in Happ as [-> _]. by eapply Hsent.
    + split; [|split].
      * intros j g Hj. destruct (decide (i = j)) as [<-|Hij].
        -- rewrite list_lookup_insert_eq in Hj by (by eapply lookup_lt_Some).
           by injection Hj as <-.
        -- rewrite list_lookup_insert_ne in Hj by done. by apply Hgs.
      * intros gathered'. unfold receive. destruct (MsgErr msg); done.
      * exists new. split; [done|]. split; [done|].
        intros j msg' Hj. destruct (decide (i = j)) as [<-|Hij].
        -- rewrite list_lookup_insert_eq in Hj by (by eapply lookup_lt_Some). done.
        -- rewrite list_lookup_insert_ne in Hj by done. by eapply Hsent.
Qed.

(** [GetByIDs] returns on the first message it receives: what it returns is
    what one page's task sent, and that task's calls are in the log. *)
Lemma GetByIDs_returns_one_message records err calls :
  GetByIDs_returns h input dbKeys w0 records err calls ->
  exists i msg new,
    goroutine_of_page h input dbKeys i (Sending msg) /\
    (records, err) = result_of_message msg /\
    calls = batch_gets w0 ++ new /\ Forall P new /\ new <> [].
Proof.
  intros (s & s' & gathered & Hreach & Hmain & Hstep & Hret & Hcalls).
  destruct (GetByIDs_invariant s Hreach) as (Hgs & Hempty & new & Hlog & Hnew & Hsent).
  inversion Hstep as [gs i page fuel msg calls' w c Hi Htask
                     |gs i page fuel reason calls' w c Hi Htask
                     |gs i msg gathered' w Hi]; subst; simpl in *.
  - congruence.
  - congruence.
  - injection Hmain as ->. rewrite (Hempty gathered eq_refl) in Hret.
    exists i, msg, new. split; [exact (Hgs i _ Hi)|].
    split; [|split; [done|split; [done|by eapply Hsent]]].
    unfold receive, result_of_message in *. simpl in Hret.
    destruct (MsgErr msg); by injection Hret as <- <-.
Qed.

(** A page whose task reaches its send lets [GetByIDs] return what that
    message holds: the task runs first and the caller receives from it. *)
Lemma GetByIDs_page_returns i page fuel msg calls :
  Partition (Z.of_nat (length dbKeys)) 25 !! i = Some page ->
  page_task fuel h input dbKeys page = Some (Returns msg, calls) ->
  GetByIDs_returns h input dbKeys w0
    (result_of_message msg).1 (result_of_message msg).2 (batch_gets w0 ++ calls).
Proof.
  intros Hpage Htask.
  set (gs := map (@Dispatched M) (Partition (Z.of_nat (length dbKeys)) 25)).
  assert (Hi : gs !! i = Some (Dispatched page)).
  { unfold gs. by rewrite list_lookup_fmap, Hpage. }
  exists (mkState (<[i := Sending msg]> gs) (Receiving []) (log_batch_gets calls w0) false),
         (mkState (<[i := Exited]> (<[i := Sending msg]> gs))
                  (receive [] msg true) (log_batch_gets calls w0) false), [].
  split; [|split; [done|split; [|split; [|done]]]].
  - unfold GetByIDs_reaches, GetByIDs_start. fold gs.
    eapply rtc_l; [|apply rtc_refl]. by eapply step_run.
  - apply step_receive.
    rewrite list_lookup_insert_eq by (by eapply lookup_lt_Some). done.
  - simpl. unfold receive, result_of_message. by destruct (MsgErr msg).
Qed.

End GetByIDsFacts.

(** C9.  With an empty key list [GetByIDs] starts no goroutine (the
    partition of 0 keys has no page), so no value is ever sent on the result
    channel: the start state has no step, the caller stays in its receive
    and the call never returns. *)
Theorem GetByIDs_empty_blocks {M : Type} `{BaseModel M}
  (h : handlerImp) (input : M) (w : world) :
  goroutines (GetByIDs_start (M := M) [] w) = [] /\
  (forall s, GetByIDs_reaches h input [] w s ->
             s = GetByIDs_start [] w /\ main s = Receiving []) /\
  (forall records err calls, ~ GetByIDs_returns h input [] w records err calls).
Proof.
  assert (Hstuck : forall s, GetByIDs_reaches h input [] w s -> s = GetByIDs_start [] w).
  { unfold GetByIDs_reaches. intros s Hreach.
    pattern s. eapply rtc_ind_r; [done| |exact Hreach].
    intros s1 s2 _ Hstep ->. exfalso.
    change (GetByIDs_start [] w) with (mkState (M := M) [] (Receiving []) w false) in Hstep.
    inversion Hstep as [gs i page fuel msg calls w1 c Hi
                       |gs i page fuel reason calls w1 c Hi
                       |gs i msg gathered w1 Hi]; subst;
      by rewrite lookup_nil in Hi. }
  split; [done|]. split.
  - intros s Hreach. by rewrite (Hstuck s Hreach).
  - intros records err calls (s & s' & gathered & Hreach & _ & Hstep & _).
    rewrite (Hstuck s Hreach) in Hstep.
    change (GetByIDs_start [] w) with (mkState (M := M) [] (Receiving []) w false) in Hstep.
    inversion Hstep as [gs i page fuel msg calls' w1 c Hi
                       |gs i page fuel reason calls' w1 c Hi
                       |gs i msg gathered' w1 Hi]; subst;
      by rewrite lookup_nil in Hi.
Qed.


Section LoadFacts.

Context {M : Type} `{BaseModel M}.
Variables (h : handlerImp) (model : M).

(** A call of [load] with a request issues at least one batch-get. *)
Lemma load_calls fuel req records o calls :
  load fuel h model req records = Some (o, calls) -> is_Some req -> calls <> [].
Proof.
  destruct fuel as [|fuel]; [done|]. simpl. intros Hload [r ->].
  repeat case_match; simplify_eq; done.
Qed.

(** More fuel does not change a result. *)
Lemma load_fuel_le fuel fuel' req records r :
  (fuel <= fuel')%nat ->
  load fuel h model req records = Some r ->
  load fuel' h model req records = Some r.
Proof.
  revert fuel' req records r.
  induction fuel as [|fuel IH]; intros fuel' req records r Hle; [done|].
  destruct fuel' as [|fuel']; [lia|].
  assert (IH' := fun req records r => IH fuel' req records r ltac:(lia)).
  clear IH. simpl. intros Hload.
  repeat case_match; simplify_eq; try done;
    match goal with
    | Hf : load fuel _ _ _ _ = Some _ |- _ => apply IH' in Hf; congruence
    end.
Qed.

Lemma page_task_fuel_le fuel fuel' dbKeys page r :
  (fuel <= fuel')%nat ->
  page_task fuel h model dbKeys page = Some r ->
  page_task fuel' h model dbKeys page = Some r.
Proof.
  intros Hle. unfold page_task, loadPage.
  destruct (go_slice dbKeys (Low page) (High page)) as [ids|]; [|done].
  destruct (load fuel h model _ []) as [r0|] eqn:Hload; [|done].
  by rewrite (load_fuel_le fuel fuel' _ _ r0 Hle Hload).
Qed.

(** A page task that reaches its send has issued at least one batch-get. *)
Lemma page_task_calls_nonempty fuel dbKeys page msg calls :
  page_task fuel h model dbKeys page = Some (Returns msg, calls) -> calls <> [].
Proof.
  unfold page_task, loadPage.
  destruct (go_slice dbKeys (Low page) (High page)) as [ids|]; [|done].
  destruct (load fuel h model _ []) as [[o calls']|] eqn:Hload; [|done].
  apply load_calls in Hload; [|by eexists].
  destruct o as [[records err]|reason]; by intros [= _ <-].
Qed.

(** The result of a page task that has one, from its result with fuel 1
    when that suffices. *)
Lemma page_task_from_fuel_1 fuel dbKeys page r r1 ids :
  go_slice dbKeys (Low page) (High page) = Some ids ->
  page_task 1 h model dbKeys page = Some r1 ->
  page_task fuel h model dbKeys page = Some r -> r = r1.
Proof.
  intros Hslice H1 Hfuel. destruct fuel as [|fuel].
  - unfold page_task, loadPage in Hfuel. by rewrite Hslice in Hfuel.
  - apply (page_task_fuel_le 1 (S fuel)) in H1; [congruence | lia].
Qed.

End LoadFacts.

(** *** The bulk read of 29 keys *)

(** The two pages of 29 keys. *)
Lemma pages_of_29_keys :
  Partition (Z.of_nat (length (test_keys 29))) 25 = [mkIdxRange 0 25; mkIdxRange 25 29].
Proof. reflexivity. Qed.

(** C1 on the code.  29 keys, a provider that returns the item of every
    requested key at once: whatever the order of the two page tasks,
    [GetByIDs] returns after the first message it receives, with the 25
    records of the first page or the 4 records of the second, never all 29;
    and it can return the first 25. *)
Theorem GetByIDs_29_keys_returns_one_page :
  (exists calls,
     GetByIDs_returns full_handler (mkTestRecord "" "") (test_keys 29) fresh_world
       (Some (take 25 (test_key_records 29))) None calls) /\
  (forall records err calls,
     GetByIDs_returns full_handler (mkTestRecord "" "") (test_keys 29) fresh_world
       records err calls ->
     err = None /\
     (records = Some (take 25 (test_key_records 29)) \/
      records = Some (drop 25 (test_key_records 29))) /\
     records <> Some (test_key_records 29)).
Proof.
  assert (H0 : exists calls,
             page_task 1 full_handler (mkTestRecord "" "") (test_keys 29) (mkIdxRange 0 25)
             = Some (Returns (mkBaseModelsWithErr (take 25 (test_key_records 29)) None),
                     calls)).
  { eexists. vm_compute. reflexivity. }
  assert (H1 : exists calls,
             page_task 1 full_handler (mkTestRecord "" "") (test_keys 29) (mkIdxRange 25 29)
             = Some (Returns (mkBaseModelsWithErr (drop 25 (test_key_records 29)) None),
                     calls)).
  { eexists. vm_compute. reflexivity. }
  destruct H0 as [calls0 H0], H1 as [calls1 H1]. split.
  - exists (batch_gets fresh_world ++ calls0).
    exact (GetByIDs_page_returns full_handler (mkTestRecord "" "") (test_keys 29)
             fresh_world 0 (mkIdxRange 0 25) 1
             (mkBaseModelsWithErr (take 25 (test_key_records 29)) None) calls0
             eq_refl H0).
  - intros records err calls Hret.
    apply (GetByIDs_returns_one_message full_handler (mkTestRecord "" "") (test_keys 29)
             fresh_world (fun _ => True)) in Hret.
    2:{ intros i page fuel o calls' _ Htask. split; [by apply Forall_true|].
        intros msg ->. by eapply page_task_calls_nonempty. }
    destruct Hret as (i & msg & new & (page & fuel & calls' & Hpage & Htask) & Hres & _).
    rewrite pages_of_29_keys in Hpage.
    destruct i as [|[|i]]; simpl in Hpage; [| |done]; injection Hpage as <-.
    + eapply page_task_from_fuel_1 in Htask; [|reflexivity|exact H0].
      injection Htask as -> _. injection Hres as -> ->.
      split; [done|]. split; [by left|]. by intros [= Habs].
    + eapply page_task_from_fuel_1 in Htask; [|reflexivity|exact H1].
      injection Htask as -> _. injection Hres as -> ->.
      split; [done|]. split; [by right|]. by intros [= Habs].
Qed.

(** C2 on the code.  29 keys, a provider that fails the batch-get of the
    second page (4 keys) and serves the first: when the first page's task
    is the one whose message the caller receives, [GetByIDs] returns its 25
    records and no error; the error of the other page is lost. *)
Theorem GetByIDs_error_of_other_page_lost :
  (exists err,
     BatchGetItemWithContext failing_handler
       (buildGetRequests failing_handler (drop 25 (test_keys 29))) = (None, Some err)) /\
  exists calls,
    GetByIDs_returns failing_handler (mkTestRecord "" "") (test_keys 29) fresh_world
      (Some (take 25 (test_key_records 29))) None calls.
Proof.
  split.
  - eexists. vm_compute. reflexivity.
  - assert (H0 : exists calls,
               page_task 1 failing_handler (mkTestRecord "" "") (test_keys 29)
                 (mkIdxRange 0 25)
               = Some (Returns (mkBaseModelsWithErr (take 25 (test_key_records 29)) None),
                       calls)).
    { eexists. vm_compute. reflexivity. }
    destruct H0 as [calls0 H0].
    exists (batch_gets fresh_world ++ calls0).
    exact (GetByIDs_page_returns failing_handler (mkTestRecord "" "") (test_keys 29)
             fresh_world 0 (mkIdxRange 0 25) 1
             (mkBaseModelsWithErr (take 25 (test_key_records 29)) None) calls0
             eq_refl H0).
Qed.

(** *** Keys that do not compile *)

Section MalformedKeys.

Context {M : Type} `{BaseModel M}.
Variables (h : handlerImp) (input : M).

(** Keys that fail compilation leave no entry in the request. *)
Lemma buildGetRequests_loop_all_fail ids attributes :
  Forall (key_fails h) ids -> buildGetRequests_loop h ids attributes = attributes.
Proof.
  induction 1 as [|id ids Hid _ IH]; simpl; [done|].
  unfold key_fails in Hid. cbv zeta in Hid.
  destruct (CreateQueryKeys _) as [attribute [err|]]; [done|].
  by destruct Hid.
Qed.

Lemma buildGetRequests_all_fail ids :
  Forall (key_fails h) ids -> buildGetRequests h ids = buildGetRequests h [].
Proof.
  intros Hall. unfold buildGetRequests.
  by rewrite (buildGetRequests_loop_all_fail ids [] Hall).
Qed.

(** A key with an empty partition key value fails compilation. *)
Lemma key_fails_empty_partition_key id :
  GetPartitionKey id = "" -> key_fails h id.
Proof.
  intros Hid. unfold key_fails. cbv zeta. rewrite Hid.
  destruct (SortKey _), (GetSortKey id); unfold CreateQueryKeys;
    (destruct (decide _) as [_|Hset]; [by eexists|]);
    exfalso; apply Hset; by right.
Qed.

Variable out : BatchGetItemOutput.
Hypothesis empty_request_answer :
  BatchGetItemWithContext h (buildGetRequests h []) = (Some out, None).
Hypothesis no_items :
  default [] (Responses out !! TableName (TableInfo (config h))) = [].
Hypothesis no_unprocessed_keys : size (UnprocessedKeys out) = 0%nat.

(** [load] on the request without keys: one call, no record, no error. *)
Lemma load_empty_request fuel records :
  load (S fuel) h input (Some (buildGetRequests h [])) records
  = Some (Returns (records, None), [buildGetRequests h []]).
Proof.
  simpl load. rewrite empty_request_answer, no_items, no_unprocessed_keys. simpl.
  by destruct (decide (0 < size (Responses out))%nat).
Qed.

(** The task of a page of keys that all fail: its one call carries no key
    and its message has no record and no error. *)
Lemma page_task_all_fail dbKeys page fuel :
  Forall (key_fails h) dbKeys ->
  0 <= Low page -> Low page <= High page -> High page <= Z.of_nat (length dbKeys) ->
  page_task fuel h input dbKeys page
  = match fuel with
    | O => None
    | S _ => Some (Returns (mkBaseModelsWithErr [] None), [buildGetRequests h []])
    end.
Proof.
  intros Hall Hlo Hle Hhi. unfold page_task, go_slice.
  destruct (decide _) as [_|Hout]; [|lia].
  rewrite buildGetRequests_all_fail
    by (by apply Forall_take, Forall_drop).
  unfold loadPage. destruct fuel as [|fuel]; [done|].
  by rewrite load_empty_request.
Qed.

End MalformedKeys.

(** C3, as the code has it.  For a non-empty key list in which every key
    fails key compilation, each page task that runs does issue a batch-get
    call, whose key list is empty; when the provider answers that call with
    no item, no unprocessed key and no error, [GetByIDs] returns an empty
    record list and no error, and it does return. *)
Theorem GetByIDs_all_keys_fail {M : Type} `{BaseModel M}
  (h : handlerImp) (input : M) (dbKeys : list dbPSKeyValues) (w : world)
  (out : BatchGetItemOutput) :
  dbKeys <> [] -> Z.of_nat (length dbKeys) <= GoInt.max_int ->
  Forall (key_fails h) dbKeys ->
  BatchGetItemWithContext h (buildGetRequests h []) = (Some out, None) ->
  default [] (Responses out !! TableName (TableInfo (config h))) = [] ->
  size (UnprocessedKeys out) = 0%nat ->
  (exists calls, GetByIDs_returns h input dbKeys w (Some []) None calls) /\
  (forall records err calls,
     GetByIDs_returns h input dbKeys w records err calls ->
     records = Some [] /\ err = None /\
     exists new, calls = batch_gets w ++ new /\ new <> [] /\
                 Forall (fun call => call = buildGetRequests h []) new).
Proof.
  intros Hne Hmax Hall Hanswer Hitems Hkeys.
  destruct (Partition_spec (Z.of_nat (length dbKeys)) 25) as (Hlen & Htiles & _).
  { lia. } { unfold GoInt.max_int. lia. }
  assert (Hbounds : forall i page,
             Partition (Z.of_nat (length dbKeys)) 25 !! i = Some page ->
             0 <= Low page /\ Low page <= High page /\
             High page <= Z.of_nat (length dbKeys)).
  { intros i page Hpage. apply list_elem_of_lookup_2 in Hpage.
    pose proof (tiles_bounds _ _ _ _ Htiles Hpage). lia. }
  assert (Htask : forall i page fuel,
             Partition (Z.of_nat (length dbKeys)) 25 !! i = Some page ->
             page_task fuel h input dbKeys page
             = match fuel with
               | O => None
               | S _ => Some (Returns (mkBaseModelsWithErr [] None),
                              [buildGetRequests h []])
               end).
  { intros i page fuel Hpage. destruct (Hbounds i page Hpage) as (? & ? & ?).
    by eapply page_task_all_fail. }
  split.
  - destruct (Partition (Z.of_nat (length dbKeys)) 25) as [|page pages] eqn:Hpages.
    + exfalso. destruct dbKeys as [|id ids]; [done|].
      simpl length in Hlen. unfold ceil_div in Hlen.
      assert (1 <= (Z.of_nat (S (length ids)) + 25 - 1) `div` 25)
        by (apply Z.div_le_lower_bound; lia).
      simpl in Hlen. lia.
    + exists (batch_gets w ++ [buildGetRequests h []]).
      pose proof (GetByIDs_page_returns h input dbKeys w 0 page 1
                    (mkBaseModelsWithErr [] None) [buildGetRequests h []]) as Hret.
      rewrite Hpages in Hret. apply Hret; [done|].
      rewrite <- Hpages in Htask. by rewrite (Htask 0%nat page 1%nat)
        by (by rewrite Hpages).
  - intros records err calls Hret.
    apply (GetByIDs_returns_one_message h input dbKeys w
             (fun call => call = buildGetRequests h [])) in Hret.
    2:{ intros i page fuel o calls' Hpage Hrun.
        rewrite (Htask i page fuel Hpage) in Hrun.
        destruct fuel; [done|]. injection Hrun as <- <-.
        split; [by constructor|done]. }
    destruct Hret as (i & msg & new & (page & fuel & calls' & Hpage & Hrun)
                      & Hres & Hcalls & Hnew & Hnonempty).
    rewrite (Htask i page fuel Hpage) in Hrun.
    destruct fuel; [done|]. injection Hrun as <- <-.
    injection Hres as -> ->. split; [done|]. split; [done|]. by exists new.
Qed.

(** C3 at the input of the test "with wrong input (missing partition key)",
    on the provider that holds every item. *)
Lemma GetByIDs_all_keys_fail_witness :
  (exists calls,
     GetByIDs_returns full_handler (mkTestRecord "" "")
       [mkDbPSKeyValues "" (Some "sKey")] fresh_world (Some []) None calls) /\
  (forall records err calls,
     GetByIDs_returns full_handler (mkTestRecord "" "")
       [mkDbPSKeyValues "" (Some "sKey")] fresh_world records err calls ->
     records = Some [] /\ err = None /\
     exists new, calls = batch_gets fresh_world ++ new /\ new <> [] /\
                 Forall (fun call => call = buildGetRequests full_handler []) new).
Proof.
  apply (GetByIDs_all_keys_fail full_handler (mkTestRecord "" "")
           [mkDbPSKeyValues "" (Some "sKey")] fresh_world
           (mkBatchGetItemOutput {[ "table" := [] ]} ∅)).
  - done.
  - vm_compute. discriminate.
  - constructor; [|constructor]. vm_compute. by eexists.
  - vm_compute. reflexivity.
  - vm_compute. reflexivity.
  - vm_compute. reflexivity.
Defined.

(** C3 fails as stated: for the one key of that test, whose partition key
    value is empty, [GetByIDs] returns having issued a batch-get call. *)
Lemma GetByIDs_malformed_key_is_requested :
  key_fails full_handler (mkDbPSKeyValues "" (Some "sKey")) /\
  GetByIDs_returns full_handler (mkTestRecord "" "")
    [mkDbPSKeyValues "" (Some "sKey")] fresh_world (Some []) None
    [mkBatchGetItemInput {[ "table" := mkKeysAndAttributes [] ]}].
Proof.
  split.
  - vm_compute. by eexists.
  - exact (GetByIDs_page_returns full_handler (mkTestRecord "" "")
             [mkDbPSKeyValues "" (Some "sKey")] fresh_world 0 (mkIdxRange 0 1) 1
             (mkBaseModelsWithErr [] None)
             [mkBatchGetItemInput {[ "table" := mkKeysAndAttributes [] ]}]
             eq_refl eq_refl).
Qed.

(** ** The expression wrapper *)

Section ExpressionFacts.

Import expression.

(** [Build] of a builder that holds a filter and a key condition: the
    filter is formatted first, the key condition after it, with the aliases
    the filter left. *)
Lemma Build_filter_and_key cond kc st :
  Build (WithKeyCondition (WithFilter NewBuilder cond) kc) st
  = match ConditionBuilder_buildTree cond with
    | Err err => (Expression_zero, Some err)
    | Ok nf =>
      match buildExpressionString nf (mkAliasList [] []) with
      | Err err => (Expression_zero, Some err)
      | Ok (sf, al1) =>
        match KeyConditionBuilder_buildTree kc with
        | Err err => (Expression_zero, Some err)
        | Ok nk =>
          match buildExpressionString nk al1 with
          | Err err => (Expression_zero, Some err)
          | Ok (sk, al2) =>
              (mkExpression
                 (Some (<[keyCondition := sk]> (<[filter := sf]> ∅)))
                 (if decide (length (namesList al2) = 0%nat) then None
                  else Some (alias_map "#" (namesList al2) 0))
                 (if decide (length (valuesList al2) = 0%nat) then None
                  else Some (alias_map ":" (valuesList al2) 0)),
               None)
          end
        end
      end
    end.
Proof.
  unfold Build, WithKeyCondition, WithFilter, NewBuilder. simpl expressionMap.
  destruct (decide _) as [Hempty|_].
  { exfalso. apply (f_equal (fun m => m !! keyCondition)) in Hempty.
    by rewrite lookup_insert_eq, lookup_empty in Hempty. }
  set (m := <[keyCondition := _]> _).
  assert (Hc : m !! condition = None) by done.
  assert (Hf : m !! filter = Some (ConditionTree cond)) by done.
  assert (Hk : m !! keyCondition = Some (KeyConditionTree kc))
    by (apply lookup_insert_eq).
  assert (Hu : m !! update = None) by done.
  unfold sorted_types. cbn [buildChildTrees].
  rewrite Hc, Hf. cbn [buildTree].
  destruct (ConditionBuilder_buildTree cond) as [nf|err]; [|done].
  cbn [mbind result_bind].
  destruct (buildExpressionString nf _) as [[sf al1]|err]; [|done].
  cbn [mbind result_bind]. rewrite Hk. cbn [buildTree].
  destruct (KeyConditionBuilder_buildTree kc) as [nk|err]; [|done].
  cbn [mbind result_bind].
  destruct (buildExpressionString nk al1) as [[sk al2]|err]; [|done].
  cbn [mbind result_bind]. rewrite Hu. done.
Qed.

(** When [Build] returns an error, the expression it returns is empty. *)
Lemma Build_error b st err :
  (Build b st).2 = Some err -> (Build b st).1 = Expression_zero.
Proof.
  unfold Build. destruct (decide _); [done|].
  by destruct (buildChildTrees _ _ _ _ _) as [[? ?]|?].
Qed.

End ExpressionFacts.

(** [scan_pagination] leaves the expression members alone. *)
Lemma scan_pagination_expressions expr input :
  Scan_TableName (scan_pagination expr input) = Scan_TableName input /\
  FilterExpression (scan_pagination expr input) = FilterExpression input /\
  Scan_ExpressionAttributeNames (scan_pagination expr input)
    = Scan_ExpressionAttributeNames input /\
  Scan_ExpressionAttributeValues (scan_pagination expr input)
    = Scan_ExpressionAttributeValues input.
Proof.
  unfold scan_pagination.
  destruct (limit expr) as [l|]; [destruct (decide (l >= 1))|];
    destruct (decide (0 < size (exclusiveStartKey expr))%nat); done.
Qed.

(** C5.  For a wrapper with a table name, a filter condition and a key
    condition, [BuildScanInput] returns a request whose filter position and
    alias maps are those of the compilation that holds the key condition:
    the filter position is the key-condition member of that compilation,
    not its filter member.  When both conditions compile, it is the text of
    the key condition, formatted after the filter with the aliases the
    filter left, and the alias maps are those of both; when the compilation
    fails, the filter position is empty.  The request built from the filter
    alone is dropped in every case. *)
Theorem BuildScanInput_key_condition_in_filter_position
  (expr : AwsExpressionWrapper) (st : expression.store) :
  String.length (dynamoDBTable expr) <> 0%nat ->
  DeepEqual_ConditionBuilder_zero (conditionExpression expr) = false ->
  DeepEqual_KeyConditionBuilder_zero (keyCondition expr) = false ->
  exists input,
    let both :=
      expression.Build
        (expression.WithKeyCondition
           (expression.WithFilter expression.NewBuilder (conditionExpression expr))
           (keyCondition expr)) st in
    BuildScanInput expr st = (Some input, None) /\
    Scan_TableName input = Some (dynamoDBTable expr) /\
    FilterExpression input = expression.KeyCondition both.1 /\
    Scan_ExpressionAttributeNames input = expression.Names both.1 /\
    Scan_ExpressionAttributeValues input = expression.Values both.1 /\
    (forall nf sf al1 nk sk al2,
       expression.ConditionBuilder_buildTree (conditionExpression expr) = Ok nf ->
       expression.buildExpressionString nf (expression.mkAliasList [] []) = Ok (sf, al1) ->
       expression.KeyConditionBuilder_buildTree (keyCondition expr) = Ok nk ->
       expression.buildExpressionString nk al1 = Ok (sk, al2) ->
       FilterExpression input = Some sk /\
       Scan_ExpressionAttributeNames input
         = (if decide (length (expression.namesList al2) = 0%nat) then None
            else Some (expression.alias_map "#" (expression.namesList al2) 0)) /\
       Scan_ExpressionAttributeValues input
         = (if decide (length (expression.valuesList al2) = 0%nat) then None
            else Some (expression.alias_map ":" (expression.valuesList al2) 0))) /\
    (forall err, both.2 = Some err ->
       FilterExpression input = None /\
       Scan_ExpressionAttributeNames input = None /\
       Scan_ExpressionAttributeValues input = None).
Proof.
  intros Htable Hcond Hkey.
  unfold BuildScanInput. destruct (decide _) as [|_]; [done|].
  rewrite Hcond. cbn [negb DeepEqual_KeyConditionBuilder_ConditionBuilder].
  destruct (expression.Build (expression.WithFilter _ _) st) as [filterOnly ?].
  set (both := expression.Build _ st).
  destruct both as [e err] eqn:Hboth.
  eexists. cbn zeta. split; [reflexivity|].
  destruct (scan_pagination_expressions expr
              (mkScanInput (expression.Names e) (expression.Values e)
                 (expression.KeyCondition e) (Some (dynamoDBTable expr)) None ∅))
    as (-> & -> & -> & ->). cbn [fst snd].
  do 4 (split; [reflexivity|]). split.
  - intros nf sf al1 nk sk al2 Hnf Hsf Hnk Hsk.
    subst both. rewrite Build_filter_and_key, Hnf, Hsf, Hnk, Hsk in Hboth.
    injection Hboth as <- <-. cbn. split; [|done].
    unfold expression.KeyCondition, expression.returnExpression. cbn.
    apply lookup_insert_eq.
  - intros err' ->. subst both.
    pose proof (Build_error _ st err' ltac:(by rewrite Hboth)) as Hzero.
    rewrite Hboth in Hzero. cbn in Hzero. subst e. clear Hboth.
    repeat split; reflexivity.
Qed.

(** C5 at the filter of the package documentation. *)
Lemma BuildScanInput_key_condition_in_filter_position_witness :
  exists input,
    let both :=
      expression.Build
        (expression.WithKeyCondition
           (expression.WithFilter expression.NewBuilder
              (conditionExpression documented_scan_filter))
           (keyCondition documented_scan_filter)) [] in
    BuildScanInput documented_scan_filter [] = (Some input, None) /\
    Scan_TableName input = Some (dynamoDBTable documented_scan_filter) /\
    FilterExpression input = expression.KeyCondition both.1 /\
    Scan_ExpressionAttributeNames input = expression.Names both.1 /\
    Scan_ExpressionAttributeValues input = expression.Values both.1 /\
    (forall nf sf al1 nk sk al2,
       expression.ConditionBuilder_buildTree (conditionExpression documented_scan_filter)
         = Ok nf ->
       expression.buildExpressionString nf (expression.mkAliasList [] []) = Ok (sf, al1) ->
       expression.KeyConditionBuilder_buildTree (keyCondition documented_scan_filter)
         = Ok nk ->
       expression.buildExpressionString nk al1 = Ok (sk, al2) ->
       FilterExpression input = Some sk /\
       Scan_ExpressionAttributeNames input
         = (if decide (length (expression.namesList al2) = 0%nat) then None
            else Some (expression.alias_map "#" (expression.namesList al2) 0)) /\
       Scan_ExpressionAttributeValues input
         = (if decide (length (expression.valuesList al2) = 0%nat) then None
            else Some (expression.alias_map ":" (expression.valuesList al2) 0))) /\
    (forall err, both.2 = Some err ->
       FilterExpression input = None /\
       Scan_ExpressionAttributeNames input = None /\
       Scan_ExpressionAttributeValues input = None).
Proof.
  apply (BuildScanInput_key_condition_in_filter_position documented_scan_filter []).
  - vm_compute. discriminate.
  - reflexivity.
  - reflexivity.
Defined.

(** The scan request of the package documentation's filter: the filter
    position holds the key condition on [first_name]; the condition on
    [last_name] is left in the alias maps only. *)
Example BuildScanInput_documented_filter :
  exists input,
    BuildScanInput documented_scan_filter [] = (Some input, None) /\
    FilterExpression input = Some "#1 = :1" /\
    Scan_ExpressionAttributeNames input
      = Some {[ "#0" := "last_name"; "#1" := "first_name" ]} /\
    Scan_ExpressionAttributeValues input
      = Some {[ ":0" := AttrS "abu"; ":1" := AttrS "saddam" ]} /\
    Scan_Limit input = Some 10.
Proof. eexists. split; [reflexivity|]. vm_compute. repeat split. Qed.

(** *** Update fields *)

Section UpdateFacts.

Import expression.

(** The first [WithUpdateField] on a wrapper allocates the map of actions
    and puts its own in it. *)
Lemma WithUpdateField_first name value expr st :
  updateExpression expr = UpdateBuilder_zero ->
  update_holds (WithUpdateField name value expr st).1
               (WithUpdateField name value expr st).2
               [set_operation (name, value)] /\
  CreateQueryKeys (WithUpdateField name value expr st).1 = CreateQueryKeys expr /\
  dynamoDBTable (WithUpdateField name value expr st).1 = dynamoDBTable expr.
Proof.
  intros Hzero. unfold WithUpdateField. rewrite Hzero. simpl.
  split; [|done]. exists (length st). split; [done|].
  rewrite list_lookup_insert_eq by (rewrite length_app; simpl; lia).
  rewrite lookup_app_r by lia. rewrite Nat.sub_diag. simpl.
  rewrite lookup_empty. simpl. by rewrite insert_empty.
Qed.

(** Every later [WithUpdateField] appends its action to that map: the
    builder the wrapper holds is not replaced, and the map it refers to
    keeps the earlier actions. *)
Lemma WithUpdateField_next name value expr st ops :
  update_holds expr st ops ->
  update_holds (WithUpdateField name value expr st).1
               (WithUpdateField name value expr st).2
               (ops ++ [set_operation (name, value)]) /\
  (WithUpdateField name value expr st).1 = expr.
Proof.
  intros (ref & Href & Hmap). unfold WithUpdateField, DeepEqual_UpdateBuilder_zero.
  rewrite Href. unfold UpdateBuilder_Set. rewrite Href, Hmap. simpl.
  split; [|done]. exists ref. split; [done|].
  rewrite list_lookup_insert_eq by (by eapply lookup_lt_Some).
  rewrite lookup_singleton_eq. simpl. by rewrite insert_singleton_eq.
Qed.

Lemma WithUpdateFields_next fields expr st ops :
  update_holds expr st ops ->
  update_holds (WithUpdateFields fields expr st).1 (WithUpdateFields fields expr st).2
               (ops ++ (set_operation <$> fields)) /\
  (WithUpdateFields fields expr st).1 = expr.
Proof.
  revert expr st ops. induction fields as [|[name value] fields IH]; intros expr st ops Hops.
  - simpl. by rewrite app_nil_r.
  - unfold WithUpdateFields. simpl.
    destruct (WithUpdateField_next name value expr st ops Hops) as [Hnext Hsame].
    destruct (WithUpdateField name value expr st) as [expr1 st1]. simpl in *.
    destruct (IH expr1 st1 _ Hnext) as [Hall Hsame'].
    unfold WithUpdateFields in Hall, Hsame'.
    rewrite <- app_assoc in Hall. simpl in Hall. split; [done|congruence].
Qed.

(** A chain of at least one [WithUpdateField] on a wrapper without update
    fields leaves the actions of all its fields, in order. *)
Lemma WithUpdateFields_holds fields expr st :
  updateExpression expr = UpdateBuilder_zero -> fields <> [] ->
  update_holds (WithUpdateFields fields expr st).1 (WithUpdateFields fields expr st).2
               (set_operation <$> fields) /\
  CreateQueryKeys (WithUpdateFields fields expr st).1 = CreateQueryKeys expr /\
  dynamoDBTable (WithUpdateFields fields expr st).1 = dynamoDBTable expr.
Proof.
  intros Hzero Hne. destruct fields as [|[name value] fields]; [done|].
  unfold WithUpdateFields. simpl.
  destruct (WithUpdateField_first name value expr st Hzero) as (Hfirst & Hkeys & Htable).
  destruct (WithUpdateField name value expr st) as [expr1 st1]. simpl in *.
  destruct (WithUpdateFields_next fields expr1 st1 _ Hfirst) as [Hall Hsame].
  unfold WithUpdateFields in Hall, Hsame.
  split; [exact Hall|]. rewrite Hsame. by split.
Qed.

Lemma set_operations_holds expr st ops :
  update_holds expr st ops -> set_operations expr st = ops.
Proof.
  intros (ref & Href & Hmap). unfold set_operations.
  rewrite Href, Hmap. simpl. by rewrite lookup_singleton_eq.
Qed.

Lemma buildOperations_Forall2 ops nodes :
  buildOperations ops = Ok nodes ->
  Forall2 (fun op node => buildOperation op = Ok node) ops nodes.
Proof.
  revert nodes. induction ops as [|op ops IH]; intros nodes; simpl.
  - intros [= <-]. constructor.
  - destruct (buildOperation op) as [node|] eqn:Hop; [|done]. simpl.
    destruct (buildOperations ops) as [nodes'|]; [|done]. simpl.
    intros [= <-]. constructor; [done|]. by apply IH.
Qed.

(** [Build] of a builder that holds an update whose map has SET actions
    only: the clause is the formatting of [SET] over the actions' nodes. *)
Lemma Build_update ub st ref ops :
  operationList ub = Some ref ->
  st !! ref = Some ({[ setOperation := ops ]} : gmap string (list operationBuilder)) ->
  Build (WithUpdate NewBuilder ub) st
  = if decide (length ops = 0%nat) then
      (Expression_zero,
       Some (errorString "buildChildNodes error: operationBuilder list is empty"))
    else
      match buildOperations ops with
      | Err err => (Expression_zero, Some err)
      | Ok nodes =>
          match buildExpressionString (set_clause nodes) (mkAliasList [] []) with
          | Err err => (Expression_zero, Some err)
          | Ok (s, al) =>
              (mkExpression
                 (Some (<[update := s]> ∅))
                 (if decide (length (namesList al) = 0%nat) then None
                  else Some (alias_map "#" (namesList al) 0))
                 (if decide (length (valuesList al) = 0%nat) then None
                  else Some (alias_map ":" (valuesList al) 0)),
               None)
          end
      end.
Proof.
  intros Href Hmap.
  unfold Build, WithUpdate, NewBuilder. simpl expressionMap.
  destruct (decide _) as [Hempty|_].
  { exfalso. apply (f_equal (fun m => m !! update)) in Hempty.
    by rewrite lookup_insert_eq, lookup_empty in Hempty. }
  set (m := <[update := _]> _).
  assert (Hc : m !! condition = None) by done.
  assert (Hf : m !! filter = None) by done.
  assert (Hk : m !! keyCondition = None) by done.
  assert (Hu : m !! update = Some (UpdateTree ub)) by (apply lookup_insert_eq).
  unfold sorted_types. cbn [buildChildTrees].
  rewrite Hc, Hf, Hk, Hu. cbn [buildTree].
  unfold UpdateBuilder_buildTree. rewrite Href, Hmap. simpl (default _ _).
  set (actions := {[ setOperation := ops ]} : gmap string (list operationBuilder)).
  assert (Ha : actions !! addOperation = None) by done.
  assert (Hd : actions !! deleteOperation = None) by done.
  assert (Hr : actions !! removeOperation = None) by done.
  assert (Hs : actions !! setOperation = Some ops) by (apply lookup_singleton_eq).
  unfold sorted_modes. cbn [buildModes]. rewrite Ha, Hd, Hr, Hs.
  unfold buildChildNodes.
  destruct (decide (length ops = 0%nat)) as [Hlen|Hlen]; [done|].
  destruct (buildOperations ops) as [nodes|err] eqn:Hnodes; [|done].
  cbn [mbind result_bind fst snd].
  assert (Hlen' : length nodes = length ops).
  { apply buildOperations_Forall2 in Hnodes. by apply Forall2_length in Hnodes. }
  unfold set_clause. rewrite Hlen'.
  destruct (buildExpressionString _ _) as [[s al]|err]; done.
Qed.

End UpdateFacts.


(** *** Formatting *)

Section FormattingFacts.

Import expression.

Lemma append_nil (s : string) : "" +:+ s = s.
Proof. reflexivity. Qed.

Lemma append_cons (c : ascii) (s t : string) : String c s +:+ t = String c (s +:+ t).
Proof. reflexivity. Qed.

Lemma append_nil_r (s : string) : s +:+ "" = s.
Proof. induction s as [|c s IH]; [done|]. by rewrite append_cons, IH. Qed.

(** A byte other than ['$'] is copied. *)
Lemma substitute_other c rest names values children al :
  c <> "$"%char ->
  substitute (String c rest) names values children al
  = '(out, al1) ← substitute rest names values children al; Ok (String c out, al1).
Proof.
  intros Hc. destruct c as [b0 b1 b2 b3 b4 b5 b6 b7].
  destruct b0, b1, b2, b3, b4, b5, b6, b7; try reflexivity.
  by destruct Hc.
Qed.

(** A text without ['$'] is copied. *)
Lemma substitute_literal lit rest names values children al :
  dollar_free lit = true ->
  substitute (lit +:+ rest) names values children al
  = '(out, al1) ← substitute rest names values children al; Ok (lit +:+ out, al1).
Proof.
  induction lit as [|c lit IH]; intros Hfree.
  - rewrite append_nil.
    by destruct (substitute rest names values children al) as [[out al1]|err].
  - simpl in Hfree. apply andb_true_iff in Hfree as [Hc Hfree].
    apply negb_true_iff, Ascii.eqb_neq in Hc.
    rewrite append_cons, substitute_other, IH by done.
    by destruct (substitute rest names values children al) as [[out al1]|err].
Qed.

(** [$n] takes the alias of the next name. *)
Lemma substitute_name rest nm names values children al :
  substitute (String "$" (String "n" rest)) (nm :: names) values children al
  = '(out, al2) ← substitute rest names values children (aliasPath al nm).2;
    Ok ((aliasPath al nm).1 +:+ out, al2).
Proof. simpl. by destruct (aliasPath al nm). Qed.

(** [$c] takes the formatted next child. *)
Lemma substitute_child rest names values child children al :
  substitute (String "$" (String "c" rest)) names values (child :: children) al
  = '(alias, al1) ← child al;
    '(out, al2) ← substitute rest names values children al1;
    Ok (alias +:+ out, al2).
Proof. reflexivity. Qed.

Lemma aliasPath_values al nm : valuesList (aliasPath al nm).2 = valuesList al.
Proof. unfold aliasPath. by destruct (index_of _ _ _). Qed.

Lemma index_of_Some nm l ind found : index_of nm l ind = Some found -> nm ∈ l.
Proof.
  revert ind. induction l as [|name l IH]; intros ind; simpl; [done|].
  destruct (decide (nm = name)) as [->|_]; [set_solver|].
  intros Hfound. apply IH in Hfound. set_solver.
Qed.

Lemma aliasPath_names al nm :
  namesList al ⊆ namesList (aliasPath al nm).2 /\ nm ∈ namesList (aliasPath al nm).2.
Proof.
  unfold aliasPath. destruct (index_of _ _ _) as [found|] eqn:Hfound; simpl.
  - split; [done|]. by eapply index_of_Some.
  - split; set_solver.
Qed.

(** The children of a node are formatted by [buildExpressionString]. *)
Lemma buildExpressionString_node names values children fmtExpr :
  buildExpressionString (ExprNode names values children fmtExpr)
  = substitute fmtExpr names values (buildExpressionString <$> children).
Proof. reflexivity. Qed.

(** A list of [$c], separated by commas, over children that format. *)
Lemma substitute_more_children children (specs : list (list string * AttributeValue)) al :
  Forall2 (fun child spec => appends child spec.1 [spec.2]) children specs ->
  exists s al',
    substitute (strings_Repeat ", $c" (length children)) [] [] children al = Ok (s, al') /\
    valuesList al' = valuesList al ++ specs.*2 /\
    namesList al ⊆ namesList al' /\
    Forall (fun spec => spec.1 ⊆ namesList al') specs.
Proof.
  intros Hall. revert al.
  induction Hall as [|child spec children specs Hchild _ IH]; intros al.
  - eexists _, _. split; [done|]. by rewrite app_nil_r.
  - simpl. rewrite append_nil.
    destruct (Hchild al) as (s1 & al1 & -> & Hal1 & Hkeeps1 & Hnames1). simpl.
    destruct (IH al1) as (s2 & al2 & -> & Hal2 & Hkeeps2 & Hnames2). simpl.
    eexists _, _. split; [done|].
    split; [by rewrite Hal2, Hal1, <-app_assoc|].
    split; [set_solver|]. constructor; [set_solver|done].
Qed.

Lemma substitute_children child spec children
  (specs : list (list string * AttributeValue)) al :
  Forall2 (fun child spec => appends child spec.1 [spec.2])
          (child :: children) (spec :: specs) ->
  exists s al',
    substitute ("$c" +:+ strings_Repeat ", $c" (length (child :: children) - 1))
      [] [] (child :: children) al = Ok (s, al') /\
    valuesList al' = valuesList al ++ (spec :: specs).*2 /\
    namesList al ⊆ namesList al' /\
    Forall (fun spec => spec.1 ⊆ namesList al') (spec :: specs).
Proof.
  intros Hall. apply Forall2_cons in Hall as [Hchild Hall].
  simpl. rewrite Nat.sub_0_r, ?append_cons, ?append_nil. simpl.
  destruct (Hchild al) as (s1 & al1 & -> & Hal1 & Hkeeps1 & Hnames1). simpl.
  destruct (substitute_more_children children specs al1 Hall)
    as (s2 & al2 & -> & Hal2 & Hkeeps2 & Hnames2).
  simpl. eexists _, _. split; [done|].
  split; [by rewrite Hal2, Hal1, <-app_assoc|].
  split; [set_solver|]. constructor; [set_solver|done].
Qed.

(** *** Names without ['$'] *)

Lemma split_dot_dollar_free s :
  dollar_free s = true -> Forall (fun w => dollar_free w = true) (split_dot s).
Proof.
  induction s as [|c s IH]; simpl; intros Hfree; [by constructor|].
  apply andb_true_iff in Hfree as [Hc Hfree]. specialize (IH Hfree).
  destruct (Ascii.eqb c "."); [by constructor|].
  destruct (split_dot s) as [|w ws]; constructor; simpl; try done.
  - by rewrite Hc.
  - apply Forall_cons in IH as [Hw _]. by rewrite Hc, Hw.
  - by apply Forall_cons in IH as [_ Hws].
Qed.

Lemma cut_at_bracket_dollar_free word :
  dollar_free word = true -> dollar_free (cut_at_bracket word).2 = true.
Proof.
  induction word as [|c word IH]; simpl; intros Hfree; [done|].
  destruct (Ascii.eqb c "["); [done|].
  apply andb_true_iff in Hfree as [_ Hfree]. specialize (IH Hfree).
  by destruct (cut_at_bracket word).
Qed.

(** One template piece per word. *)
Lemma name_words_length words names fmtNames :
  name_words words = Ok (names, fmtNames) -> length names = length fmtNames.
Proof.
  revert names fmtNames. induction words as [|word words IH]; intros names fmtNames; simpl.
  - by intros [= <- <-].
  - destruct (decide (word = "")); [done|].
    destruct (if decide (last_byte word = Some "]"%char)
              then cut_at_bracket word else (word, "")) as [word' substr].
    destruct (decide (word' = "")); [done|].
    destruct (name_words words) as [[names' fmtNames']|]; [|done].
    simpl. intros [= <- <-]. simpl. f_equal. by apply IH.
Qed.

(** The template of a path formats over the path's words, which are then
    among the names. *)
Lemma name_words_formats words :
  Forall (fun w => dollar_free w = true) words ->
  forall names fmtNames al,
    name_words words = Ok (names, fmtNames) ->
    exists s al',
      substitute (join_dot fmtNames) names [] [] al = Ok (s, al') /\
      valuesList al' = valuesList al /\
      namesList al ⊆ namesList al' /\
      names ⊆ namesList al'.
Proof.
  induction 1 as [|word words Hword _ IH]; intros names fmtNames al; simpl.
  - intros [= <- <-]. eexists _, _. repeat split; [done|set_solver].
  - destruct (decide (word = "")); [done|].
    destruct (if decide (last_byte word = Some "]"%char)
              then cut_at_bracket word else (word, "")) as [word' substr] eqn:Hcut.
    assert (dollar_free substr = true) as Hsubstr.
    { destruct (decide _).
      - apply cut_at_bracket_dollar_free in Hword. by rewrite Hcut in Hword.
      - by injection Hcut as <- <-. }
    destruct (decide (word' = "")); [done|].
    destruct (name_words words) as [[names' fmtNames']|] eqn:Hrest; [|done].
    simpl. intros [= <- <-].
    destruct (aliasPath_names al word') as [Hkeeps Hword'].
    destruct fmtNames' as [|fmtName fmtNames'].
    + apply name_words_length in Hrest. destruct names' as [|? ?]; [|done].
      change (join_dot ["$n" +:+ substr]) with ("$n" +:+ substr).
      rewrite !append_cons, append_nil, substitute_name.
      rewrite <-(append_nil_r substr), substitute_literal by done. simpl.
      eexists _, _. split; [done|]. split; [apply aliasPath_values|].
      split; [done|]. intros x Hx. apply list_elem_of_singleton in Hx. by subst.
    + change (join_dot (("$n" +:+ substr) :: fmtName :: fmtNames'))
        with (("$n" +:+ substr) +:+ "." +:+ join_dot (fmtName :: fmtNames')).
      rewrite !append_cons, !append_nil, substitute_name.
      rewrite substitute_literal by done. rewrite ?append_cons, ?append_nil.
      rewrite substitute_other by done.
      destruct (IH names' (fmtName :: fmtNames') (aliasPath al word').2 eq_refl)
        as (s & al' & -> & Hal & Hkeeps' & Hnames').
      simpl. eexists _, _. split; [done|]. split; [by rewrite Hal, aliasPath_values|].
      split; [by etrans|].
      intros x Hx. apply elem_of_cons in Hx as [->|Hx]; [by apply Hkeeps'|by apply Hnames'].
Qed.

(** A path without ['$'] that [Name] accepts formats; it adds no value and
    leaves its words among the names. *)
Lemma BuildOperand_Name_formats name node :
  dollar_free name = true ->
  BuildOperand (Name name) = Ok node ->
  appends (buildExpressionString node) (path_words name) [].
Proof.
  intros Hfree. unfold path_words. simpl. destruct (decide (name = "")); [done|].
  destruct (name_words (split_dot name)) as [[names fmtNames]|] eqn:Hwords; [|done].
  simpl. intros [= <-] al.
  destruct (name_words_formats _ (split_dot_dollar_free _ Hfree) _ _ al Hwords)
    as (s & al' & Hs & Hal & Hkeeps & Hnames).
  exists s, al'. split; [done|]. by rewrite app_nil_r.
Qed.

(** The assignment of a field that builds: its node formats, leaves the
    words of the field's name among the names and adds the field's value. *)
Lemma buildOperation_set_formats field :
  field_builds field = true ->
  exists node av,
    buildOperation (set_operation field) = Ok node /\
    dynamodbattribute_Marshal field.2 = Ok av /\
    appends (buildExpressionString node) (path_words field.1) [av].
Proof.
  unfold field_builds, buildOperation, set_operation, Name.
  destruct (BuildOperand (NameBuilder field.1)) as [pathChild|] eqn:Hpath; [|done].
  destruct (dynamodbattribute_Marshal field.2) as [av|] eqn:Hvalue; [|done].
  intros Hfree. cbn [op_name op_mode op_value]. rewrite Hpath. simpl.
  rewrite Hvalue. eexists _, av. split; [done|]. split; [done|].
  intros al. rewrite buildExpressionString_node. simpl.
  destruct (BuildOperand_Name_formats _ _ Hfree Hpath al)
    as (s1 & al1 & -> & Hal1 & Hkeeps & Hnames).
  simpl. eexists _, _. split; [done|]. simpl. rewrite Hal1, app_nil_r. done.
Qed.

Lemma buildOperations_set_formats fields :
  forallb field_builds fields = true ->
  exists nodes specs,
    buildOperations (set_operation <$> fields) = Ok nodes /\
    Forall2 (fun field spec =>
               path_words field.1 = spec.1 /\
               dynamodbattribute_Marshal field.2 = Ok spec.2) fields specs /\
    Forall2 (fun child spec => appends child spec.1 [spec.2])
            (buildExpressionString <$> nodes) specs.
Proof.
  induction fields as [|field fields IH]; intros Hall.
  - exists [], []. by repeat constructor.
  - simpl in Hall. apply andb_true_iff in Hall as [Hfield Hall].
    destruct (buildOperation_set_formats field Hfield) as (node & av & Hnode & Hav & Happ).
    destruct (IH Hall) as (nodes & specs & Hnodes & Hspecs & Happs).
    exists (node :: nodes), ((path_words field.1, av) :: specs). split.
    { rewrite fmap_cons. cbn [buildOperations]. by rewrite Hnode, Hnodes. }
    split; by constructor.
Qed.

(** The update clause over assignments that format. *)
Lemma set_clause_formats nodes (specs : list (list string * AttributeValue)) al :
  nodes <> [] ->
  Forall2 (fun child spec => appends child spec.1 [spec.2])
          (buildExpressionString <$> nodes) specs ->
  exists s al',
    buildExpressionString (set_clause nodes) al = Ok (s, al') /\
    valuesList al' = valuesList al ++ specs.*2 /\
    Forall (fun spec => spec.1 ⊆ namesList al') specs.
Proof.
  intros Hnodes Hall. unfold set_clause.
  rewrite buildExpressionString_node, list_fmap_singleton.
  change ("SET $c" +:+ String "010" "") with ("SET " +:+ String "$" (String "c" (String "010" ""))).
  rewrite substitute_literal, substitute_child, buildExpressionString_node by done.
  rewrite <-(length_fmap buildExpressionString nodes).
  destruct (buildExpressionString <$> nodes) as [|child children] eqn:Hchildren;
    [by destruct nodes|].
  destruct specs as [|spec specs]; [by apply Forall2_length in Hall|].
  destruct (substitute_children _ _ _ _ al Hall) as (s & al' & -> & Hal & _ & Hnames).
  simpl. by eexists _, _.
Qed.

End FormattingFacts.

(** C4.  A chain of two or more [WithUpdateField] calls on a wrapper that
    has no update field yet (the field names need not even be distinct):
    the wrapper's update expression then holds one SET action per call, for
    that call's field and value, in call order: a later call adds its
    action and neither replaces nor drops an earlier one.  When moreover
    [CreateQueryKeys] succeeds and every field builds, [BuildUpdateInput]
    returns a request and no error; the update clause of the request is the
    formatting of [SET] over the assignment nodes of all these fields, in
    call order; its values are the marshalled values of all the fields, one
    entry per call, in call order; and its names are the ones that
    formatting made, with the words of every field's name among them. *)
Theorem WithUpdateField_accumulates
  (expr : AwsExpressionWrapper) (st : expression.store)
  (fields : list (string * GoValue)) :
  updateExpression expr = expression.UpdateBuilder_zero ->
  (2 <= length fields)%nat ->
  set_operations (WithUpdateFields fields expr st).1 (WithUpdateFields fields expr st).2
    = set_operation <$> fields /\
  ((CreateQueryKeys expr).2 = None ->
   forallb field_builds fields = true ->
   exists input nodes avs s al,
     BuildUpdateInput (WithUpdateFields fields expr st).1 (WithUpdateFields fields expr st).2
       = (Some input, None) /\
     Forall2 (fun field node => expression.buildOperation (set_operation field) = Ok node)
             fields nodes /\
     Forall2 (fun field av => dynamodbattribute_Marshal field.2 = Ok av) fields avs /\
     expression.buildExpressionString (set_clause nodes) (expression.mkAliasList [] [])
       = Ok (s, al) /\
     expression.valuesList al = avs /\
     Forall (fun field => path_words field.1 ⊆ expression.namesList al) fields /\
     UpdateExpression input = Some s /\
     Update_ExpressionAttributeNames input
       = (if decide (length (expression.namesList al) = 0%nat) then None
          else Some (expression.alias_map "#" (expression.namesList al) 0)) /\
     Update_ExpressionAttributeValues input = Some (expression.alias_map ":" avs 0) /\
     Update_Key input = (CreateQueryKeys expr).1 /\
     Update_TableName input = Some (dynamoDBTable expr)).
Proof.
  intros Hzero Hlen.
  destruct (WithUpdateFields_holds fields expr st Hzero) as (Hholds & Hkeys & Htable).
  { intros ->. simpl in Hlen. lia. }
  split; [by apply set_operations_holds|].
  intros Hkey Hbuilds.
  destruct (buildOperations_set_formats fields Hbuilds)
    as (nodes & specs & Hnodes & Hspecs & Happs).
  assert (length specs = length fields) as Hlspecs by (by apply Forall2_length in Hspecs).
  assert (length nodes = length specs) as Hlnodes.
  { apply Forall2_length in Happs. by rewrite length_fmap in Happs. }
  destruct (set_clause_formats nodes specs (expression.mkAliasList [] []))
    as (s & al & Hs & Hal & Hnames); [|done|].
  { intros ->. simpl in Hlnodes. lia. }
  simpl in Hal.
  assert (Forall2 (fun field av => dynamodbattribute_Marshal field.2 = Ok av)
                  fields specs.*2) as Havs.
  { apply Forall2_fmap_r. eapply Forall2_impl; [exact Hspecs|]. by intros field spec [_ ?]. }
  assert (Forall (fun field => path_words field.1 ⊆ expression.namesList al) fields)
    as Hwords.
  { clear -Hspecs Hnames. induction Hspecs as [|field spec fields specs [Hfield _] _ IH].
    - constructor.
    - apply Forall_cons in Hnames as [Hspec Hnames].
      constructor; [by rewrite Hfield|by apply IH]. }
  unfold BuildUpdateInput.
  destruct Hholds as (ref & Href & Hmap).
  unfold DeepEqual_UpdateBuilder_zero. rewrite Href, Hkeys, Htable.
  destruct (CreateQueryKeys expr) as [keys [keyErr|]]; [done|].
  rewrite (Build_update _ _ ref (set_operation <$> fields) Href Hmap).
  destruct (decide _) as [Hnone|_].
  { rewrite length_fmap in Hnone. lia. }
  rewrite Hnodes, Hs.
  eexists _, nodes, specs.*2, s, al. split; [reflexivity|].
  apply buildOperations_Forall2 in Hnodes. apply Forall2_fmap_l in Hnodes.
  split; [done|]. split; [done|]. split; [done|]. split; [done|]. split; [done|]. cbn.
  split.
  { unfold expression.Update, expression.returnExpression. cbn. apply lookup_insert_eq. }
  split; [done|].
  split; [|done].
  rewrite Hal. destruct (decide _) as [Hnone|_]; [|done].
  rewrite length_fmap in Hnone. lia.
Qed.

(** C4 at the update of the test "expression with no condition". *)
Lemma WithUpdateField_accumulates_witness :
  set_operations (WithUpdateFields tested_update_fields tested_update_wrapper []).1
                 (WithUpdateFields tested_update_fields tested_update_wrapper []).2
    = set_operation <$> tested_update_fields /\
  exists input nodes avs s al,
    BuildUpdateInput (WithUpdateFields tested_update_fields tested_update_wrapper []).1
                     (WithUpdateFields tested_update_fields tested_update_wrapper []).2
      = (Some input, None) /\
    Forall2 (fun field node => expression.buildOperation (set_operation field) = Ok node)
            tested_update_fields nodes /\
    Forall2 (fun field av => dynamodbattribute_Marshal field.2 = Ok av)
            tested_update_fields avs /\
    expression.buildExpressionString (set_clause nodes) (expression.mkAliasList [] [])
      = Ok (s, al) /\
    expression.valuesList al = avs /\
    Forall (fun field => path_words field.1 ⊆ expression.namesList al)
           tested_update_fields /\
    UpdateExpression input = Some s /\
    Update_ExpressionAttributeNames input
      = (if decide (length (expression.namesList al) = 0%nat) then None
         else Some (expression.alias_map "#" (expression.namesList al) 0)) /\
    Update_ExpressionAttributeValues input = Some (expression.alias_map ":" avs 0) /\
    Update_Key input = (CreateQueryKeys tested_update_wrapper).1 /\
    Update_TableName input = Some (dynamoDBTable tested_update_wrapper).
Proof.
  destruct (WithUpdateField_accumulates tested_update_wrapper [] tested_update_fields)
    as [Haccumulates Hbuilds].
  - reflexivity.
  - simpl. lia.
  - split; [exact Haccumulates|]. apply Hbuilds; reflexivity.
Defined.

(** The update request of that test: both fields are in the clause. *)
Example BuildUpdateInput_tested_update :
  exists input,
    BuildUpdateInput (WithUpdateFields tested_update_fields tested_update_wrapper []).1
                     (WithUpdateFields tested_update_fields tested_update_wrapper []).2
      = (Some input, None) /\
    UpdateExpression input = Some ("SET #0 = :0, #1 = :1" +:+ String "010"%char "") /\
    Update_ExpressionAttributeNames input
      = Some {[ "#0" := "UpdatedAt"; "#1" := "CreatedAt" ]} /\
    Update_ExpressionAttributeValues input
      = Some {[ ":0" := AttrN "1586190435"; ":1" := AttrN "1586190435" ]}.
Proof. eexists. split; [reflexivity|]. vm_compute. repeat split. Qed.

(** Why [field_builds] asks for a name without ['$']: [Name] accepts the
    path [a[$x]], and the template it makes of it does not format. *)
Example BuildUpdateInput_dollar_in_index :
  let fields := [("a[$x]", GoInt 1); ("b", GoInt 2)] in
  (exists node, expression.BuildOperand (expression.Name "a[$x]") = Ok node) /\
  (BuildUpdateInput (WithUpdateFields fields tested_update_wrapper []).1
                    (WithUpdateFields fields tested_update_wrapper []).2).2
    = Some (errorString "buildexprNode error: invalid escape rune").
Proof. split; [by eexists|]. reflexivity. Qed.

(** The words of the tested fields, and of a path with a dot and an index. *)
Example path_words_tested :
  path_words <$> tested_update_fields.*1 = [["UpdatedAt"]; ["CreatedAt"]] /\
  path_words "a.b[1]" = ["a"; "b"].
Proof. split; reflexivity. Qed.

(** * Properties of the rest of the package *)

(** ** The configuration check *)

(** X1.  A configuration is valid exactly when its table name and its
    table's partition key name are not empty and no configured index has an
    empty partition key name. *)
Theorem IsValid_iff (c : DBConfig) :
  IsValid c = true <->
  TableName (TableInfo c) <> "" /\
  PartitionKey (TableKeys (TableInfo c)) <> "" /\
  forall name keys, Indexes c !! name = Some keys -> PartitionKey keys <> "".
Proof.
  assert (Hlen : forall s : string, (String.length s < 1)%nat <-> s = "").
  { intros [|a s]; simpl; split; intros; try done; lia. }
  unfold IsValid. destruct (decide _) as [Hbad|Hgood].
  - split; [done|]. intros (Ht & Hp & _). rewrite !Hlen in Hbad. tauto.
  - rewrite !Hlen in Hgood. rewrite forallb_forall. split.
    + intros Hall. split; [tauto|]. split; [tauto|].
      intros name keys Hlookup Hempty.
      apply elem_of_map_to_list, list_elem_of_In in Hlookup.
      specialize (Hall _ Hlookup). simpl in Hall.
      apply negb_true_iff, bool_decide_eq_false in Hall.
      apply Hall, Hlen, Hempty.
    + intros (_ & _ & Hindexes) [name keys] Hin.
      apply list_elem_of_In, elem_of_map_to_list in Hin.
      apply negb_true_iff, bool_decide_eq_false.
      rewrite Hlen. by eapply Hindexes.
Qed.

(** ** The keys of a request *)

Lemma length_lt_1 (s : string) : (String.length s < 1)%nat <-> s = "".
Proof. destruct s as [|a s]; simpl; split; intros; try done; lia. Qed.

Lemma length_gt_0 (s : string) : (0 < String.length s)%nat <-> s <> "".
Proof. destruct s as [|a s]; simpl; split; intros; try done; lia. Qed.

(** The keys of a wrapper whose partition key has a name and a value. *)
Lemma CreateQueryKeys_keys (expr : AwsExpressionWrapper) :
  partitionKeyName expr <> "" -> is_Some (partitionKeyValue expr) ->
  (CreateQueryKeys expr).2 = None /\
  forall name,
    (CreateQueryKeys expr).1 !! name =
      if decide (sortKeyName expr <> "" /\ name = sortKeyName expr)
      then Some (sortKeyValue expr)
      else if decide (name = partitionKeyName expr)
           then Some (partitionKeyValue expr)
           else None.
Proof.
  intros Hname [value Hvalue]. unfold CreateQueryKeys.
  destruct (decide _) as [[Hlen|Hnone]|_];
    [by rewrite length_lt_1 in Hlen|by rewrite Hvalue in Hnone|].
  split; [done|]. intros name. cbn [fst].
  destruct (decide (0 < String.length (sortKeyName expr))%nat) as [Hsort|Hsort];
    rewrite length_gt_0 in Hsort.
  - destruct (decide (_ /\ name = sortKeyName expr)) as [[_ ->]|Hno].
    + apply lookup_insert_eq.
    + rewrite lookup_insert_ne by (intros <-; tauto).
      destruct (decide (name = partitionKeyName expr)) as [->|Hne].
      * apply lookup_singleton_eq.
      * by apply lookup_singleton_ne.
  - destruct (decide (_ /\ name = sortKeyName expr)) as [[? _]|_]; [tauto|].
    destruct (decide (name = partitionKeyName expr)) as [->|Hne].
    + apply lookup_singleton_eq.
    + by apply lookup_singleton_ne.
Qed.

Lemma CreateQueryKeys_missing (expr : AwsExpressionWrapper) :
  partitionKeyName expr = "" \/ partitionKeyValue expr = None ->
  CreateQueryKeys expr = (∅, Some (errorString "missing partition key")).
Proof.
  intros Hbad. unfold CreateQueryKeys.
  destruct (decide _) as [_|Hgood]; [done|].
  rewrite length_lt_1 in Hgood. tauto.
Qed.

(** X2.  [CreateQueryKeys] fails, with an empty map, exactly when the
    partition key has no name or no value.  Otherwise the map holds the
    partition key under its name and, when the sort key has a name, the sort
    key value under that name, be it nil; a sort key named like the
    partition key takes its place. *)
Theorem CreateQueryKeys_spec (expr : AwsExpressionWrapper) :
  ((partitionKeyName expr = "" \/ partitionKeyValue expr = None) /\
   CreateQueryKeys expr = (∅, Some (errorString "missing partition key")))
  \/
  (partitionKeyName expr <> "" /\ is_Some (partitionKeyValue expr) /\
   (CreateQueryKeys expr).2 = None /\
   forall name,
     (CreateQueryKeys expr).1 !! name =
       if decide (sortKeyName expr <> "" /\ name = sortKeyName expr)
       then Some (sortKeyValue expr)
       else if decide (name = partitionKeyName expr)
            then Some (partitionKeyValue expr)
            else None).
Proof.
  destruct (decide (partitionKeyName expr = "" \/ partitionKeyValue expr = None))
    as [Hbad|Hgood].
  - left. split; [done|]. by apply CreateQueryKeys_missing.
  - right.
    assert (Hname : partitionKeyName expr <> "") by tauto.
    assert (Hvalue : is_Some (partitionKeyValue expr)).
    { destruct (partitionKeyValue expr); [done|tauto]. }
    destruct (CreateQueryKeys_keys expr Hname Hvalue) as [Hok Hkeys]. done.
Qed.

(** X3.  A sort key given with an empty value: the wrapper keeps the name
    without a value, and the key map then holds a nil attribute under the
    sort key name. *)
Theorem WithSortingKey_empty_value (table pKey pValue sKey : string) :
  pKey <> "" -> pValue <> "" -> sKey <> "" -> sKey <> pKey ->
  let expr :=
    WithSortingKey sKey "" (WithPartitionKey pKey pValue (NewExpressionWrapper table)) in
  (CreateQueryKeys expr).2 = None /\
  (CreateQueryKeys expr).1 !! sKey = Some None /\
  (CreateQueryKeys expr).1 !! pKey = Some (Some (AttrS pValue)).
Proof.
  intros HpKey HpValue HsKey Hne expr.
  assert (Hvalue : partitionKeyValue expr = Some (AttrS pValue)).
  { subst expr. unfold WithSortingKey, WithPartitionKey. simpl.
    destruct (decide (0 < String.length pValue)%nat) as [|Hlen]; [done|].
    by rewrite length_gt_0 in Hlen. }
  destruct (CreateQueryKeys_keys expr) as (Hok & Hkeys);
    [done|by rewrite Hvalue|].
  split; [done|]. rewrite !Hkeys, Hvalue. subst expr. simpl.
  split.
  - by destruct (decide (sKey <> "" /\ sKey = sKey)) as [|[]].
  - destruct (decide (sKey <> "" /\ pKey = sKey)) as [[_ ?]|_]; [done|].
    by destruct (decide (pKey = pKey)).
Qed.

Lemma WithSortingKey_empty_value_witness :
  let expr :=
    WithSortingKey "UserID" ""
      (WithPartitionKey "partitionID" "1234" (NewExpressionWrapper "request-test")) in
  (CreateQueryKeys expr).2 = None /\
  (CreateQueryKeys expr).1 !! "UserID" = Some None /\
  (CreateQueryKeys expr).1 !! "partitionID" = Some (Some (AttrS "1234")).
Proof.
  apply (WithSortingKey_empty_value "request-test" "partitionID" "1234" "UserID"); done.
Defined.

(** ** Update requests *)

(** X4.  Update fields on a wrapper whose partition key is missing:
    [BuildUpdateInput] returns no request and the error of the keys,
    whatever the fields. *)
Theorem BuildUpdateInput_missing_partition_key
  (expr : AwsExpressionWrapper) (st : expression.store)
  (fields : list (string * GoValue)) :
  updateExpression expr = expression.UpdateBuilder_zero ->
  fields <> [] ->
  partitionKeyName expr = "" \/ partitionKeyValue expr = None ->
  BuildUpdateInput (WithUpdateFields fields expr st).1 (WithUpdateFields fields expr st).2
    = (None, Some (errorString "missing partition key")).
Proof.
  intros Hzero Hfields Hkey.
  destruct (WithUpdateFields_holds fields expr st Hzero Hfields)
    as ((ref & Href & _) & Hkeys & _).
  unfold BuildUpdateInput, DeepEqual_UpdateBuilder_zero. rewrite Href, Hkeys.
  by rewrite (CreateQueryKeys_missing expr Hkey).
Qed.

Lemma BuildUpdateInput_missing_partition_key_witness :
  BuildUpdateInput
    (WithUpdateFields tested_update_fields (NewExpressionWrapper "request-test") []).1
    (WithUpdateFields tested_update_fields (NewExpressionWrapper "request-test") []).2
    = (None, Some (errorString "missing partition key")).
Proof.
  apply (BuildUpdateInput_missing_partition_key
           (NewExpressionWrapper "request-test") [] tested_update_fields).
  - reflexivity.
  - done.
  - by left.
Defined.

(** ** Scan requests *)

Section ScanFacts.

Import expression.

(** A builder that holds the key condition of the zero value does not
    compile, whatever else it holds. *)
Lemma Build_unset_key_condition (b : Builder) (st : store) :
  exists err, Build (WithKeyCondition b KeyConditionBuilder_zero) st = (Expression_zero, Some err).
Proof.
  unfold Build, WithKeyCondition. simpl expressionMap.
  destruct (decide _) as [|_]; [by eexists|].
  set (m := <[keyCondition := _]> _).
  assert (Hk : m !! keyCondition = Some (KeyConditionTree KeyConditionBuilder_zero))
    by (apply lookup_insert_eq).
  unfold sorted_types. cbn [buildChildTrees].
  destruct (m !! condition) as [tc|].
  - destruct (buildTree tc st) as [nc|]; [|by eexists]. cbn [mbind result_bind].
    destruct (buildExpressionString nc _) as [[sc al0]|]; [|by eexists].
    cbn [mbind result_bind].
    destruct (m !! filter) as [tf|].
    + destruct (buildTree tf st) as [nf|]; [|by eexists]. cbn [mbind result_bind].
      destruct (buildExpressionString nf _) as [[sf al1]|]; [|by eexists].
      cbn [mbind result_bind]. rewrite Hk. by eexists.
    + rewrite Hk. by eexists.
  - destruct (m !! filter) as [tf|].
    + destruct (buildTree tf st) as [nf|]; [|by eexists]. cbn [mbind result_bind].
      destruct (buildExpressionString nf _) as [[sf al1]|]; [|by eexists].
      cbn [mbind result_bind]. rewrite Hk. by eexists.
    + rewrite Hk. by eexists.
Qed.

End ScanFacts.

(** X5.  A scan without a key condition: the test of the key condition
    against the zero value of another type lets the unset key condition
    into the builder, which then does not compile, and the request built
    from the filter alone is replaced by one without filter and aliases,
    whatever the filter condition. *)
Theorem BuildScanInput_without_key_condition
  (expr : AwsExpressionWrapper) (st : expression.store) :
  dynamoDBTable expr <> "" ->
  keyCondition expr = expression.KeyConditionBuilder_zero ->
  exists input,
    BuildScanInput expr st = (Some input, None) /\
    Scan_TableName input = Some (dynamoDBTable expr) /\
    FilterExpression input = None /\
    Scan_ExpressionAttributeNames input = None /\
    Scan_ExpressionAttributeValues input = None.
Proof.
  intros Htable Hkey. unfold BuildScanInput.
  destruct (decide _) as [Hlen|_].
  { destruct (dynamoDBTable expr); done. }
  rewrite Hkey. cbn [negb DeepEqual_KeyConditionBuilder_ConditionBuilder].
  destruct (negb (DeepEqual_ConditionBuilder_zero (conditionExpression expr))).
  - destruct (expression.Build (expression.WithFilter _ _) st) as [filterOnly ?].
    destruct (Build_unset_key_condition
                (expression.WithFilter expression.NewBuilder (conditionExpression expr)) st)
      as [err ->].
    eexists. split; [reflexivity|].
    destruct (scan_pagination_expressions expr
                (mkScanInput None None None (Some (dynamoDBTable expr)) None ∅))
      as (Ht & Hf & Hn & Hv).
    cbn in *. by rewrite Ht, Hf, Hn, Hv.
  - destruct (Build_unset_key_condition expression.NewBuilder st) as [err ->].
    eexists. split; [reflexivity|].
    destruct (scan_pagination_expressions expr
                (mkScanInput None None None (Some (dynamoDBTable expr)) None ∅))
      as (Ht & Hf & Hn & Hv).
    cbn in *. by rewrite Ht, Hf, Hn, Hv.
Qed.

(** X5 at a scan that filters on [abc >= 123] and sets no key condition. *)
Lemma BuildScanInput_without_key_condition_witness :
  let expr := WithCondition "abc" (GoInt 123) GE (NewExpressionWrapper "request-test") in
  exists input,
    BuildScanInput expr [] = (Some input, None) /\
    Scan_TableName input = Some (dynamoDBTable expr) /\
    FilterExpression input = None /\
    Scan_ExpressionAttributeNames input = None /\
    Scan_ExpressionAttributeValues input = None.
Proof.
  apply (BuildScanInput_without_key_condition
           (WithCondition "abc" (GoInt 123) GE (NewExpressionWrapper "request-test")) []);
    done.
Defined.

(** X6.  A scan of a wrapper with a table name never fails, whether or not
    its conditions compile; the request carries the limit only when it is
    at least 1, and the start key of the wrapper. *)
Theorem BuildScanInput_pagination (expr : AwsExpressionWrapper) (st : expression.store) :
  dynamoDBTable expr <> "" ->
  exists input,
    BuildScanInput expr st = (Some input, None) /\
    Scan_Limit input
      = match limit expr with
        | Some l => if decide (1 <= l) then Some l else None
        | None => None
        end /\
    Scan_ExclusiveStartKey input = exclusiveStartKey expr.
Proof.
  intros Htable. unfold BuildScanInput.
  destruct (decide _) as [Hlen|_].
  { destruct (dynamoDBTable expr); done. }
  assert (Hpage : forall names values filter_,
    Scan_Limit (scan_pagination expr
                  (mkScanInput names values filter_ (Some (dynamoDBTable expr)) None ∅))
      = match limit expr with
        | Some l => if decide (1 <= l) then Some l else None
        | None => None
        end /\
    Scan_ExclusiveStartKey
      (scan_pagination expr
         (mkScanInput names values filter_ (Some (dynamoDBTable expr)) None ∅))
      = exclusiveStartKey expr).
  { intros names values filter_. unfold scan_pagination.
    assert (Hkey : ~ (0 < size (exclusiveStartKey expr))%nat -> ∅ = exclusiveStartKey expr).
    { intros Hsize. symmetry. apply map_size_empty_iff. lia. }
    destruct (limit expr) as [l|].
    - destruct (decide (l >= 1)), (decide (1 <= l)); try lia;
        destruct (decide (0 < size (exclusiveStartKey expr))%nat); simpl; auto.
    - destruct (decide (0 < size (exclusiveStartKey expr))%nat); simpl; auto. }
  destruct (negb (DeepEqual_ConditionBuilder_zero (conditionExpression expr)));
    [destruct (expression.Build (expression.WithFilter _ _) st) as [filterOnly ?]|];
    cbn [negb DeepEqual_KeyConditionBuilder_ConditionBuilder];
    destruct (expression.Build (expression.WithKeyCondition _ _) st) as [e ?];
    eexists; (split; [reflexivity|]); apply Hpage.
Qed.

(** X6 at the scan of the test "build scan input successfully", with the
    limit 5, and the same scan with the limit 0. *)
Lemma BuildScanInput_pagination_witness :
  let expr := fun l =>
    WithLimit l
      (WithLastEvaluatedKey "pKeyName" "pKeyVal" (Some "sKey") (Some "sKeyVal")
         (WithCondition "abc" (GoInt 123) GE
            (AndKeyCondition "sortID" (GoInt 123) GE
               (WithKeyCondition "partitionID" (GoInt 123) EQUAL
                  (NewExpressionWrapper "request-test"))))) in
  (exists input,
     BuildScanInput (expr 5) [] = (Some input, None) /\
     Scan_Limit input = Some 5 /\
     Scan_ExclusiveStartKey input
       = {[ "pKeyName" := Some (AttrS "pKeyVal"); "sKey" := Some (AttrS "sKeyVal") ]}) /\
  (exists input,
     BuildScanInput (expr 0) [] = (Some input, None) /\
     Scan_Limit input = None).
Proof.
  intros expr. split.
  - destruct (BuildScanInput_pagination (expr 5) []) as (input & Hinput & Hlimit & Hkey);
      [done|].
    exists input. split; [done|]. split; [done|]. rewrite Hkey. reflexivity.
  - destruct (BuildScanInput_pagination (expr 0) []) as (input & Hinput & Hlimit & Hkey);
      [done|].
    exists input. split; done.
Defined.

(** ** Put items *)

Section PutFacts.

Context {M : Type} `{BaseModel M}.

(** [createPutItem] issues no call, and draws at most two identifiers. *)
Lemma createPutItem_world (h : handlerImp) (rec : M) createPartKey createSortKey w :
  let w' := (createPutItem h rec createPartKey createSortKey w).2 in
  batch_writes w' = batch_writes w /\ batch_gets w' = batch_gets w /\
  uuid_New w' = uuid_New w /\
  (uuids_drawn w <= uuids_drawn w' <= uuids_drawn w + 2)%nat.
Proof.
  unfold createPutItem. destruct (Marshal rec); [|simpl; repeat split; lia].
  destruct (bool_decide _ && negb createPartKey); [simpl; repeat split; lia|].
  destruct (decide _); simpl;
    destruct (SortKey _); try destruct (GetSortKey _); try destruct createSortKey;
    simpl; repeat split; lia.
Qed.

(** Without leave to make up keys, [createPutItem] leaves the world as it
    is. *)
Lemma createPutItem_no_keys_made (h : handlerImp) (rec : M) w :
  (createPutItem h rec false false w).2 = w.
Proof.
  unfold createPutItem. destruct (Marshal rec); [|done].
  destruct (decide (GetPartitionKey (GetPartSortKey rec None) = "")) as [Hempty|Hfull].
  - by rewrite bool_decide_eq_true_2.
  - rewrite bool_decide_eq_false_2 by done. simpl.
    destruct (SortKey _); [|done]. by destruct (GetSortKey _).
Qed.

Lemma batchWrite_requests_no_keys_made (h : handlerImp) (recs : list M) requests w :
  (batchWrite_requests h recs false false requests w).2 = w.
Proof.
  revert requests. induction recs as [|rec recs IH]; intros requests; [done|].
  simpl. pose proof (createPutItem_no_keys_made h rec w) as Hw.
  destruct (createPutItem h rec false false w) as [[[item keys]|err] w']; simpl in Hw;
    subst w'; [apply IH|done].
Qed.

Lemma batchWrite_requests_world (h : handlerImp) (recs : list M)
  createPartKey createSortKey requests w :
  let r := batchWrite_requests h recs createPartKey createSortKey requests w in
  batch_writes r.2 = batch_writes w /\
  match r.1 with
  | Ok requests' => length requests' = (length requests + length recs)%nat
  | Err _ => True
  end.
Proof.
  revert requests w. induction recs as [|rec recs IH]; intros requests w; simpl.
  - split; [done|lia].
  - pose proof (createPutItem_world h rec createPartKey createSortKey w) as (Hw & _).
    destruct (createPutItem h rec createPartKey createSortKey w)
      as [[[item keys]|err] w']; simpl in Hw; [|done].
    destruct (IH (requests ++ [mkWriteRequest (Some (mkPutRequest item)) None]) w')
      as [Hw' Hlen].
    split; [congruence|].
    destruct (batchWrite_requests _ _ _ _ _ _).1; [|done].
    rewrite Hlen, length_app. simpl. lia.
Qed.

(** A record whose partition key is empty stops the first loop when keys
    may not be made up. *)
Lemma batchWrite_requests_missing_partition_key (h : handlerImp) (recs : list M)
  requests w :
  Exists (fun rec => GetPartitionKey (GetPartSortKey rec None) = "") recs ->
  exists err, batchWrite_requests h recs false false requests w = (Err err, w).
Proof.
  intros Hex. revert requests.
  induction Hex as [rec recs Hrec|rec recs _ IH]; intros requests; simpl.
  - unfold createPutItem. destruct (Marshal rec); [|by eexists].
    rewrite bool_decide_eq_true_2 by done. by eexists.
  - pose proof (createPutItem_no_keys_made h rec w) as Hw.
    destruct (createPutItem h rec false false w) as [[[item keys]|err] w']; simpl in Hw;
      subst w'; [apply IH|by eexists].
Qed.

End PutFacts.

Lemma take_min_25 {A : Type} (l : list A) :
  take (Z.to_nat (Z.min 25 (Z.of_nat (length l)))) l = take 25 l.
Proof.
  destruct (Z.min_spec 25 (Z.of_nat (length l))) as [[Hlt ->]|[Hle ->]]; [done|].
  rewrite Nat2Z.id. rewrite firstn_all. symmetry. apply take_ge. lia.
Qed.




(** ** Batch writes *)

(** X8.  [BulkUpdateRecords] makes up no key: it draws no identifier,
    whatever the records and the provider. *)
Theorem BulkUpdateRecords_draws_no_uuid {M : Type} `{BaseModel M}
  (h : handlerImp) (baseModel : M) (records : list M) (w : world) :
  uuids_drawn (BulkUpdateRecords h baseModel records w).2 = uuids_drawn w.
Proof.
  unfold BulkUpdateRecords, batchWrite.
  pose proof (batchWrite_requests_no_keys_made h
                (take (Z.to_nat (Z.min 25 (Z.of_nat (length records)))) records) [] w) as Hw.
  destruct (batchWrite_requests _ _ _ _ _ _) as [[requests|err] w']; simpl in Hw; subst w';
    [|done].
  destruct (BatchWriteItemWithContext h _) as [res [err|]]; [done|].
  destruct res as [res|]; [|done].
  by destruct (batchWrite_unprocessed _ _ _) as [[?|?]|?].
Qed.

(** X9.  A record without a partition key among the first 25 makes
    [BulkUpdateRecords] return the records as they were given, with an
    error, before any call is issued. *)
Theorem BulkUpdateRecords_missing_partition_key {M : Type} `{BaseModel M}
  (h : handlerImp) (baseModel : M) (records : list M) (w : world) :
  Exists (fun rec => GetPartitionKey (GetPartSortKey rec None) = "") (take 25 records) ->
  exists err, BulkUpdateRecords h baseModel records w = (Returns (records, Some err), w).
Proof.
  intros Hex. unfold BulkUpdateRecords, batchWrite. rewrite take_min_25.
  destruct (batchWrite_requests_missing_partition_key h _ [] w Hex) as [err ->].
  by exists err.
Qed.

(** X9 at three records of which the second has no name. *)
Lemma BulkUpdateRecords_missing_partition_key_witness :
  let h := mkHandlerImp cfg unused_batch_get unused_batch_write in
  let records := [mkTestRecord "a" "s"; mkTestRecord "" "s"; mkTestRecord "c" "s"] in
  exists err,
    BulkUpdateRecords h (mkTestRecord "" "") records fresh_world
      = (Returns (records, Some err), fresh_world).
Proof.
  intros h records.
  apply (BulkUpdateRecords_missing_partition_key h (mkTestRecord "" "") records fresh_world).
  apply Exists_cons_tl, Exists_cons_hd. reflexivity.
Defined.

(** X10.  [batchWrite] issues at most one batch-write call, for the table
    of the configuration, of at most 25 put requests and never more than
    there are records. *)
Theorem batchWrite_at_most_one_call {M : Type} `{BaseModel M}
  (h : handlerImp) (baseModel : M) (records : list M)
  (createPartKey createSortKey : bool) (w : world) :
  let w' := (batchWrite h baseModel records createPartKey createSortKey w).2 in
  batch_writes w' = batch_writes w \/
  exists requests,
    batch_writes w'
      = batch_writes w
        ++ [mkBatchWriteItemInput {[ TableName (TableInfo (config h)) := requests ]}] /\
    (length requests <= 25)%nat /\ (length requests <= length records)%nat.
Proof.
  unfold batchWrite.
  pose proof (batchWrite_requests_world h
                (take (Z.to_nat (Z.min 25 (Z.of_nat (length records)))) records)
                createPartKey createSortKey [] w) as [Hw Hlen].
  destruct (batchWrite_requests _ _ _ _ _ _) as [[requests|err] w1];
    cbn [fst snd] in Hw, Hlen; [|by left].
  right. exists requests.
  rewrite take_min_25, length_take in Hlen. cbn [length] in Hlen.
  split; [|lia].
  destruct (BatchWriteItemWithContext h _) as [res [err|]]; simpl; [by rewrite Hw|].
  destruct res as [res|]; simpl; [|by rewrite Hw].
  destruct (batchWrite_unprocessed _ _ _) as [[?|?]|?]; simpl; by rewrite Hw.
Qed.


(** ** Batch deletes *)

Section DeleteFacts.

Variables (h : handlerImp) (pKey sKey : string).
Hypothesis table_keys : TableKeys (TableInfo (config h)) = mkDBPSKeyNames pKey (Some sKey).
Hypothesis pKey_set : pKey <> "".
Hypothesis sKey_set : sKey <> "".

(** The first loop of [BulkDeleteRecords] over keys that have both values:
    one delete request per key, in order. *)
Lemma BulkDeleteRecords_requests_ok dbKeys items :
  Forall (fun key => GetPartitionKey key <> "" /\ is_Some (GetSortKey key)) dbKeys ->
  BulkDeleteRecords_requests h dbKeys items
  = Ok (items ++ (delete_request_of pKey sKey <$> dbKeys)).
Proof.
  intros Hall. revert items.
  induction Hall as [|key dbKeys [Hpart [sValue Hsort]] _ IH]; intros items.
  - simpl. by rewrite app_nil_r.
  - cbn [BulkDeleteRecords_requests]. rewrite table_keys. cbn [SortKey PartitionKey].
    rewrite Hsort.
    unfold CreateQueryKeys, WithSortingKey, WithPartitionKey. simpl.
    destruct (decide (0 < String.length (GetPartitionKey key))%nat) as [_|Hlen];
      [|by rewrite length_gt_0 in Hlen].
    destruct (decide (_ \/ _)) as [[Hlen|?]|_]; [by rewrite length_lt_1 in Hlen|done|].
    destruct (decide (0 < String.length sKey)%nat) as [_|Hlen];
      [|by rewrite length_gt_0 in Hlen].
    rewrite IH, <- app_assoc. do 2 f_equal. cbn [app]. f_equal.
    unfold delete_request_of. rewrite Hsort. do 4 f_equal.
    destruct (decide (0 < String.length sValue)%nat) as [Hlen|Hlen];
      rewrite length_gt_0 in Hlen.
    + by destruct (decide (sValue = "")).
    + destruct (decide (sValue = "")); [done|tauto].
Qed.

(** Decoding the delete requests of keys whose values are not empty gives
    the keys back. *)
Lemma BulkDeleteRecords_unprocessed_requests dbKeys unprocessedItems :
  sKey <> pKey ->
  Forall (fun key => GetPartitionKey key <> "" /\
                     exists sValue, GetSortKey key = Some sValue /\ sValue <> "") dbKeys ->
  BulkDeleteRecords_unprocessed (TableInfo (config h))
    (delete_request_of pKey sKey <$> dbKeys) unprocessedItems
  = Returns (unprocessedItems ++ dbKeys).
Proof.
  intros Hne Hall. revert unprocessedItems.
  induction Hall as [|key dbKeys (Hpart & sValue & Hsort & Hvalue) _ IH];
    intros unprocessedItems.
  - simpl. by rewrite app_nil_r.
  - rewrite fmap_cons. cbn [BulkDeleteRecords_unprocessed].
    rewrite table_keys. cbn [SortKey PartitionKey].
    unfold delete_request_of at 1. cbn [WR_DeleteRequest Key]. rewrite Hsort.
    destruct (decide (sValue = "")); [done|].
    unfold map_index.
    rewrite lookup_insert_eq, lookup_insert_ne, lookup_singleton_eq by done.
    cbn [default id dynamodbattribute_Unmarshal_string].
    destruct (decide (sValue = "")); [done|].
    rewrite IH, <- app_assoc. do 2 f_equal. cbn [app]. f_equal.
    destruct key as [partKey sortKey_]. simpl in *. by subst.
Qed.

End DeleteFacts.

(** X12.  [BulkDeleteRecords] does not page: for keys that all have a
    partition key value and a sort key, on a table with both keys, it
    issues exactly one batch-write call, which holds one delete request per
    key, in order, however many keys there are. *)
Theorem BulkDeleteRecords_one_call_for_all_keys
  (h : handlerImp) (pKey sKey : string) (dbKeys : list dbPSKeyValues) (w : world) :
  TableKeys (TableInfo (config h)) = mkDBPSKeyNames pKey (Some sKey) ->
  pKey <> "" -> sKey <> "" ->
  Forall (fun key => GetPartitionKey key <> "" /\ is_Some (GetSortKey key)) dbKeys ->
  batch_writes (BulkDeleteRecords h dbKeys w).2
  = batch_writes w
    ++ [mkBatchWriteItemInput
          {[ TableName (TableInfo (config h)) := delete_request_of pKey sKey <$> dbKeys ]}].
Proof.
  intros Hkeys HpKey HsKey Hall. unfold BulkDeleteRecords.
  rewrite (BulkDeleteRecords_requests_ok h pKey sKey Hkeys HpKey HsKey dbKeys [] Hall).
  rewrite app_nil_l.
  destruct (BatchWriteItemWithContext h _) as [out [err|]]; [done|].
  destruct out as [out|]; [|done].
  by destruct (BulkDeleteRecords_unprocessed _ _ _).
Qed.

(** X12 at 29 keys on the table of the tests: one call of 29 requests. *)
Lemma BulkDeleteRecords_one_call_for_all_keys_witness :
  let h := mkHandlerImp cfg unused_batch_get unused_batch_write in
  batch_writes (BulkDeleteRecords h (test_keys 29) fresh_world).2
  = [mkBatchWriteItemInput
       {[ "table" := delete_request_of "partKey" "sortKey" <$> test_keys 29 ]}] /\
  length (delete_request_of "partKey" "sortKey" <$> test_keys 29) = 29%nat.
Proof.
  intros h. split; [|reflexivity].
  apply (BulkDeleteRecords_one_call_for_all_keys h "partKey" "sortKey" (test_keys 29)
           fresh_world); try done.
  apply Forall_forall. intros key Hkey.
  apply list_elem_of_fmap in Hkey as (i & -> & _). split; [done|by eexists].
Defined.

(** X13.  Keys survive the round trip through their delete requests: when
    the provider processes nothing, [BulkDeleteRecords] returns the keys it
    was given, in order and without an error, provided that every key has a
    partition key value and a sort key value that are not empty and that
    the two key names differ. *)
Theorem BulkDeleteRecords_nothing_processed
  (h : handlerImp) (pKey sKey : string) (dbKeys : list dbPSKeyValues) (w : world) :
  TableKeys (TableInfo (config h)) = mkDBPSKeyNames pKey (Some sKey) ->
  pKey <> "" -> sKey <> "" -> sKey <> pKey ->
  BatchWriteItemWithContext h = nothing_processed ->
  Forall (fun key => GetPartitionKey key <> "" /\
                     exists sValue, GetSortKey key = Some sValue /\ sValue <> "") dbKeys ->
  (BulkDeleteRecords h dbKeys w).1 = Returns (dbKeys, None).
Proof.
  intros Hkeys HpKey HsKey Hne Hprovider Hall. unfold BulkDeleteRecords.
  rewrite (BulkDeleteRecords_requests_ok h pKey sKey Hkeys HpKey HsKey dbKeys []).
  2: { eapply Forall_impl; [exact Hall|]. intros key (? & ? & ? & _). split; [done|by eexists]. }
  rewrite app_nil_l, Hprovider. unfold nothing_processed. cbn [BatchWrite_RequestItems].
  cbn [UnprocessedItems]. rewrite lookup_singleton_eq. cbn [default id].
  by rewrite (BulkDeleteRecords_unprocessed_requests h pKey sKey Hkeys dbKeys [] Hne Hall).
Qed.

(** X13 at three keys of the tests; and a key whose sort key value is
    empty does not come back as it was given. *)
Lemma BulkDeleteRecords_nothing_processed_witness :
  let h := mkHandlerImp cfg unused_batch_get nothing_processed in
  (BulkDeleteRecords h (test_keys 3) fresh_world).1 = Returns (test_keys 3, None) /\
  (BulkDeleteRecords h [mkDbPSKeyValues "p" (Some "")] fresh_world).1
    = Returns ([mkDbPSKeyValues "p" None], None).
Proof.
  intros h. split; [|reflexivity].
  apply (BulkDeleteRecords_nothing_processed h "partKey" "sortKey" (test_keys 3) fresh_world);
    try done.
  apply Forall_forall. intros key Hkey.
  apply list_elem_of_fmap in Hkey as (i & -> & _). split; [done|by eexists].
Defined.

(** ** Partition, continued *)

(** X14.  [Partition] of a negative length with a positive size: no range
    when the length is a multiple of the size; otherwise the one range from
    0 to the length, whose upper bound is below its lower bound. *)
Theorem Partition_negative_length (n p : Z) :
  GoInt.min_int <= n < 0 -> 0 < p <= GoInt.max_int ->
  Partition n p = if decide (Z.rem n p = 0) then [] else [mkIdxRange 0 n].
Proof.
  intros [Hmin Hneg] [Hpos Hmax]. unfold Partition.
  destruct (Z.leb_spec p 0) as [|_]; [lia|].
  assert (Hq : n <= Z.quot n p <= 0).
  { assert (Hopp : Z.quot n p = - Z.quot (- n) p)
      by (rewrite Z.quot_opp_l by lia; lia).
    pose proof (Z.quot_pos (- n) p ltac:(lia) Hpos) as Hq0.
    pose proof (Z.quot_rem' (- n) p) as Hqr.
    pose proof (Z.rem_bound_pos (- n) p ltac:(lia) Hpos) as Hr.
    assert (Z.quot (- n) p <= p * Z.quot (- n) p) by nia.
    lia. }
  unfold GoInt.quo. rewrite (wrap_id (Z.quot n p))
    by (unfold GoInt.in_range, GoInt.min_int, GoInt.max_int in *; lia).
  replace (Z.to_nat (Z.quot n p)) with 0%nat by lia. simpl.
  unfold GoInt.rem.
  destruct (decide (Z.rem n p = 0)) as [->|Hrem]; [done|].
  destruct (Z.eqb_spec (Z.rem n p) 0); [done|]. simpl. reflexivity.
Qed.

Lemma Partition_negative_length_witness :
  Partition (-3) 2 = [mkIdxRange 0 (-3)] /\ Partition (-4) 2 = [].
Proof.
  split.
  - apply (Partition_negative_length (-3) 2); unfold GoInt.min_int, GoInt.max_int; lia.
  - apply (Partition_negative_length (-4) 2); unfold GoInt.min_int, GoInt.max_int; lia.
Defined.

(** ** Bulk read of a single page *)

(** 1 to 25 keys make one page. *)
Lemma Partition_single_page (n : nat) :
  (1 <= n <= 25)%nat -> Partition (Z.of_nat n) 25 = [mkIdxRange 0 (Z.of_nat n)].
Proof.
  intros Hn.
  destruct (Partition_spec (Z.of_nat n) 25) as (Hlen & Htiles & _).
  { unfold GoInt.max_int. lia. }
  { unfold GoInt.max_int. lia. }
  assert (Hceil : ceil_div (Z.of_nat n) 25 = 1).
  { unfold ceil_div. symmetry. apply Z.div_unique with (r := Z.of_nat n - 1); lia. }
  rewrite Hceil in Hlen.
  destruct (Partition (Z.of_nat n) 25) as [|r [|r' rs]]; simpl in Hlen; try lia.
  inversion Htiles as [|lo hi r0 rs0 Hlow Hlt Hrest]; subst.
  inversion Hrest; subst. destruct r as [lo hi]. simpl in *. by subst.
Qed.

Section SinglePage.

Context {M : Type} `{BaseModel M}.
Variables (h : handlerImp) (input : M) (dbKeys : list dbPSKeyValues) (w : world).
Hypothesis one_page : (1 <= length dbKeys <= 25)%nat.

(** What [GetByIDs] returns for one page is what the task of that page
    sends. *)
Lemma GetByIDs_single_page_message records err calls :
  GetByIDs_returns h input dbKeys w records err calls ->
  exists fuel msg calls',
    page_task fuel h input dbKeys (mkIdxRange 0 (Z.of_nat (length dbKeys)))
      = Some (Returns msg, calls') /\
    (records, err) = result_of_message msg.
Proof.
  intros Hret.
  destruct (GetByIDs_returns_one_message h input dbKeys w (fun _ => True))
    with (records := records) (err := err) (calls := calls)
    as (i & msg & new & Hpage & Hresult & _); [|done|].
  { intros i page fuel o calls0 _ Htask. split; [by apply Forall_forall|].
    intros msg ->. by eapply page_task_calls_nonempty. }
  destruct Hpage as (page & fuel & calls' & Hi & Htask).
  rewrite (Partition_single_page _ one_page) in Hi.
  destruct i as [|i]; [|by rewrite lookup_cons, lookup_nil in Hi].
  injection Hi as <-. by exists fuel, msg, calls'.
Qed.

End SinglePage.

(** X15.  A bulk read of 1 to 25 keys is the read of one page:
    [GetByIDs] can return a result exactly when the task of the page of all
    the keys sends a message with that result (the records and no error,
    or the error and no record). *)
Theorem GetByIDs_single_page {M : Type} `{BaseModel M}
  (h : handlerImp) (input : M) (dbKeys : list dbPSKeyValues) (w : world)
  (records : option (list M)) (err : option error) :
  (1 <= length dbKeys <= 25)%nat ->
  (exists calls, GetByIDs_returns h input dbKeys w records err calls) <->
  (exists fuel msg calls,
     page_task fuel h input dbKeys (mkIdxRange 0 (Z.of_nat (length dbKeys)))
       = Some (Returns msg, calls) /\
     (records, err) = result_of_message msg).
Proof.
  intros Hone. split.
  - intros [calls Hret]. by eapply GetByIDs_single_page_message.
  - intros (fuel & msg & calls & Htask & Hresult).
    exists (batch_gets w ++ calls).
    replace records with (result_of_message msg).1 by (by rewrite <- Hresult).
    replace err with (result_of_message msg).2 by (by rewrite <- Hresult).
    eapply (GetByIDs_page_returns h input dbKeys w 0); [|exact Htask].
    by rewrite (Partition_single_page _ Hone).
Qed.

(** X15 at three keys on the provider that holds every item. *)
Lemma GetByIDs_single_page_witness :
  (exists calls,
     GetByIDs_returns full_handler (mkTestRecord "" "") (test_keys 3) fresh_world
       (Some (test_key_records 3)) None calls) <->
  (exists fuel msg calls,
     page_task fuel full_handler (mkTestRecord "" "") (test_keys 3) (mkIdxRange 0 3)
       = Some (Returns msg, calls) /\
     (Some (test_key_records 3), None) = result_of_message msg).
Proof.
  apply (GetByIDs_single_page full_handler (mkTestRecord "" "") (test_keys 3) fresh_world
           (Some (test_key_records 3)) None).
  simpl. lia.
Defined.

(** X16.  A bulk read of 1 to 25 keys has one result: when the task of
    the page of all the keys sends a message, [GetByIDs] can return the
    result of that message, and every return of [GetByIDs] gives that
    result. *)
Theorem GetByIDs_single_page_unique {M : Type} `{BaseModel M}
  (h : handlerImp) (input : M) (dbKeys : list dbPSKeyValues) (w : world)
  (fuel : nat) (msg : baseModelsWithErr M) (calls : list BatchGetItemInput) :
  (1 <= length dbKeys <= 25)%nat ->
  page_task fuel h input dbKeys (mkIdxRange 0 (Z.of_nat (length dbKeys)))
    = Some (Returns msg, calls) ->
  GetByIDs_returns h input dbKeys w
    (result_of_message msg).1 (result_of_message msg).2 (batch_gets w ++ calls) /\
  forall records err calls',
    GetByIDs_returns h input dbKeys w records err calls' ->
    (records, err) = result_of_message msg.
Proof.
  intros Hone Htask. split.
  - eapply (GetByIDs_page_returns h input dbKeys w 0); [|exact Htask].
    by rewrite (Partition_single_page _ Hone).
  - intros records err calls' Hret.
    destruct (GetByIDs_single_page_message h input dbKeys w Hone _ _ _ Hret)
      as (fuel' & msg' & c' & Htask' & ->).
    apply (page_task_fuel_le h input fuel (fuel `max` fuel')) in Htask; [|lia].
    apply (page_task_fuel_le h input fuel' (fuel `max` fuel')) in Htask'; [|lia].
    rewrite Htask in Htask'. by injection Htask' as <- _.
Qed.

(** X16 at three keys on the provider that holds every item: the records
    of the three keys, after one batch-get call. *)
Lemma GetByIDs_single_page_unique_witness :
  let calls := [buildGetRequests full_handler (test_keys 3)] in
  GetByIDs_returns full_handler (mkTestRecord "" "") (test_keys 3) fresh_world
    (Some (test_key_records 3)) None calls /\
  forall records err calls',
    GetByIDs_returns full_handler (mkTestRecord "" "") (test_keys 3) fresh_world
      records err calls' ->
    (records, err) = (Some (test_key_records 3), None).
Proof.
  intros calls.
  apply (GetByIDs_single_page_unique full_handler (mkTestRecord "" "") (test_keys 3)
           fresh_world 1 (mkBaseModelsWithErr (test_key_records 3) None) calls).
  - simpl. lia.
  - reflexivity.
Defined.

(** ** Unprocessed keys *)

(** X17.  [load] asks again for the unprocessed keys without a bound: on a
    provider that never gets done it does not return, whatever the
    request. *)
Theorem load_never_done {M : Type} `{BaseModel M}
  (h : handlerImp) (model : M) (req : BatchGetItemInput) (records : list M) (fuel : nat) :
  BatchGetItemWithContext h = never_done ->
  (0 < size (BatchGet_RequestItems req))%nat ->
  load fuel h model (Some req) records = None.
Proof.
  intros Hprovider. revert req records.
  induction fuel as [|fuel IH]; intros req records Hsize; [done|].
  simpl. rewrite Hprovider. unfold never_done. cbn [Responses UnprocessedKeys].
  rewrite map_size_empty.
  destruct (decide (0 < 0)%nat) as [|_]; [lia|].
  destruct (decide (0 < size (BatchGet_RequestItems req))%nat) as [_|]; [|done].
  by rewrite IH.
Qed.

Lemma load_never_done_witness :
  let h := mkHandlerImp cfg never_done unused_batch_write in
  load 1000 h (mkTestRecord "" "") (Some (buildGetRequests h (test_keys 3))) [] = None.
Proof.
  intros h.
  apply (load_never_done h (mkTestRecord "" "") (buildGetRequests h (test_keys 3)) [] 1000).
  - reflexivity.
  - unfold buildGetRequests. cbn [BatchGet_RequestItems].
    rewrite map_size_singleton. lia.
Defined.

(** ** Get and delete requests *)

(** X18.  [BuildGetInput] succeeds exactly when the wrapper has a table
    name, a partition key name and a partition key value; it returns a
    request exactly when it returns no error, and the request then names
    the table and holds the keys of [CreateQueryKeys]. *)
Theorem BuildGetInput_succeeds_iff (expr : AwsExpressionWrapper) :
  ((BuildGetInput expr).2 = None <->
   dynamoDBTable expr <> "" /\ partitionKeyName expr <> "" /\
   is_Some (partitionKeyValue expr)) /\
  (is_Some (BuildGetInput expr).1 <-> (BuildGetInput expr).2 = None) /\
  (forall input, (BuildGetInput expr).1 = Some input ->
     Get_TableName input = Some (dynamoDBTable expr) /\
     Get_Key input = (CreateQueryKeys expr).1).
Proof.
  unfold BuildGetInput.
  destruct (decide (String.length (dynamoDBTable expr) < 1)%nat) as [Hlen|Hlen];
    rewrite length_lt_1 in Hlen.
  - simpl. split; [|split].
    + split; [done|]. by intros [? _].
    + split; [by intros [? ?]|done].
    + done.
  - destruct (decide (partitionKeyName expr = "" \/ partitionKeyValue expr = None))
      as [Hbad|Hgood].
    + rewrite (CreateQueryKeys_missing expr Hbad). simpl. split; [|split].
      * split; [done|]. intros (_ & ? & [? Hsome]).
        destruct Hbad as [|Hnone]; [done|]. by rewrite Hnone in Hsome.
      * split; [by intros [? ?]|done].
      * done.
    + assert (Hname : partitionKeyName expr <> "") by tauto.
      assert (Hvalue : is_Some (partitionKeyValue expr)).
      { destruct (partitionKeyValue expr); [done|tauto]. }
      destruct (CreateQueryKeys_keys expr Hname Hvalue) as [Hok _].
      destruct (CreateQueryKeys expr) as [keys [err|]]; [done|]. simpl.
      split; [done|]. split; [done|]. by intros input [= <-].
Qed.



(** ** Single reads *)

(** The get request of a wrapper that has what it takes. *)
Lemma BuildGetInput_keys (expr : AwsExpressionWrapper) :
  dynamoDBTable expr <> "" -> partitionKeyName expr <> "" ->
  is_Some (partitionKeyValue expr) ->
  BuildGetInput expr
    = (Some (mkGetItemInput (Some (dynamoDBTable expr)) (CreateQueryKeys expr).1), None) /\
  forall name,
    (CreateQueryKeys expr).1 !! name =
      if decide (sortKeyName expr <> "" /\ name = sortKeyName expr)
      then Some (sortKeyValue expr)
      else if decide (name = partitionKeyName expr)
           then Some (partitionKeyValue expr)
           else None.
Proof.
  intros Htable Hname [value Hvalue]. unfold BuildGetInput.
  destruct (decide _) as [Hlen|_]; [by rewrite length_lt_1 in Hlen|].
  destruct (CreateQueryKeys_keys expr) as (Hok & Hkeys); [done|by eexists|].
  split; [|done].
  destruct (CreateQueryKeys expr) as [keys keyErr]. simpl in Hok. by subst keyErr.
Qed.

(** X20.  A get request for an index: the key is made with the key names
    of the index, and the request names the table, as it does for a name
    that is no index. *)
Theorem prepareGetReq_index
  (h : handlerImp) (name : string) (indexKeys : DBPSKeyNames) (keys : dbPSKeyValues) :
  Indexes (config h) !! name = Some indexKeys ->
  TableName (TableInfo (config h)) <> "" ->
  PartitionKey indexKeys <> "" ->
  GetPartitionKey keys <> "" ->
  exists input,
    prepareGetReq h name keys = (Some input, None) /\
    Get_TableName input = Some (TableName (TableInfo (config h))) /\
    (SortKey indexKeys <> Some (PartitionKey indexKeys) ->
     Get_Key input !! PartitionKey indexKeys
       = Some (Some (AttrS (GetPartitionKey keys)))) /\
    (forall sKey sValue,
       SortKey indexKeys = Some sKey -> sKey <> "" ->
       GetSortKey keys = Some sValue -> sValue <> "" ->
       Get_Key input !! sKey = Some (Some (AttrS sValue))).
Proof.
  intros Hindex Htable HpKey Hpart. unfold prepareGetReq.
  destruct (decide _) as [Hlen|_]; [by rewrite length_lt_1 in Hlen|].
  rewrite Hindex.
  set (expr := match SortKey indexKeys, GetSortKey keys with
               | Some sKey, Some sValue => WithSortingKey sKey sValue _
               | _, _ => _
               end).
  assert (Hexpr : dynamoDBTable expr = TableName (TableInfo (config h)) /\
                  partitionKeyName expr = PartitionKey indexKeys /\
                  partitionKeyValue expr = Some (AttrS (GetPartitionKey keys)) /\
                  (sortKeyName expr <> "" ->
                   exists sValue, SortKey indexKeys = Some (sortKeyName expr) /\
                                  GetSortKey keys = Some sValue /\
                                  sortKeyValue expr
                                  = if decide (sValue = "") then None
                                    else Some (AttrS sValue)) /\
                  (forall sKey sValue, SortKey indexKeys = Some sKey ->
                     GetSortKey keys = Some sValue -> sortKeyName expr = sKey)).
  { assert (Hvalue : (if decide (0 < String.length (GetPartitionKey keys))%nat
                      then Some (AttrS (GetPartitionKey keys)) else None)
                     = Some (AttrS (GetPartitionKey keys))).
    { destruct (decide _) as [|Hlen]; [done|]. by rewrite length_gt_0 in Hlen. }
    subst expr. destruct (SortKey indexKeys) as [sKey|], (GetSortKey keys) as [sValue|];
      unfold WithSortingKey, WithPartitionKey; simpl; rewrite Hvalue;
      repeat split; try done.
    intros _. exists sValue. repeat split.
    destruct (decide (0 < String.length sValue)%nat) as [Hlen|Hlen];
      rewrite length_gt_0 in Hlen; destruct (decide (sValue = "")); done || tauto.
    all: by intros ? ? [= <-] [= <-]. }
  clearbody expr. destruct Hexpr as (Hname & HpName & HpValue & HsName & HsKey).
  destruct (BuildGetInput_keys expr) as (Hok & Hkeys);
    [by rewrite Hname|by rewrite HpName|by rewrite HpValue|].
  rewrite Hok. eexists. split; [reflexivity|]. simpl.
  split; [by rewrite Hname|]. split.
  - intros Hne. rewrite Hkeys, HpName, HpValue.
    destruct (decide (_ /\ _)) as [[Hset Heq]|_].
    + destruct (HsName Hset) as (? & Hsort & _). congruence.
    + by destruct (decide (PartitionKey indexKeys = PartitionKey indexKeys)).
  - intros sKey sValue Hsort HsSet Hvalue HvSet.
    rewrite Hkeys. specialize (HsKey sKey sValue Hsort Hvalue).
    destruct (decide (_ /\ _)) as [_|Hno]; [|exfalso; apply Hno; split; congruence].
    f_equal. destruct HsName as (sValue' & _ & Hvalue' & ->); [congruence|].
    assert (sValue' = sValue) as -> by congruence.
    by destruct (decide (sValue = "")).
Qed.

(** X20 at an index on the e-mail address. *)
Lemma prepareGetReq_index_witness :
  let h :=
    mkHandlerImp
      (mkDBConfig (mkDBTableInfo "table" (mkDBPSKeyNames "partKey" (Some "sortKey")))
                  {[ "byEmail" := mkDBPSKeyNames "email" None ]})
      unused_batch_get unused_batch_write in
  exists input,
    prepareGetReq h "byEmail" (mkDbPSKeyValues "a@b.c" None) = (Some input, None) /\
    Get_TableName input = Some "table" /\
    Get_Key input !! "email" = Some (Some (AttrS "a@b.c")).
Proof.
  intros h.
  destruct (prepareGetReq_index h "byEmail" (mkDBPSKeyNames "email" None)
              (mkDbPSKeyValues "a@b.c" None))
    as (input & Hreq & Htable & Hpart & _); [reflexivity|done|done|done|].
  exists input. split; [exact Hreq|]. split; [exact Htable|]. by apply Hpart.
Defined.

(** X21.  [GetByID] issues at most one get call, and none for a key
    without a partition key value, which it refuses; when the provider
    answers with an empty item, it returns neither a record nor an
    error. *)
Theorem GetByID_calls {M : Type} `{BaseModel M}
  (h : handlerImp)
  (GetItemWithContext : GetItemInput -> option GetItemOutput * option error)
  (input : M) (index : string) (dbKeys : dbPSKeyValues) :
  (length (GetByID h GetItemWithContext input index dbKeys).2 <= 1)%nat /\
  (GetPartitionKey dbKeys = "" ->
   GetByID h GetItemWithContext input index dbKeys
   = (Returns (Err (errorString "invalid partition key")), [])) /\
  (forall req res,
     (GetByID h GetItemWithContext input index dbKeys).2 = [req] ->
     GetItemWithContext req = (Some res, None) ->
     Get_Item res = ∅ ->
     (GetByID h GetItemWithContext input index dbKeys).1 = Returns (Ok None)).
Proof.
  unfold GetByID. split; [|split].
  - destruct (prepareGetReq h index dbKeys) as [[req|] [err|]]; simpl; try lia.
    destruct (GetItemWithContext req) as [[res|] [getErr|]]; simpl; try lia.
    destruct (decide _); [simpl; lia|].
    destruct (Unmarshal input (Get_Item res)); simpl; lia.
  - intros Hempty. unfold prepareGetReq.
    destruct (decide _) as [_|Hlen]; [done|].
    rewrite length_lt_1 in Hlen. done.
  - intros req res.
    destruct (prepareGetReq h index dbKeys) as [[req0|] [err|]]; simpl; try done.
    destruct (GetItemWithContext req0) as [[res0|] [getErr|]] eqn:Hget; simpl;
      try (intros [= <-]; rewrite Hget; done).
    destruct (decide _) as [|Hsize]; [done|].
    destruct (Unmarshal input (Get_Item res0)); simpl;
      intros [= <-]; rewrite Hget; intros [= <-] Hitem;
      rewrite Hitem, map_size_empty in Hsize; lia.
Qed.
